(** * statquest_xgboost_in_python_heart_disease.py: the data preparation
      pipeline and the model constructions

    The script is a straight line of pandas statements on module-level
    variables ([df], [X], [y], [X_encoded], [y_not_zero_index]) followed by
    three constructions of [xgb.XGBClassifier].  The development has four
    layers:

    - [Cell]: the Python objects a table cell holds, their equality, order
      and printing;
    - [Column]: what each pandas call of the script does to the cells of one
      column (pure functions on lists of cells);
    - [Store], [Pandas], [Script]: the objects of the interpreter (frames and
      series on a heap, reached through the script's variables), the pandas
      calls as heap operations, and the statements of the script in source
      order;
    - [Search], [Model]: the parameter grid of the (commented-out) grid
      search and the keyword arguments of the classifier constructions.

    pandas, scikit-learn and xgboost are libraries the script calls; their
    behaviour is taken from their documented semantics at the versions the
    script's imports fix (pandas 1.x: [plot_confusion_matrix] only exists in
    scikit-learn 0.22 to 1.1). *)

From Stdlib Require Import ZArith QArith String Ascii List DecimalString Lia.
From stdpp Require Import base list strings sorting.

Open Scope Z_scope.

(** ** Cells *)

Module Cell.

(** A [float64] cell.  The script never computes with floats: it compares
    them ([==], [>], hashing inside [get_dummies]), prints them (names of
    the indicator columns) and copies them.  The model keeps [NaN] and the
    finite decimals [m * 10^-e], which is what a decimal field of the data
    file denotes. *)
Inductive float64 :=
| NaN
| Dec (m : Z) (e : nat).

(** A Python object stored in a cell: [int], [float] or [str]. *)
Inductive value :=
| VInt (n : Z)
| VFloat (x : float64)
| VStr (s : string).

#[export] Instance float64_eq_dec : EqDecision float64.
Proof. solve_decision. Defined.

#[export] Instance value_eq_dec : EqDecision value.
Proof. solve_decision. Defined.

(** [pd.isna] on a cell. *)
Definition isna (v : value) : bool :=
  match v with
  | VFloat NaN => true
  | _ => false
  end.

(** The finite number a cell denotes, as mantissa and decimal exponent. *)
Definition as_dec (v : value) : option (Z * nat) :=
  match v with
  | VInt n => Some (n, 0%nat)
  | VFloat (Dec m e) => Some (m, e)
  | VFloat NaN => None
  | VStr _ => None
  end.

Definition pow10 (e : nat) : Z := 10 ^ Z.of_nat e.

Definition dec_eqb (p q : Z * nat) : bool :=
  fst p * pow10 (snd q) =? fst q * pow10 (snd p).

Definition dec_ltb (p q : Z * nat) : bool :=
  fst p * pow10 (snd q) <? fst q * pow10 (snd p).

(** Python's [a == b] (with the matching hash): numbers compare by value
    across [int] and [float], strings with strings, a number never equals a
    string, and [nan] equals nothing. *)
Definition py_eqb (a b : value) : bool :=
  match a, b with
  | VStr s, VStr t => String.eqb s t
  | VStr _, _ => false
  | _, VStr _ => false
  | _, _ =>
      match as_dec a, as_dec b with
      | Some p, Some q => dec_eqb p q
      | _, _ => false
      end
  end.

(** Python's [a > n] for an [int] literal [n]: a [TypeError] ([None]) on a
    string, [False] on [nan]. *)
Definition py_gtb (a : value) (n : Z) : option bool :=
  match a with
  | VStr _ => None
  | VFloat NaN => Some false
  | _ =>
      match as_dec a with
      | Some p => Some (dec_ltb (n, 0%nat) p)
      | None => Some false
      end
  end.

(** The order [safe_sort] puts category levels in: numbers first, by value,
    then strings, by code point. *)
Definition level_leb (a b : value) : bool :=
  match a, b with
  | VStr s, VStr t => String.leb s t
  | VStr _, _ => false
  | _, VStr _ => true
  | _, _ =>
      match as_dec a, as_dec b with
      | Some p, Some q => negb (dec_ltb q p)
      | _, _ => true
      end
  end.

(** *** Printing: [str(v)] *)

Definition str_int (n : Z) : string := NilZero.string_of_int (Z.to_int n).

Definition digit (d : Z) : ascii := ascii_of_nat (48 + Z.to_nat d).

(** The [e] low decimal digits of [r], most significant first. *)
Fixpoint frac_digits (e : nat) (r : Z) : string :=
  match e with
  | O => EmptyString
  | S e' => String (digit ((r / pow10 e') mod 10)) (frac_digits e' r)
  end.

(** Drop the trailing zeros of the fraction. *)
Fixpoint normalize (m : Z) (e : nat) : Z * nat :=
  match e with
  | O => (m, O)
  | S e' => if m mod 10 =? 0 then normalize (m / 10) e' else (m, e)
  end.

(** [repr] of a float in positional notation (the one Python uses for
    magnitudes from 1e-4 up to 1e16): [63.0], [2.3], [-0.5]. *)
Definition str_float (x : float64) : string :=
  match x with
  | NaN => "nan"%string
  | Dec m e =>
      let '(m', e') := normalize m e in
      let a := Z.abs m' in
      let sign := if m' <? 0 then "-"%string else ""%string in
      let frac := match e' with O => "0"%string | _ => frac_digits e' a end in
      sign +:+ str_int (a / pow10 e') +:+ "." +:+ frac
  end.

Definition str (v : value) : string :=
  match v with
  | VInt n => str_int n
  | VFloat x => str_float x
  | VStr s => s
  end.

(** *** Reading numbers: the parser of [pd.to_numeric]

    [pd.to_numeric] turns the strings of an [object] column into numbers
    with the library's own reader.  The reader is a parameter of the model;
    [decimal_reader] below is the instance for plain decimal fields, the
    only ones of the data file. *)
Class NumericReader := read_number : string -> option value.

Definition is_digit (c : ascii) : bool :=
  let n := nat_of_ascii c in ((48 <=? n)%nat && (n <=? 57)%nat)%bool.

Definition digit_val (c : ascii) : Z := Z.of_nat (nat_of_ascii c - 48).

(** Digits of an integer part, accumulated left to right; stops at the
    first non-digit and returns the rest. *)
Fixpoint read_digits (acc : Z) (n : nat) (s : string) : Z * nat * string :=
  match s with
  | String c s' =>
      if is_digit c then read_digits (10 * acc + digit_val c) (S n) s'
      else (acc, n, s)
  | EmptyString => (acc, n, s)
  end.

Definition read_unsigned (s : string) : option value :=
  let '(ip, ni, rest) := read_digits 0 O s in
  match rest with
  | EmptyString => if (0 <? ni)%nat then Some (VInt ip) else None
  | String "."%char rest' =>
      let '(m, nf, rest'') := read_digits ip O rest' in
      match rest'' with
      | EmptyString =>
          if (0 <? ni + nf)%nat then Some (VFloat (Dec m nf)) else None
      | _ => None
      end
  | _ => None
  end.

Definition negate (v : value) : value :=
  match v with
  | VInt n => VInt (- n)
  | VFloat (Dec m e) => VFloat (Dec (- m) e)
  | _ => v
  end.

Definition read_decimal (s : string) : option value :=
  match s with
  | String "-"%char s' => negate <$> read_unsigned s'
  | _ => read_unsigned s
  end.

#[export] Instance decimal_reader : NumericReader := read_decimal.

End Cell.

Export Cell.

(** ** Columns: what the pandas calls of the script do to the cells *)

Module Column.

(** The dtypes a column of this script can have: the three [read_csv]
    infers for the data file, and [uint8], the dtype of the indicator
    columns [get_dummies] makes. *)
Inductive dtype := Int64 | Float64 | UInt8 | Object.

Record Series := mkSeries { dtype_of : dtype; cells : list value }.

(** "int, float or bool": every dtype but [object]. *)
Definition numeric_or_bool (d : dtype) : bool :=
  match d with
  | Object => false
  | _ => true
  end.

(** A column as [read_csv] parses it: all fields integers, all fields
    numbers, or text.  An empty field is [nan]. *)
Inductive csv_column :=
| IntColumn (l : list Z)
| FloatColumn (l : list float64)
| TextColumn (l : list (option string)).

Definition text_cell (f : option string) : value :=
  match f with
  | Some s => VStr s
  | None => VFloat NaN
  end.

Definition series_of_csv (c : csv_column) : Series :=
  match c with
  | IntColumn l => mkSeries Int64 (VInt <$> l)
  | FloatColumn l => mkSeries Float64 (VFloat <$> l)
  | TextColumn l => mkSeries Object (text_cell <$> l)
  end.

(** [s == v] for a scalar [v], cell by cell. *)
Definition eq_mask (l : list value) (v : value) : list bool :=
  (fun c => py_eqb c v) <$> l.

(** [s > n] for an int [n], cell by cell; a [TypeError] on a string. *)
Definition gt_mask (l : list value) (n : Z) : option (list bool) :=
  mapM (fun c => py_gtb c n) l.

(** The int [n] as stored in a column of dtype [d]. *)
Definition cast (d : dtype) (n : Z) : value :=
  match d with
  | Float64 => VFloat (Dec n 0)
  | _ => VInt n
  end.

(** [s[mask] = v]: the cells the mask selects are overwritten. *)
Fixpoint set_where (mask : list bool) (v : value) (l : list value) : list value :=
  match mask, l with
  | b :: mask', c :: l' => (if b then v else c) :: set_where mask' v l'
  | _, _ => l
  end.

(** [df.loc[df[c] == '?', c] = 0] on the cells of column [c]. *)
Definition fill_sentinel (s : Series) : Series :=
  mkSeries (dtype_of s)
    (set_where (eq_mask (cells s) (VStr "?")) (cast (dtype_of s) 0) (cells s)).

(** *** Category levels ([factorize] with [sort=True]) *)

(** First occurrences, in order of appearance. *)
Fixpoint uniques (l : list value) : list value :=
  match l with
  | [] => []
  | v :: l' => v :: filter (fun w => py_eqb v w = false) (uniques l')
  end.

Definition observed (l : list value) : list value :=
  filter (fun v => isna v = false) l.

Definition level_le (a b : value) : Prop := level_leb a b = true.

#[export] Instance level_le_dec a b : Decision (level_le a b).
Proof. unfold level_le. apply _. Defined.

(** The distinct observed values of a column, sorted. *)
Definition levels (l : list value) : list value :=
  merge_sort level_le (uniques (observed l)).

(** *** One-hot expansion of one column ([_get_dummies_1d]) *)

Definition indicator (lv : value) (l : list value) : list value :=
  (fun c => VInt (if py_eqb c lv then 1 else 0)) <$> l.

Definition dummy_name (prefix : string) (lv : value) : string :=
  prefix +:+ "_" +:+ str lv.

Definition get_dummies_1d (prefix : string) (l : list value) : list (string * Series) :=
  (fun lv => (dummy_name prefix lv, mkSeries UInt8 (indicator lv l))) <$> levels l.

(** *** [pd.to_numeric] *)

Section to_numeric.
Context `{NumericReader}.

Definition to_number (v : value) : option value :=
  match v with
  | VStr s =>
      match read_number s with
      | Some (VStr _) => None
      | r => r
      end
  | _ => Some v
  end.

Definition is_float (v : value) : bool :=
  match v with
  | VFloat _ => true
  | _ => false
  end.

Definition to_float (v : value) : value :=
  match v with
  | VInt n => VFloat (Dec n 0)
  | _ => v
  end.

(** An [object] column is read cell by cell ([None]: a [ValueError] on a
    string that is no number) and comes out [float64] when any cell is a
    float, [int64] otherwise; a numeric column is returned as it is. *)
Definition to_numeric (s : Series) : option Series :=
  match dtype_of s with
  | Object =>
      l ← mapM to_number (cells s);
      Some (if existsb is_float l
            then mkSeries Float64 (to_float <$> l)
            else mkSeries Int64 l)
  | _ => Some s
  end.

End to_numeric.

End Column.

Export Column.

(** ** The interpreter's objects *)

Module Store.

(** Locations are positions in the heap. *)
Abbreviation loc := nat (only parsing).

(** A column label: the position [read_csv] gives a column of a file
    without header, or a name. *)
Inductive label :=
| LPos (n : nat)
| LName (s : string).

#[export] Instance label_eq_dec : EqDecision label.
Proof. solve_decision. Defined.

(** The objects on the heap.  A frame holds, per column and in column
    order, the label and the location of the column's cells: [df[c]] hands
    out that location, so a write through the series is a write to the
    frame.  A boolean series (the result of a comparison) is only ever used
    as a mask and is an object kind of its own. *)
Inductive obj :=
| OSeries (s : Series)
| OMask (m : list bool)
| OFrame (cols : list (label * loc)).

(** The module-level variables of the script. *)
Module Var.
Record globals := mkGlobals {
  df : option loc;
  X : option loc;
  y : option loc;
  X_encoded : option loc;
  y_not_zero_index : option loc
}.
Definition none : globals := mkGlobals None None None None None.
Definition set_df (l : loc) (g : globals) : globals :=
  mkGlobals (Some l) (X g) (y g) (X_encoded g) (y_not_zero_index g).
Definition set_X (l : loc) (g : globals) : globals :=
  mkGlobals (df g) (Some l) (y g) (X_encoded g) (y_not_zero_index g).
Definition set_y (l : loc) (g : globals) : globals :=
  mkGlobals (df g) (X g) (Some l) (X_encoded g) (y_not_zero_index g).
Definition set_X_encoded (l : loc) (g : globals) : globals :=
  mkGlobals (df g) (X g) (y g) (Some l) (y_not_zero_index g).
Definition set_y_not_zero_index (l : loc) (g : globals) : globals :=
  mkGlobals (df g) (X g) (y g) (X_encoded g) (Some l).
End Var.

Record state := mkState { heap : list obj; vars : Var.globals }.

Definition initial : state := mkState [] Var.none.

Inductive exn := KeyError | ValueError | TypeError | NameError | IndexingError.

Inductive result (A : Type) :=
| Ok (a : A)
| Raise (e : exn).
Arguments Ok {A} a.
Arguments Raise {A} e.

(** Statements and expressions: state in, value and state out, or an
    exception. *)
Definition M (A : Type) : Type := state -> result (A * state).

#[export] Instance M_ret : MRet M := fun A a st => Ok (a, st).
#[export] Instance M_bind : MBind M := fun A B f m st =>
  match m st with
  | Ok (a, st') => f a st'
  | Raise e => Raise e
  end.

Definition raise {A} (e : exn) : M A := fun _ => Raise e.

Definition alloc (o : obj) : M loc := fun st =>
  Ok (length (heap st), mkState (heap st ++ [o]) (vars st)).

Definition read (l : loc) : M obj := fun st =>
  match heap st !! l with
  | Some o => Ok (o, st)
  | None => Raise TypeError
  end.

Definition write (l : loc) (o : obj) : M unit := fun st =>
  Ok (tt, mkState (<[l := o]> (heap st)) (vars st)).

Definition get_var (x : Var.globals -> option loc) : M loc := fun st =>
  match x (vars st) with
  | Some l => Ok (l, st)
  | None => Raise NameError
  end.

Definition set_var (upd : loc -> Var.globals -> Var.globals) (l : loc) : M unit :=
  fun st => Ok (tt, mkState (heap st) (upd l (vars st))).

Definition get_series (l : loc) : M Series :=
  o ← read l;
  match o with
  | OSeries s => mret s
  | _ => raise TypeError
  end.

Definition get_mask (l : loc) : M (list bool) :=
  o ← read l;
  match o with
  | OMask m => mret m
  | _ => raise TypeError
  end.

Definition get_frame (l : loc) : M (list (label * loc)) :=
  o ← read l;
  match o with
  | OFrame cols => mret cols
  | _ => raise TypeError
  end.

(** One statement after another, from a state. *)
Fixpoint exec (stmts : list (M unit)) (st : state) : result state :=
  match stmts with
  | [] => Ok st
  | s :: stmts' =>
      match s st with
      | Ok (_, st') => exec stmts' st'
      | Raise e => Raise e
      end
  end.

(** *** Reading a state *)

Fixpoint find_col {A} (c : label) (cols : list (label * A)) : option A :=
  match cols with
  | [] => None
  | (c', a) :: cols' => if decide (c' = c) then Some a else find_col c cols'
  end.

Definition series_at (h : list obj) (l : loc) : option Series :=
  match h !! l with
  | Some (OSeries s) => Some s
  | _ => None
  end.

(** The columns of the frame at [f], labels and cells, in column order. *)
Definition frame_at (h : list obj) (f : loc) : option (list (label * Series)) :=
  match h !! f with
  | Some (OFrame cols) =>
      mapM (fun p : label * loc => s ← series_at h p.2; Some (p.1, s)) cols
  | _ => None
  end.

(** The frame a variable is bound to. *)
Definition frame_of (x : Var.globals -> option loc) (st : state)
  : option (list (label * Series)) :=
  f ← x (vars st); frame_at (heap st) f.

(** The series a variable is bound to. *)
Definition series_of (x : Var.globals -> option loc) (st : state) : option Series :=
  l ← x (vars st); series_at (heap st) l.

End Store.

Export Store.

(** ** The pandas calls of the script, on the heap *)

Module Pandas.

(** Several new objects at once, at consecutive locations. *)
Definition alloc_many (os : list obj) : M (list loc) := fun st =>
  Ok (seq (length (heap st)) (length os), mkState (heap st ++ os) (vars st)).

(** A new frame on new series. *)
Definition new_frame (cols : list (label * Series)) : M loc :=
  ls ← alloc_many (OSeries <$> cols.*2);
  alloc (OFrame (zip cols.*1 ls)).

(** The columns of a frame, labels and series, in column order. *)
Definition read_frame (f : loc) : M (list (label * Series)) :=
  cols ← get_frame f;
  mapM (fun p : label * loc => s ← get_series p.2; mret (p.1, s)) cols.

(** [pd.read_csv(path, header=None)]: a new frame, one new series per
    column of the file, labelled [0, 1, ...]. *)
Definition read_csv (file : list csv_column) : M loc :=
  new_frame (zip (LPos <$> seq 0 (length file)) (series_of_csv <$> file)).

(** [f.columns = names]: relabels the frame in place; a [ValueError] when
    the number of names is not the number of columns. *)
Definition set_columns (f : loc) (names : list string) : M unit :=
  cols ← get_frame f;
  if decide (length names = length cols)
  then write f (OFrame (zip (LName <$> names) cols.*2))
  else raise ValueError.

(** [f[c]]: the series of column [c], sharing the column's cells. *)
Definition getitem (f : loc) (c : label) : M loc :=
  cols ← get_frame f;
  match find_col c cols with
  | Some l => mret l
  | None => raise KeyError
  end.

(** [s == v]: a new boolean series. *)
Definition series_eq (s : loc) (v : value) : M loc :=
  x ← get_series s;
  alloc (OMask (eq_mask (cells x) v)).

(** [s > n]: a new boolean series. *)
Definition series_gt (s : loc) (n : Z) : M loc :=
  x ← get_series s;
  match gt_mask (cells x) n with
  | Some m => alloc (OMask m)
  | None => raise TypeError
  end.

(** [s[mask] = n]: writes the cells of [s] in place. *)
Definition series_setitem (s mask : loc) (n : Z) : M unit :=
  m ← get_mask mask;
  x ← get_series s;
  if decide (length m = length (cells x))
  then write s (OSeries (mkSeries (dtype_of x)
                           (set_where m (cast (dtype_of x) n) (cells x))))
  else raise IndexingError.

(** [f.loc[mask, c] = n]: writes the cells of column [c] in place. *)
Definition loc_setitem (f mask : loc) (c : label) (n : Z) : M unit :=
  s ← getitem f c;
  series_setitem s mask n.

(** [f.drop(c, axis=1)]: a new frame without column [c].  Whether its
    columns share cells with [f] depends on the pandas version; the model
    takes the case where they do, the one where the [.copy()] that follows
    in the script matters. *)
Definition drop (f : loc) (c : label) : M loc :=
  cols ← get_frame f;
  match find_col c cols with
  | Some _ => alloc (OFrame (filter (fun p => p.1 ≠ c) cols))
  | None => raise KeyError
  end.

(** [s.copy()]: a new series with the same cells. *)
Definition copy_series (s : loc) : M loc :=
  x ← get_series s;
  alloc (OSeries x).

(** [f.copy()]: a new frame on new copies of the columns. *)
Definition copy_frame (f : loc) : M loc :=
  cols ← read_frame f;
  new_frame cols.

(** The indicator columns of a column named [c] with the cells [l], under
    their labels. *)
Definition dummies (c : string) (l : list value) : list (label * Series) :=
  prod_map LName id <$> get_dummies_1d c l.

(** The indicator columns of the column named [c]. *)
Definition dummies_of (cols : list (label * Series)) (c : string)
  : option (list (label * Series)) :=
  x ← find_col (LName c) cols;
  Some (dummies c (cells x)).

(** The columns of [pd.get_dummies(f, columns=columns)]: the columns not
    named in [columns] come first, in their order; then, per name of
    [columns] and in that order, the indicator columns of its levels.
    [None] when a named column is missing. *)
Definition encode (cols : list (label * Series)) (columns : list string)
  : option (list (label * Series)) :=
  groups ← mapM (dummies_of cols) columns;
  Some (filter (fun p => p.1 ∉ LName <$> columns) cols ++ concat groups).

(** [pd.get_dummies(f, columns=columns)]: a new frame on new series; a
    [KeyError] when a named column is missing. *)
Definition get_dummies (f : loc) (columns : list string) : M loc :=
  cols ← read_frame f;
  match encode cols columns with
  | Some cols' => new_frame cols'
  | None => raise KeyError
  end.

(** [pd.to_numeric(s)]: a new series; a [ValueError] on a string that is
    no number. *)
Definition to_numeric `{NumericReader} (s : loc) : M loc :=
  x ← get_series s;
  match Column.to_numeric x with
  | Some x' => alloc (OSeries x')
  | None => raise ValueError
  end.

Fixpoint replace_col {A} (c : label) (a : A) (cols : list (label * A))
  : list (label * A) :=
  match cols with
  | [] => [(c, a)]
  | (c', a') :: cols' =>
      if decide (c' = c) then (c, a) :: cols'
      else (c', a') :: replace_col c a cols'
  end.

(** [f[c] = s]: the frame is changed in place; column [c] (a new last
    column when [f] has none) now holds a copy of the cells of [s]. *)
Definition setitem (f : loc) (c : label) (s : loc) : M unit :=
  cols ← get_frame f;
  l ← copy_series s;
  write f (OFrame (replace_col c l cols)).

End Pandas.

(** ** The statements of the script, in source order *)

Module Script.

Import Pandas.

Definition column_names : list string :=
  ["age"; "sex"; "cp"; "restbp"; "chol"; "fbs"; "restecg";
   "thalach"; "exang"; "oldpeak"; "slope"; "ca"; "thal"; "hd"]%string.

Definition encoded_columns : list string :=
  ["cp"; "restecg"; "slope"; "thal"]%string.

(** [df = pd.read_csv('processed.cleveland.data', header=None)] *)
Definition s_read (file : list csv_column) : M unit :=
  f ← read_csv file;
  set_var Var.set_df f.

(** [df.columns = ['age', ..., 'hd']] *)
Definition s_columns : M unit :=
  f ← get_var Var.df;
  set_columns f column_names.

(** [df.loc[(df[c] == '?'), c] = 0], for [c] one of ['ca'] and ['thal'] *)
Definition s_fill (c : string) : M unit :=
  f ← get_var Var.df;
  f' ← get_var Var.df;
  s ← getitem f' (LName c);
  mask ← series_eq s (VStr "?");
  loc_setitem f mask (LName c) 0.

(** [X = df.drop('hd', axis=1).copy()] *)
Definition s_X : M unit :=
  f ← get_var Var.df;
  d ← drop f (LName "hd");
  x ← copy_frame d;
  set_var Var.set_X x.

(** [y = df['hd'].copy()] *)
Definition s_y : M unit :=
  f ← get_var Var.df;
  s ← getitem f (LName "hd");
  c ← copy_series s;
  set_var Var.set_y c.

(** [X_encoded = pd.get_dummies(X, columns=['cp', 'restecg', 'slope', 'thal'])] *)
Definition s_encode : M unit :=
  x ← get_var Var.X;
  e ← get_dummies x encoded_columns;
  set_var Var.set_X_encoded e.

(** [y_not_zero_index = y > 0] *)
Definition s_mask : M unit :=
  s ← get_var Var.y;
  m ← series_gt s 0;
  set_var Var.set_y_not_zero_index m.

(** [y[y_not_zero_index] = 1] *)
Definition s_binarize : M unit :=
  s ← get_var Var.y;
  m ← get_var Var.y_not_zero_index;
  series_setitem s m 1.

(** [X_encoded['ca'] = pd.to_numeric(X_encoded['ca'])] *)
Definition s_coerce `{NumericReader} : M unit :=
  e ← get_var Var.X_encoded;
  s ← getitem e (LName "ca");
  n ← to_numeric s;
  e' ← get_var Var.X_encoded;
  setitem e' (LName "ca") n.

(** The stages of the pipeline. *)
Definition data_loader (file : list csv_column) : list (M unit) :=
  [s_read file; s_columns].

Definition missing_value_resolver : list (M unit) :=
  [s_fill "ca"; s_fill "thal"].

Definition feature_formatter `{NumericReader} : list (M unit) :=
  [s_X; s_y; s_encode; s_mask; s_binarize; s_coerce].

Definition pipeline `{NumericReader} (file : list csv_column) : list (M unit) :=
  data_loader file ++ missing_value_resolver ++ feature_formatter.

End Script.

(** ** The tables the variables hold, stage by stage

    The contents of [df], [X], [y] and [X_encoded] as functions of the
    file, read off the statements above; [Run] below proves that the
    statements, run on the heap, leave the variables bound to exactly
    these. *)

Module Table.

Import Pandas Script.

Abbreviation frame := (list (label * Series)).

(** [df] after the loader. *)
Definition loaded (file : list csv_column) : frame :=
  zip (LName <$> column_names) (series_of_csv <$> file).

(** [df.loc[(df[c] == '?'), c] = 0] *)
Definition fill_column (c : string) (t : frame) : frame :=
  (fun p => if decide (p.1 = LName c) then (p.1, fill_sentinel p.2) else p) <$> t.

(** [df] after the missing-value resolver. *)
Definition resolved (t : frame) : frame :=
  fill_column "thal" (fill_column "ca" t).

(** [X = df.drop('hd', axis=1).copy()] *)
Definition features (t : frame) : frame :=
  filter (fun p => p.1 ≠ LName "hd") t.

(** [X_encoded = pd.get_dummies(X, columns=[...])] *)
Definition encoded (x : frame) : option frame :=
  encode x encoded_columns.

(** The cells of column [c]. *)
Definition column (c : string) (t : frame) : option (list value) :=
  cells <$> find_col (LName c) t.

(** The labels of the indicator columns of [c]: those that start with [c]
    and an underscore. *)
Definition in_group (c : string) (l : label) : bool :=
  match l with
  | LName s => String.prefix (c +:+ "_") s
  | LPos _ => false
  end.

(** The integer in row [i] of a series. *)
Definition int_at (i : nat) (s : Series) : Z :=
  match cells s !! i with
  | Some (VInt n) => n
  | _ => 0
  end.

(** The indicator columns of [c] in the table [t]. *)
Definition group (c : string) (t : frame) : frame :=
  filter (fun p => in_group c p.1 = true) t.

(** Row [i] summed over the indicator columns of [c]. *)
Definition row_sum (c : string) (i : nat) (t : frame) : Z :=
  foldr Z.add 0 ((fun p => int_at i p.2) <$> group c t).

End Table.

(** ** The states of a run on a file of fourteen columns

    The heap after each stage, written out: the fourteen series of the
    file (locations 0 to 13), the frame [df] (14), the two masks of the
    resolver (15, 16), the frame [df.drop('hd', axis=1)] (17), the copies
    that make up [X] (18 to 30) and [X] itself (31), [y] (32), then the
    series of [X_encoded] (from 33 on) and [X_encoded], the mask
    [y_not_zero_index], and the two series the coercion of ['ca'] makes. *)

Module Run.

Import Pandas Script Table.

Section states.

Variable file : list csv_column.

Definition df0 : frame := loaded file.
Definition df1 : frame := resolved df0.
Definition X1 : frame := features df1.
Definition E : frame := default [] (encoded X1).

Definition col (c : string) (t : frame) : Series :=
  default (mkSeries Object []) (find_col (LName c) t).

Definition y0 : Series := col "hd" df1.

(** [y] after [y[y_not_zero_index] = 1], for the mask [m]. *)
Definition y1 (m : list bool) : Series :=
  mkSeries (dtype_of y0) (set_where m (cast (dtype_of y0) 1) (cells y0)).

Definition g_df : Var.globals := Var.set_df 14 Var.none.
Definition g_split : Var.globals := Var.set_y 32 (Var.set_X 31 g_df).
Definition g_encoded : Var.globals := Var.set_X_encoded (33 + length E) g_split.
Definition g_masked : Var.globals :=
  Var.set_y_not_zero_index (34 + length E) g_encoded.

Definition h_loaded : list obj :=
  (OSeries <$> df0.*2) ++ [OFrame (zip df0.*1 (seq 0 14))].

Definition h_filled : list obj :=
  (OSeries <$> df1.*2) ++
  [OFrame (zip df0.*1 (seq 0 14));
   OMask (eq_mask (cells (col "ca" df0)) (VStr "?"));
   OMask (eq_mask (cells (col "thal" df0)) (VStr "?"))].

Definition h_split : list obj :=
  h_filled ++ [OFrame (zip X1.*1 (seq 0 13))] ++ (OSeries <$> X1.*2) ++
  [OFrame (zip X1.*1 (seq 18 13)); OSeries y0].

Definition h_encoded : list obj :=
  h_split ++ (OSeries <$> E.*2) ++ [OFrame (zip E.*1 (seq 33 (length E)))].

Definition h_masked (m : list bool) : list obj := h_encoded ++ [OMask m].

Definition h_binarized (m : list bool) : list obj :=
  <[32%nat := OSeries (y1 m)]> (h_masked m).

Definition h_final (m : list bool) (n : Series) : list obj :=
  <[(33 + length E)%nat :=
      OFrame (replace_col (LName "ca") (36 + length E)%nat
                (zip E.*1 (seq 33 (length E))))]>
    (h_binarized m ++ [OSeries n; OSeries n]).

Definition st_loaded : state := mkState h_loaded g_df.
Definition st_filled : state := mkState h_filled g_df.
Definition st_split : state := mkState h_split g_split.
Definition st_encoded : state := mkState h_encoded g_encoded.
Definition st_masked (m : list bool) : state := mkState (h_masked m) g_masked.
Definition st_binarized (m : list bool) : state := mkState (h_binarized m) g_masked.
Definition st_final (m : list bool) (n : Series) : state :=
  mkState (h_final m n) g_masked.

End states.

End Run.

(** ** Properties of statements and of tables *)

Module Props.

Import Pandas Script Table.

(** The object at [l], when there is one before, is the same after. *)
Definition unchanged (st st' : state) (l : loc) : Prop :=
  forall o, heap st !! l = Some o -> heap st' !! l = Some o.

(** A computation that only creates objects. *)
Definition allocates {A} (m : M A) : Prop :=
  forall st a st', m st = Ok (a, st') -> exists t, heap st' = heap st ++ t.

(** The location of the cells of column [c] of [df]. *)
Definition column_loc (c : string) (st : state) : option loc :=
  f ← Var.df (vars st);
  match heap st !! f with
  | Some (OFrame cols) => find_col (LName c) cols
  | _ => None
  end.

(** The one object statement number [k] of the pipeline writes to, if it
    writes to any. *)
Definition written (k : nat) (st : state) : option loc :=
  match k with
  | 1 => Var.df (vars st)
  | 2 => column_loc "ca" st
  | 3 => column_loc "thal" st
  | 8 => Var.y (vars st)
  | 9 => Var.X_encoded (vars st)
  | _ => None
  end%nat.

(** The statements of the two documented corrections: the two fills and
    the binarization. *)
Definition documented (k : nat) : bool :=
  match k with
  | 2 | 3 | 8 => true
  | _ => false
  end%nat.

(** The operations of the script on one cell: keeping it, the fill, the
    indicator of a level, the numeric reading and the conversion to float
    of [pd.to_numeric], the binarization, and their compositions. *)
Inductive cell_map `{NumericReader} : (value -> value) -> Prop :=
| cm_keep : cell_map id
| cm_fill : cell_map (fun v => if decide (v = VStr "?") then VInt 0 else v)
| cm_indicator lv : cell_map (fun v => VInt (if py_eqb v lv then 1 else 0))
| cm_number : cell_map (fun v => default v (to_number v))
| cm_float : cell_map to_float
| cm_one d : cell_map (fun v => if default false (py_gtb v 0) then cast d 1 else v)
| cm_compose f g : cell_map f -> cell_map g -> cell_map (f ∘ g).

(** A series computed row by row from a column of the table [src]: cell
    [i] of the series is an operation of the script applied to cell [i] of
    that column. *)
Definition rowwise `{NumericReader} (src : frame) (s : Series) : Prop :=
  exists c g, c ∈ src /\ cell_map g /\ cells s = g <$> cells c.2.

Definition csv_rows (c : csv_column) : nat :=
  match c with
  | IntColumn l => length l
  | FloatColumn l => length l
  | TextColumn l => length l
  end.

(** The columns the formatter neither expands nor coerces. *)
Definition untouched_columns : list string :=
  ["age"; "sex"; "restbp"; "chol"; "fbs"; "thalach"; "exang"; "oldpeak"]%string.

(** "Every column of the feature matrix is numeric or boolean." *)
Definition all_numeric (t : frame) : Prop :=
  Forall (fun p => numeric_or_bool (dtype_of p.2) = true) t.

(** What one expanded column contributes to [e], when its cells in [X]
    are [l]. *)
Definition expanded (c : string) (l : list value) (e : frame) : Prop :=
  group c e =
    (fun lv => (LName (c +:+ "_" +:+ str lv), mkSeries UInt8 (indicator lv l)))
      <$> levels l /\
  (forall lv, lv ∈ levels l -> lv ∈ l /\ isna lv = false) /\
  (forall v, v ∈ l -> isna v = false ->
     length (filter (fun lv => py_eqb v lv = true) (levels l)) = 1%nat) /\
  (forall i v, l !! i = Some v -> isna v = false -> row_sum c i e = 1).

(** What [y[y > 0] = 1] makes of an integer. *)
Definition to_one (n : Z) : Z := if 0 <? n then 1 else n.

(** A series with [n] cells, computed row by row from a column of [src]:
    no row was dropped, added or moved. *)
Definition keeps_rows `{NumericReader} (src : frame) (n : nat) (s : Series) : Prop :=
  length (cells s) = n /\ rowwise src s.

(** What the resolver may change: a cell of ['ca'] or ['thal'] that holds
    the marker becomes 0; nothing else. *)
Definition sentinels_to_zero (t : frame) : frame :=
  (fun p =>
     (p.1,
      mkSeries (dtype_of p.2)
        ((fun v => if decide (p.1 ∈ [LName "ca"; LName "thal"] /\ v = VStr "?")
                   then VInt 0 else v) <$> cells p.2))) <$> t.

(** An [int64] series. *)
Definition int_series (ns : list Z) : Series := mkSeries Int64 (VInt <$> ns).

End Props.

(** ** A small data file *)

Module Example.

Definition floats (l : list Z) : csv_column := FloatColumn ((fun n => Dec n 0) <$> l).

(** Three rows in the format of [processed.cleveland.data]; the second has
    no ['ca'], the third no ['thal']. *)
Definition file : list csv_column :=
  [floats [63; 67; 41]; floats [1; 1; 0]; floats [1; 4; 2];
   floats [145; 160; 130]; floats [233; 286; 204]; floats [1; 0; 0];
   floats [2; 2; 0]; floats [150; 108; 172]; floats [0; 1; 0];
   FloatColumn [Dec 23 1; Dec 15 1; Dec 14 1]; floats [3; 2; 1];
   TextColumn [Some "0.0"; Some "?"; Some "3.0"]%string;
   TextColumn [Some "6.0"; Some "3.0"; Some "?"]%string;
   IntColumn [0; 2; 1]].

(** The same rows with an unknown age in the second. *)
Definition file_unknown_age : list csv_column :=
  TextColumn [Some "63.0"; Some "?"; Some "41.0"]%string :: tail file.

End Example.

(** ** The grid search (the block the script keeps commented out) *)

Module Search.

(** A Python dict with string keys, in insertion order. *)
Definition dict (A : Type) : Type := list (string * A).

Fixpoint range_step (start step : Z) (n : nat) : list value :=
  match n with
  | O => []
  | S n' => VInt start :: range_step (start + step) step n'
  end.

(** [range(start, stop, step)] for a positive step. *)
Definition range (start stop step : Z) : list value :=
  range_step start step (Z.to_nat ((stop - start + step - 1) / step)).

(** [param_grid], as the script writes it. *)
Definition param_grid : dict (list value) :=
  [("max_depth", [VInt 3; VInt 4; VInt 5; VInt 6; VInt 7; VInt 8]);
   ("n_estimators", range 50 250 50);
   ("learning_rate", [VFloat (Dec 1 1); VFloat (Dec 1 2); VFloat (Dec 5 2)]);
   ("gamma", [VInt 0; VFloat (Dec 25 2); VFloat (Dec 5 1); VFloat (Dec 10 1)]);
   ("reg_lambda", [VInt 0; VFloat (Dec 10 1); VFloat (Dec 100 1); VFloat (Dec 1000 1)])]%string.

(** The [cv] argument of [GridSearchCV]. *)
Definition cv : nat := 5.

Definition key_le (p q : string * list value) : Prop := String.leb p.1 q.1 = true.

#[export] Instance key_le_dec p q : Decision (key_le p q).
Proof. unfold key_le. apply _. Defined.

(** [itertools.product]: the last list varies fastest. *)
Fixpoint product (items : dict (list value)) : list (dict value) :=
  match items with
  | [] => [[]]
  | (k, vs) :: items' =>
      v ← vs; (fun c => (k, v) :: c) <$> product items'
  end.

(** [ParameterGrid(param_grid)]: the keys sorted, then the product. *)
Definition candidates (grid : dict (list value)) : list (dict value) :=
  product (merge_sort key_le grid).

(** [rankdata(-means, method="min")]: one more than the number of strictly
    better scores. *)
Definition rank (means : list Q) (x : Q) : nat :=
  S (length (filter (fun y => Qle_bool y x = false) means)).

(** [argmin]: the first position of the least element, scanning from
    position [i] with the least so far [b] at position [bi]. *)
Fixpoint argmin_from (i bi b : nat) (l : list nat) : nat :=
  match l with
  | [] => bi
  | x :: l' =>
      if (x <? b)%nat then argmin_from (S i) i x l'
      else argmin_from (S i) bi b l'
  end.

Definition argmin (l : list nat) : nat :=
  match l with
  | [] => O
  | x :: l' => argmin_from 1 0 x l'
  end.

Section cross_validation.

(** The score of a candidate on one of the [cv] folds: what fitting and
    scoring with the external libraries returns. *)
Variable fold_score : dict value -> nat -> Q.

(** [mean_test_score]: the average over the folds. *)
Definition mean_test_score (c : dict value) : Q :=
  (foldr Qplus 0 (fold_score c <$> seq 0 cv) / inject_Z (Z.of_nat cv))%Q.

(** [best_index_]. *)
Definition best_index (grid : dict (list value)) : nat :=
  let means := mean_test_score <$> candidates grid in
  argmin (rank means <$> means).

(** [best_params_]. *)
Definition best_params (grid : dict (list value)) : option (dict value) :=
  candidates grid !! best_index grid.

End cross_validation.

End Search.

(** ** The classifier constructions *)

Module Model.

(** The keyword parameters [XGBClassifier.__init__] declares; any other
    keyword is collected by its [**kwargs]. *)
Definition signature : list string :=
  ["max_depth"; "learning_rate"; "n_estimators"; "verbosity"; "objective";
   "booster"; "tree_method"; "n_jobs"; "gamma"; "min_child_weight";
   "max_delta_step"; "subsample"; "colsample_bytree"; "colsample_bylevel";
   "colsample_bynode"; "reg_alpha"; "reg_lambda"; "scale_pos_weight";
   "base_score"; "random_state"; "missing"; "num_parallel_tree";
   "monotone_constraints"; "interaction_constraints"; "importance_type";
   "gpu_id"; "validate_parameters"]%string.

Record XGBClassifier := mkClassifier {
  params : list (string * value);   (* declared parameters that were passed *)
  kwargs : list (string * value)    (* the other keywords *)
}.

Fixpoint lookup_kw (k : string) (l : list (string * value)) : option value :=
  match l with
  | [] => None
  | (k', v) :: l' => if String.eqb k' k then Some v else lookup_kw k l'
  end.

(** [xgb.XGBClassifier] called with the given keywords. *)
Definition construct (keywords : list (string * value)) : XGBClassifier :=
  mkClassifier
    (filter (fun p => p.1 ∈ signature) keywords)
    (filter (fun p => p.1 ∉ signature) keywords).

(** The learning rate training runs with: the [learning_rate] parameter
    when it was passed, the library's default otherwise. *)
Definition learning_rate (default : value) (m : XGBClassifier) : value :=
  match lookup_kw "learning_rate" (params m) with
  | Some v => v
  | None => default
  end.

(** The first construction: [xgb.XGBClassifier(objective='binary:logistic', seed=42)]. *)
Definition preliminary : list (string * value) :=
  [("objective", VStr "binary:logistic"); ("seed", VInt 42)]%string.

(** The second construction, "the optimized model". *)
Definition optimized : list (string * value) :=
  [("seed", VInt 42);
   ("objective", VStr "binary:logistic");
   ("gamma", VInt 1);
   ("learn_rate", VFloat (Dec 1 1));
   ("max_depth", VInt 3);
   ("n_estimators", VInt 200);
   ("reg_lambda", VInt 10)]%string.

(** The third construction, the same with one tree. *)
Definition single_tree : list (string * value) :=
  [("seed", VInt 42);
   ("objective", VStr "binary:logistic");
   ("gamma", VInt 1);
   ("learn_rate", VFloat (Dec 1 1));
   ("max_depth", VInt 3);
   ("n_estimators", VInt 1);
   ("reg_lambda", VInt 10)]%string.

End Model.

(** ** The expressions the script only displays

    Between its statements the script evaluates expressions whose value
    the notebook shows and nothing keeps: [df.head()], [df.dtypes],
    [df['ca'].unique()], [len(df.loc[...])] and the like. *)

Module Inspect.

Import Pandas Script.

(** Two cells [unique] takes for one value: equal by [==], or both [nan]. *)
Definition same_value (a b : value) : bool :=
  py_eqb a b || (isna a && isna b).

(** The distinct values of a column, in order of first appearance. *)
Fixpoint unique_values (l : list value) : list value :=
  match l with
  | [] => []
  | v :: l' => v :: filter (fun w => same_value v w = false) (unique_values l')
  end.

(** [a | b] on two boolean columns, row by row; a row one operand lacks
    counts as [False] there. *)
Fixpoint or_masks (m n : list bool) : list bool :=
  match m, n with
  | [], _ => n
  | _, [] => m
  | a :: m', b :: n' => (a || b) :: or_masks m' n'
  end.

(** The cells in the rows a mask selects, in row order. *)
Fixpoint rows_where {A} (mask : list bool) (l : list A) : list A :=
  match mask, l with
  | b :: mask', c :: l' => if b then c :: rows_where mask' l' else rows_where mask' l'
  | _, _ => []
  end.

(** The first five rows. *)
Definition first_rows (s : Series) : Series :=
  mkSeries (dtype_of s) (take 5 (cells s)).

(** [s.unique()]: an array of the distinct values. *)
Definition unique (s : loc) : M (list value) :=
  x ← get_series s;
  mret (unique_values (cells x)).

(** [f.dtypes]: the dtype of every column, under its label. *)
Definition dtypes (f : loc) : M (list (label * dtype)) :=
  cols ← read_frame f;
  mret (prod_map id dtype_of <$> cols).

(** [s.dtypes] *)
Definition series_dtype (s : loc) : M dtype :=
  x ← get_series s;
  mret (dtype_of x).

(** [f.head()]: a new frame with the first five rows. *)
Definition head_frame (f : loc) : M loc :=
  cols ← read_frame f;
  new_frame (prod_map id first_rows <$> cols).

(** [s.head()]: a new series with the first five rows. *)
Definition head_series (s : loc) : M loc :=
  x ← get_series s;
  alloc (OSeries (first_rows x)).

(** [a | b]: a new boolean series. *)
Definition series_or (a b : loc) : M loc :=
  m ← get_mask a;
  n ← get_mask b;
  alloc (OMask (or_masks m n)).

(** [f.loc[mask]]: a new frame with the rows the mask selects; an
    [IndexingError] when the mask has not one entry per row. *)
Definition loc_rows (f mask : loc) : M loc :=
  m ← get_mask mask;
  cols ← read_frame f;
  if decide (Forall (fun p : label * Series => length (cells p.2) = length m) cols)
  then new_frame
         (prod_map id (fun s => mkSeries (dtype_of s) (rows_where m (cells s))) <$> cols)
  else raise IndexingError.

(** [len(f)]: the number of rows. *)
Definition len (f : loc) : M nat :=
  cols ← read_frame f;
  mret (match cols with
        | [] => O
        | p :: _ => length (cells p.2)
        end).

(** *** The expressions, as the script writes them *)

(** [df.head()], [X.head()], [X_encoded.head()] *)
Definition head_of (x : Var.globals -> option loc) : M loc :=
  f ← get_var x;
  head_frame f.

(** [y.head()] *)
Definition y_head : M loc :=
  s ← get_var Var.y;
  head_series s.

(** [df.dtypes], [X.dtypes], [X_encoded.dtypes] *)
Definition dtypes_of (x : Var.globals -> option loc) : M (list (label * dtype)) :=
  f ← get_var x;
  dtypes f.

(** [y.dtypes] *)
Definition y_dtypes : M dtype :=
  s ← get_var Var.y;
  series_dtype s.

(** [df['ca'].unique()], [df['thal'].unique()], [X['cp'].unique()] *)
Definition unique_of (x : Var.globals -> option loc) (c : string) : M (list value) :=
  f ← get_var x;
  s ← getitem f (LName c);
  unique s.

(** [y.unique()] *)
Definition y_unique : M (list value) :=
  s ← get_var Var.y;
  unique s.

(** [df.loc[(df['ca'] == '?') | (df['thal'] == '?')]] *)
Definition missing_rows : M loc :=
  f ← get_var Var.df;
  f1 ← get_var Var.df;
  a ← getitem f1 (LName "ca");
  ma ← series_eq a (VStr "?");
  f2 ← get_var Var.df;
  b ← getitem f2 (LName "thal");
  mb ← series_eq b (VStr "?");
  m ← series_or ma mb;
  loc_rows f m.

(** [len(df.loc[(df['ca'] == '?') | (df['thal'] == '?')])] *)
Definition count_missing : M nat :=
  r ← missing_rows;
  len r.

(** [len(df)] *)
Definition len_df : M nat :=
  f ← get_var Var.df;
  len f.

(** [pd.get_dummies(X, columns=['cp']).head()] *)
Definition cp_dummies_head : M loc :=
  x ← get_var Var.X;
  e ← get_dummies x ["cp"%string];
  head_frame e.

(** An expression statement: the value is shown and dropped. *)
Definition shown {A} (m : M A) : M unit :=
  _ ← m;
  mret tt.

(** The expression statements of the data preparation, in source order. *)
Definition expressions : list (M unit) :=
  [shown (head_of Var.df); shown (head_of Var.df); shown (dtypes_of Var.df);
   shown (unique_of Var.df "ca"); shown (unique_of Var.df "thal");
   shown count_missing; shown missing_rows; shown len_df;
   shown (unique_of Var.df "ca"); shown (unique_of Var.df "thal");
   shown (head_of Var.X); shown y_head; shown (dtypes_of Var.X);
   shown (unique_of Var.X "cp"); shown cp_dummies_head;
   shown (head_of Var.X_encoded); shown y_unique; shown y_unique;
   shown (dtypes_of Var.X_encoded); shown (dtypes_of Var.X_encoded);
   shown y_dtypes].

(** An expression that changes nothing: no variable is bound or rebound,
    and every object that exists before is the same after. *)
Definition read_only {A} (m : M A) : Prop :=
  forall st a st',
    m st = Ok (a, st') ->
    vars st' = vars st /\ exists t, heap st' = heap st ++ t.

End Inspect.

(** ** What the further properties are stated with *)

Module Facts.

Import Pandas Script Inspect.

(** How a run ends: normally, or with an exception. *)
Definition ending (r : result state) : result unit :=
  match r with
  | Ok _ => Ok tt
  | Raise e => Raise e
  end.

(** The cells of column number [k] of the file, as [read_csv] parses them. *)
Definition nth_column (k : nat) (file : list csv_column) : list value :=
  match file !! k with
  | Some c => cells (series_of_csv c)
  | None => []
  end.

Definition is_text (v : value) : Prop :=
  match v with
  | VStr _ => True
  | _ => False
  end.

#[export] Instance is_text_dec v : Decision (is_text v).
Proof. destruct v; simpl; apply _. Defined.

(** A cell the coercion cannot read: a string other than the marker (which
    the resolver has replaced by then) that is no number. *)
Definition unreadable `{NumericReader} (v : value) : Prop :=
  v <> VStr "?" /\ to_number v = None.

#[export] Instance unreadable_dec `{NumericReader} v : Decision (unreadable v).
Proof. unfold unreadable. apply _. Defined.

(** The dtypes [read_csv] gives the columns of a file, under the names of
    the script. *)
Definition read_dtypes (file : list csv_column) : list (label * dtype) :=
  zip (LName <$> column_names) ((fun c => dtype_of (series_of_csv c)) <$> file).

(** [u] holds the distinct values of [l]: each entry is a cell of [l], and
    every cell of [l] has exactly one entry that [unique] takes for the
    same value. *)
Definition distinct_values (l u : list value) : Prop :=
  (forall v, v ∈ u -> v ∈ l) /\
  (forall v, v ∈ l -> length (filter (fun w => same_value v w = true) u) = 1%nat).

(** A row with the marker in the first or in the second of two columns. *)
Definition marked (p : value * value) : Prop :=
  p.1 = VStr "?" \/ p.2 = VStr "?".

(** The locations of the columns of the frame a variable is bound to. *)
Definition column_locs (x : Var.globals -> option loc) (st : state) : list loc :=
  match x (vars st) with
  | Some f =>
      match heap st !! f with
      | Some (OFrame cols) => cols.*2
      | _ => []
      end
  | None => []
  end.

(** The product of the lengths of the value lists of a grid. *)
Definition grid_size (grid : Search.dict (list value)) : nat :=
  foldr (fun p n => (length p.2 * n)%nat) 1%nat grid.

End Facts.

(** ** The split into training and testing sets

    [train_test_split(X_encoded, y, random_state=42)] with the defaults of
    scikit-learn: a quarter of the rows, rounded up, is the test set; the
    rows are drawn in the order of one permutation of the row numbers, the
    test set first. *)

Module Split.

Import Table.

(** The cells at the given positions, in that order; [None] on a position
    out of range. *)
Definition cells_at (idx : list nat) (l : list value) : option (list value) :=
  mapM (fun i => l !! i) idx.

Definition series_at_rows (idx : list nat) (s : Series) : option Series :=
  l ← cells_at idx (cells s);
  Some (mkSeries (dtype_of s) l).

Definition frame_at_rows (idx : list nat) (t : frame) : option frame :=
  mapM (fun p : label * Series => s ← series_at_rows idx p.2; Some (p.1, s)) t.

(** [len(X)]: the number of rows. *)
Definition n_rows (t : frame) : nat :=
  match t with
  | [] => O
  | p :: _ => length (cells p.2)
  end.

(** [ceil(0.25 * n)]: the size of the test set. *)
Definition n_test (n : nat) : nat := ((n + 3) / 4)%nat.

(** [X_train, X_test, y_train, y_test] *)
Record parts := mkParts {
  X_train : frame;
  X_test : frame;
  y_train : Series;
  y_test : Series
}.

(** Row [i] of the features and the target, side by side. *)
Definition row (t : frame) (y : Series) (i : nat) : list (option value) * option value :=
  ((fun p : label * Series => cells p.2 !! i) <$> t, cells y !! i).

Definition rows (t : frame) (y : Series) : list (list (option value) * option value) :=
  row t y <$> seq 0 (length (cells y)).

Section shuffle.

(** [RandomState(42).permutation(n)]: the order the generator of the
    library draws the row numbers in. *)
Variable permutation : nat -> list nat.

(** A [ValueError] when features and target differ in length or the
    training set would be empty; a position out of range cannot come from a
    permutation of the row numbers (the model stops there). *)
Definition train_test_split (x : frame) (y : Series) : result parts :=
  let n := n_rows x in
  if decide (length (cells y) = n) then
    if decide ((n - n_test n)%nat = O) then Raise ValueError
    else
      let test := take (n_test n) (permutation n) in
      let train := take (n - n_test n) (skipn (n_test n) (permutation n)) in
      match frame_at_rows train x, frame_at_rows test x,
            series_at_rows train y, series_at_rows test y with
      | Some a, Some b, Some c, Some d => Ok (mkParts a b c d)
      | _, _, _, _ => Raise IndexingError
      end
  else Raise ValueError.

End shuffle.

End Split.

(** ** Two more small inputs *)

Module Samples.

(** The rows of [Example.file] with a ['thal'] column that holds the text
    ['0'] beside the marker. *)
Definition file_text_zero : list csv_column :=
  take 12 Example.file ++
  [TextColumn [Some "0"; Some "3"; Some "?"]%string; IntColumn [0; 2; 1]].

(** Five rows of features and their targets. *)
Definition features : Table.frame :=
  [(LName "age", mkSeries Int64 [VInt 63; VInt 67; VInt 41; VInt 56; VInt 62]);
   (LName "sex", mkSeries Int64 [VInt 1; VInt 1; VInt 0; VInt 1; VInt 0])].

Definition targets : Series := mkSeries Int64 [VInt 0; VInt 1; VInt 0; VInt 0; VInt 1].

(** One order of drawing the rows: last to first. *)
Definition backwards (n : nat) : list nat := rev (seq 0 n).

End Samples.

(** * Proofs *)

Import Pandas Script Table Props.

(** ** Cells: equality *)

Lemma pow10_pos e : 0 < pow10 e.
Proof. unfold pow10. apply Z.pow_pos_nonneg; lia. Qed.

Lemma dec_eqb_refl p : dec_eqb p p = true.
Proof. unfold dec_eqb. apply Z.eqb_refl. Qed.

Lemma dec_eqb_sym p q : dec_eqb p q = dec_eqb q p.
Proof. unfold dec_eqb. apply Z.eqb_sym. Qed.

Lemma dec_eqb_trans p q r :
  dec_eqb p q = true -> dec_eqb q r = true -> dec_eqb p r = true.
Proof.
  unfold dec_eqb. destruct p as [m1 e1], q as [m2 e2], r as [m3 e3]; simpl.
  rewrite !Z.eqb_eq. intros H1 H2.
  pose proof (pow10_pos e1). pose proof (pow10_pos e2). pose proof (pow10_pos e3).
  apply (Z.mul_reg_r _ _ (pow10 e2)); [lia|].
  transitivity (m1 * pow10 e2 * pow10 e3); [ring|].
  rewrite H1. transitivity (m2 * pow10 e3 * pow10 e1); [ring|].
  rewrite H2. ring.
Qed.

Lemma py_eqb_sym a b : py_eqb a b = py_eqb b a.
Proof.
  destruct a as [n|[|m e]|s], b as [n'|[|m' e']|s']; simpl;
    auto using dec_eqb_sym, String.eqb_sym.
Qed.

Lemma py_eqb_trans a b c :
  py_eqb a b = true -> py_eqb b c = true -> py_eqb a c = true.
Proof.
  destruct a as [n|[|m e]|s], b as [n'|[|m' e']|s'], c as [n''|[|m'' e'']|s''];
    simpl; try discriminate; eauto using dec_eqb_trans.
  rewrite !String.eqb_eq. congruence.
Qed.

Lemma py_eqb_refl a : isna a = false -> py_eqb a a = true.
Proof.
  destruct a as [n|[|m e]|s]; simpl; try discriminate;
    auto using dec_eqb_refl, String.eqb_refl.
Qed.

(** ** Columns: masks and in-place writes *)

Lemma set_where_eq_mask l v w :
  set_where (eq_mask l v) w l = (fun c => if py_eqb c v then w else c) <$> l.
Proof. induction l as [|c l IH]; simpl; [done|]. by rewrite IH. Qed.

Lemma fill_sentinel_cells s :
  cells (fill_sentinel s) =
  (fun c => if py_eqb c (VStr "?") then cast (dtype_of s) 0 else c) <$> cells s.
Proof. unfold fill_sentinel. simpl. apply set_where_eq_mask. Qed.

Lemma is_sentinel c : py_eqb c (VStr "?") = true <-> c = VStr "?".
Proof.
  destruct c as [n|[|m e]|s]; simpl; try (split; [discriminate|congruence]).
  rewrite String.eqb_eq. split; congruence.
Qed.

Lemma fill_csv_cells c :
  cells (fill_sentinel (series_of_csv c)) =
  (fun v => if decide (v = VStr "?") then VInt 0 else v) <$> cells (series_of_csv c).
Proof.
  rewrite fill_sentinel_cells. apply Forall_fmap_ext.
  destruct c as [l|l|l]; simpl; apply Forall_fmap, Forall_true; intros x; simpl.
  - done.
  - by destruct x.
  - destruct (py_eqb (text_cell x) (VStr "?")) eqn:Hq.
    + apply is_sentinel in Hq. by rewrite Hq.
    + rewrite decide_False; [done|]. intros Hx. apply is_sentinel in Hx. congruence.
Qed.

Lemma fill_no_sentinel c :
  Forall (fun v => v <> VStr "?") (cells (fill_sentinel (series_of_csv c))).
Proof.
  rewrite fill_csv_cells. apply Forall_fmap, Forall_true. intros v. simpl.
  destruct (decide (v = VStr "?")); [discriminate|done].
Qed.

(** ** Columns: levels *)

Lemma filter_filter_keep {A} (P Q : A -> Prop) `{!forall x, Decision (P x)}
    `{!forall x, Decision (Q x)} (l : list A) :
  (forall x, P x -> Q x) -> filter P (filter Q l) = filter P l.
Proof.
  intros HPQ. induction l as [|x l IH]; [done|].
  rewrite (filter_cons Q). destruct (decide (Q x)) as [Hq|Hq].
  - rewrite !filter_cons. by rewrite IH.
  - rewrite filter_cons. destruct (decide (P x)) as [Hp|Hp]; [|done].
    by destruct Hq; apply HPQ.
Qed.

Lemma filter_filter_none {A} (P Q : A -> Prop) `{!forall x, Decision (P x)}
    `{!forall x, Decision (Q x)} (l : list A) :
  (forall x, Q x -> ~ P x) -> filter P (filter Q l) = [].
Proof.
  intros HPQ. induction l as [|x l IH]; [done|].
  rewrite (filter_cons Q). destruct (decide (Q x)) as [Hq|Hq]; [|done].
  rewrite filter_cons. rewrite decide_False by auto. done.
Qed.

Lemma uniques_subset l x : x ∈ uniques l -> x ∈ l.
Proof.
  revert x. induction l as [|a l IH]; intros x; simpl; [done|].
  rewrite elem_of_cons. intros [->|Hx]; [left|right].
  apply list_elem_of_filter in Hx as [_ Hx]. by apply IH.
Qed.

(** Every value of the list has exactly one representative among the
    first occurrences. *)
Lemma uniques_count v l :
  Exists (fun w => py_eqb v w = true) l ->
  length (filter (fun w => py_eqb v w = true) (uniques l)) = 1%nat.
Proof.
  induction l as [|a l IH]; intros Hex; [by inversion Hex|]. simpl.
  rewrite filter_cons. destruct (decide (py_eqb v a = true)) as [Hva|Hva].
  - rewrite filter_filter_none; [done|].
    intros w Haw Hvw. rewrite py_eqb_sym in Hva.
    by rewrite (py_eqb_trans a v w Hva Hvw) in Haw.
  - rewrite filter_filter_keep.
    + apply IH. by inversion Hex.
    + intros w Hvw. destruct (py_eqb a w) eqn:Haw; [|done].
      destruct Hva. rewrite py_eqb_sym in Haw. by apply (py_eqb_trans v w a).
Qed.

Lemma levels_perm l : levels l ≡ₚ uniques (observed l).
Proof. apply merge_sort_Permutation. Qed.

Lemma levels_observed l lv : lv ∈ levels l -> lv ∈ l /\ isna lv = false.
Proof.
  rewrite levels_perm. intros Hin. apply uniques_subset in Hin.
  unfold observed in Hin. by apply list_elem_of_filter in Hin as [? ?].
Qed.

(** The levels are the distinct observed values: every observed value
    equals exactly one level. *)
Lemma levels_count l v :
  v ∈ l -> isna v = false ->
  length (filter (fun lv => py_eqb v lv = true) (levels l)) = 1%nat.
Proof.
  intros Hin Hna. rewrite levels_perm. apply uniques_count.
  apply Exists_exists. exists v. split.
  - unfold observed. by apply list_elem_of_filter.
  - by apply py_eqb_refl.
Qed.

(** ** Columns: indicator columns *)

Lemma indicator_lookup lv l i v :
  l !! i = Some v ->
  indicator lv l !! i = Some (VInt (if py_eqb v lv then 1 else 0)).
Proof. intros H. unfold indicator. by rewrite list_lookup_fmap, H. Qed.

Lemma sum_hits {A} (P : A -> bool) (l : list A) :
  foldr Z.add 0 ((fun x => if P x then 1 else 0) <$> l) =
  Z.of_nat (length (filter (fun x => P x = true) l)).
Proof.
  induction l as [|x l IH]; [done|].
  rewrite fmap_cons. cbn [foldr]. rewrite IH, filter_cons.
  destruct (P x).
  - rewrite decide_True by done. cbn [length]. lia.
  - rewrite decide_False by done. lia.
Qed.

(** In a row whose cell is observed, the indicator columns of the expanded
    column sum to one. *)
Lemma dummies_row_sum (c : string) l i v :
  l !! i = Some v -> isna v = false ->
  foldr Z.add 0 ((fun p : string * Series => int_at i p.2) <$> get_dummies_1d c l) = 1.
Proof.
  intros Hi Hna. unfold get_dummies_1d. rewrite <- list_fmap_compose.
  erewrite (list_fmap_ext _ (fun lv => if py_eqb v lv then 1 else 0)).
  - rewrite sum_hits, levels_count; [done| |done].
    by eapply list_elem_of_lookup_2.
  - intros j lv _. simpl. unfold int_at. simpl.
    by rewrite (indicator_lookup _ _ _ _ Hi).
Qed.

(** ** Running statements *)

Lemma exec_app (a b : list (M unit)) st :
  exec (a ++ b) st = match exec a st with Ok st' => exec b st' | Raise e => Raise e end.
Proof.
  revert st. induction a as [|s a IH]; intros st; simpl; [done|].
  destruct (s st) as [[[] st']|e]; [apply IH | done].
Qed.

Lemma exec_cons s ss st st' :
  s st = Ok (tt, st') -> exec (s :: ss) st = exec ss st'.
Proof. intros H. simpl. by rewrite H. Qed.

Lemma eq_mask_length l v : length (eq_mask l v) = length l.
Proof. unfold eq_mask. by rewrite length_fmap. Qed.

Tactic Notation "unfold_ops" :=
  cbv beta iota zeta delta
    [s_read s_columns s_fill s_X s_y s_encode s_mask s_binarize s_coerce
     read_csv set_columns getitem series_eq series_gt series_setitem
     loc_setitem drop copy_series copy_frame get_dummies to_numeric setitem
     new_frame alloc_many get_frame get_series get_mask get_var set_var
     read alloc write raise mbind M_bind mret M_ret].

Tactic Notation "unfold_ops" "in" hyp(H) :=
  cbv beta iota zeta delta
    [s_read s_columns s_fill s_X s_y s_encode s_mask s_binarize s_coerce
     read_csv set_columns getitem series_eq series_gt series_setitem
     loc_setitem drop copy_series copy_frame get_dummies to_numeric setitem
     new_frame alloc_many get_frame get_series get_mask get_var set_var
     read alloc write raise mbind M_bind mret M_ret] in H.

Lemma s_fill_run c st f cols l x :
  Var.df (vars st) = Some f ->
  heap st !! f = Some (OFrame cols) ->
  find_col (LName c) cols = Some l ->
  heap st !! l = Some (OSeries x) ->
  s_fill c st =
    Ok (tt, mkState (<[l := OSeries (fill_sentinel x)]>
                       (heap st ++ [OMask (eq_mask (cells x) (VStr "?"))]))
                    (vars st)).
Proof.
  intros Hv Hf Hc Hl.
  assert (Hf' : (f < length (heap st))%nat) by (eapply lookup_lt_Some; eauto).
  assert (Hl' : (l < length (heap st))%nat) by (eapply lookup_lt_Some; eauto).
  unfold_ops. simpl.
  repeat (first [ rewrite Hv | rewrite Hf | rewrite Hc | rewrite Hl
                | rewrite (lookup_app_l _ _ f) by done
                | rewrite (lookup_app_l _ _ l) by done
                | rewrite list_lookup_middle by done
                | rewrite decide_True by apply eq_mask_length ]; simpl).
  reflexivity.
Qed.

Lemma read_series_all (h : list obj) (cols : list (label * loc)) xs st :
  heap st = h ->
  mapM (fun p : label * loc => s ← series_at h p.2; Some (p.1, s)) cols = Some xs ->
  mapM (fun p : label * loc => s ← get_series p.2; mret (p.1, s)) cols st = Ok (xs, st).
Proof.
  intros Hh H. apply mapM_Some in H.
  induction H as [|[c l] y cols xs Hy _ IH]; [done|].
  simpl in Hy. unfold series_at in Hy.
  destruct (h !! l) as [[x| |]|] eqn:Hl; simpl in Hy; try done.
  inversion Hy; subst y. simpl.
  unfold_ops. simpl. rewrite Hh, Hl. simpl.
  unfold_ops in IH. rewrite IH. reflexivity.
Qed.

Lemma read_frame_run st f cols :
  frame_at (heap st) f = Some cols -> read_frame f st = Ok (cols, st).
Proof.
  unfold frame_at, read_frame. intros H.
  destruct (heap st !! f) as [[| |locs]|] eqn:Hf; try done.
  unfold get_frame, read, mbind at 1, M_bind. unfold mbind at 1, M_bind. rewrite Hf. simpl.
  by apply (read_series_all (heap st)).
Qed.

Lemma new_frame_run st cols :
  new_frame cols st =
    Ok ((length (heap st) + length cols)%nat,
        mkState (heap st ++ (OSeries <$> cols.*2) ++
                   [OFrame (zip cols.*1 (seq (length (heap st)) (length cols)))])
                (vars st)).
Proof.
  unfold_ops. simpl. rewrite !length_app, !length_fmap, <- app_assoc. reflexivity.
Qed.

Lemma resolve_block (h : list obj) (a : nat) (cols : list (label * Series)) :
  (forall i x, cols.*2 !! i = Some x -> h !! (a + i)%nat = Some (OSeries x)) ->
  Forall2 (fun (p : label * loc) y => (s ← series_at h p.2; Some (p.1, s)) = Some y)
          (zip cols.*1 (seq a (length cols))) cols.
Proof.
  revert a. induction cols as [|[c x] cols IH]; intros a H; simpl; constructor.
  - simpl. unfold series_at. specialize (H O x eq_refl).
    rewrite Nat.add_0_r in H. by rewrite H.
  - apply IH. intros i y Hy. specialize (H (S i) y Hy).
    by rewrite Nat.add_succ_r in H.
Qed.

Lemma gt_mask_length l n m : gt_mask l n = Some m -> length m = length l.
Proof. unfold gt_mask. intros H. symmetry. by eapply length_mapM. Qed.

Lemma s_mask_run st s x :
  Var.y (vars st) = Some s ->
  heap st !! s = Some (OSeries x) ->
  s_mask st =
    match gt_mask (cells x) 0 with
    | Some m => Ok (tt, mkState (heap st ++ [OMask m])
                          (Var.set_y_not_zero_index (length (heap st)) (vars st)))
    | None => Raise TypeError
    end.
Proof.
  intros Hv Hs. unfold_ops. simpl. rewrite Hv; simpl. rewrite Hs; simpl.
  by destruct (gt_mask (cells x) 0).
Qed.

Lemma s_binarize_run st s x k m :
  Var.y (vars st) = Some s ->
  Var.y_not_zero_index (vars st) = Some k ->
  heap st !! s = Some (OSeries x) ->
  heap st !! k = Some (OMask m) ->
  length m = length (cells x) ->
  s_binarize st =
    Ok (tt, mkState (<[s := OSeries (mkSeries (dtype_of x)
                                       (set_where m (cast (dtype_of x) 1) (cells x)))]>
                       (heap st))
                    (vars st)).
Proof.
  intros Hv Hk Hs Hm Hlen. unfold_ops. simpl.
  rewrite Hv; simpl. rewrite Hk; simpl. rewrite Hm; simpl. rewrite Hs; simpl.
  by rewrite decide_True.
Qed.

Lemma s_encode_run st f cols cols' :
  Var.X (vars st) = Some f ->
  frame_at (heap st) f = Some cols ->
  encode cols encoded_columns = Some cols' ->
  s_encode st =
    Ok (tt, mkState (heap st ++ (OSeries <$> cols'.*2) ++
                       [OFrame (zip cols'.*1 (seq (length (heap st)) (length cols')))])
                    (Var.set_X_encoded (length (heap st) + length cols') (vars st))).
Proof.
  intros Hv Hf He. unfold s_encode, get_dummies.
  unfold mbind at 1, M_bind. unfold get_var. rewrite Hv.
  unfold mbind at 1, M_bind. unfold mbind at 1, M_bind.
  rewrite (read_frame_run _ _ _ Hf). rewrite He. rewrite new_frame_run.
  reflexivity.
Qed.

Lemma s_coerce_run `{NumericReader} st f cols l x :
  Var.X_encoded (vars st) = Some f ->
  heap st !! f = Some (OFrame cols) ->
  find_col (LName "ca") cols = Some l ->
  heap st !! l = Some (OSeries x) ->
  s_coerce st =
    match Column.to_numeric x with
    | Some x' =>
        Ok (tt, mkState (<[f := OFrame (replace_col (LName "ca") (S (length (heap st))) cols)]>
                           (heap st ++ [OSeries x'; OSeries x']))
                        (vars st))
    | None => Raise ValueError
    end.
Proof.
  intros Hv Hf Hc Hl.
  assert (Hf' : (f < length (heap st))%nat) by (eapply lookup_lt_Some; eauto).
  unfold_ops. simpl. rewrite Hv; simpl. rewrite Hf; simpl. rewrite Hc; simpl.
  rewrite Hl; simpl.
  destruct (Column.to_numeric x) as [x'|]; [|done]. simpl. rewrite Hv; simpl.
  rewrite (lookup_app_l _ _ f) by done. rewrite Hf; simpl.
  rewrite list_lookup_middle by done. simpl.
  rewrite length_app. simpl. rewrite Nat.add_1_r.
  by rewrite <- app_assoc.
Qed.


(** ** Which objects a statement changes *)

Lemma unchanged_app st st' t l :
  heap st' = heap st ++ t -> unchanged st st' l.
Proof.
  intros Hh o Ho. rewrite Hh. rewrite lookup_app_l; [done|].
  by eapply lookup_lt_Some.
Qed.

Lemma unchanged_insert_app st st' w o' t l :
  heap st' = <[w := o']> (heap st ++ t) -> w <> l -> unchanged st st' l.
Proof.
  intros Hh Hne o Ho. rewrite Hh, list_lookup_insert_ne by done.
  rewrite lookup_app_l; [done|]. by eapply lookup_lt_Some.
Qed.

Lemma allocates_unchanged {A} (m : M A) st a st' l :
  allocates m -> m st = Ok (a, st') -> unchanged st st' l.
Proof. intros Hm Hrun. destruct (Hm _ _ _ Hrun) as [t Ht]. by eapply unchanged_app. Qed.

Lemma allocates_ret {A} (a : A) : allocates (mret a).
Proof. intros st b st' [= _ <-]. exists []. by rewrite app_nil_r. Qed.

Lemma allocates_raise {A} e : allocates (@raise A e).
Proof. by intros st b st'. Qed.

Lemma allocates_bind {A B} (m : M A) (k : A -> M B) :
  allocates m -> (forall a, allocates (k a)) -> allocates (m ≫= k).
Proof.
  intros Hm Hk st b st'. unfold mbind, M_bind.
  destruct (m st) as [[a st1]|e] eqn:Hrun; [|done]. intros Hrun'.
  destruct (Hm _ _ _ Hrun) as [t1 H1]. destruct (Hk _ _ _ _ Hrun') as [t2 H2].
  exists (t1 ++ t2). by rewrite H2, H1, app_assoc.
Qed.

Lemma allocates_read l : allocates (read l).
Proof.
  intros st o st'. unfold read. destruct (heap st !! l); [|done].
  intros [= _ <-]. exists []. by rewrite app_nil_r.
Qed.

Lemma allocates_alloc o : allocates (alloc o).
Proof. intros st l st' [= _ <-]. by eexists. Qed.

Lemma allocates_alloc_many os : allocates (alloc_many os).
Proof. intros st l st' [= _ <-]. by eexists. Qed.

Lemma allocates_get_var x : allocates (get_var x).
Proof.
  intros st l st'. unfold get_var. destruct (x (vars st)); [|done].
  intros [= _ <-]. exists []. by rewrite app_nil_r.
Qed.

Lemma allocates_set_var u l : allocates (set_var u l).
Proof. intros st [] st' [= <-]. exists []. by rewrite app_nil_r. Qed.

Lemma allocates_mapM {A B} (f : A -> M B) (l : list A) :
  (forall x, allocates (f x)) -> allocates (mapM f l).
Proof.
  intros Hf. induction l as [|x l IH]; simpl.
  - apply allocates_ret.
  - apply allocates_bind; [apply Hf|]. intros b.
    apply allocates_bind; [apply IH|]. intros k. apply allocates_ret.
Qed.

Ltac allocates_tac :=
  repeat first
    [ apply allocates_ret | apply allocates_raise | apply allocates_read
    | apply allocates_alloc | apply allocates_alloc_many
    | apply allocates_get_var | apply allocates_set_var
    | apply allocates_mapM; intros ?
    | apply allocates_bind; [|intros ?]
    | match goal with |- allocates (match ?x with _ => _ end) => destruct x end ].

Lemma allocates_s_read file : allocates (s_read file).
Proof. unfold s_read, read_csv, new_frame. allocates_tac. Qed.

Lemma allocates_s_X : allocates s_X.
Proof.
  unfold s_X, drop, copy_frame, new_frame, read_frame, get_frame, get_series.
  allocates_tac.
Qed.

Lemma allocates_s_y : allocates s_y.
Proof. unfold s_y, getitem, copy_series, get_frame, get_series. allocates_tac. Qed.

Lemma allocates_s_encode : allocates s_encode.
Proof.
  unfold s_encode, get_dummies, new_frame, read_frame, get_frame, get_series.
  allocates_tac.
Qed.

Lemma allocates_s_mask : allocates s_mask.
Proof. unfold s_mask, series_gt, get_series. allocates_tac. Qed.

Lemma s_columns_writes st st' l :
  s_columns st = Ok (tt, st') -> Var.df (vars st) <> Some l -> unchanged st st' l.
Proof.
  intros Hrun Hne. unfold_ops in Hrun. revert Hrun.
  destruct (Var.df (vars st)) as [f|] eqn:Hv; simpl; [|done].
  destruct (heap st !! f) as [[| |cols]|] eqn:Hf; simpl; try done.
  destruct (decide _); [|done]. intros [= <-].
  intros o Ho. simpl. rewrite list_lookup_insert_ne; [done|]. congruence.
Qed.

Lemma s_binarize_writes st st' l :
  s_binarize st = Ok (tt, st') -> Var.y (vars st) <> Some l -> unchanged st st' l.
Proof.
  intros Hrun Hne. unfold_ops in Hrun. revert Hrun.
  destruct (Var.y (vars st)) as [s|] eqn:Hv; simpl; [|done].
  destruct (Var.y_not_zero_index (vars st)) as [k|] eqn:Hk; simpl; [|done].
  destruct (heap st !! k) as [[|m|]|] eqn:Hm; simpl; try done.
  destruct (heap st !! s) as [[x| |]|] eqn:Hs; simpl; try done.
  destruct (decide _); [|done]. intros [= <-].
  intros o Ho. simpl. rewrite list_lookup_insert_ne; [done|]. congruence.
Qed.

Lemma s_fill_writes c st st' l :
  s_fill c st = Ok (tt, st') -> column_loc c st <> Some l -> unchanged st st' l.
Proof.
  intros Hrun Hne. unfold_ops in Hrun. unfold column_loc in Hne.
  revert Hrun Hne.
  destruct (Var.df (vars st)) as [f|] eqn:Hv; simpl; [|done].
  rewrite Hv; simpl.
  destruct (heap st !! f) as [[| |cols]|] eqn:Hf; simpl; try done.
  destruct (find_col (LName c) cols) as [s|] eqn:Hc; simpl; [|done].
  destruct (heap st !! s) as [[x| |]|] eqn:Hs; simpl; try done.
  assert (Hf' : (f < length (heap st))%nat) by (by eapply lookup_lt_Some).
  assert (Hs' : (s < length (heap st))%nat) by (by eapply lookup_lt_Some).
  rewrite (lookup_app_l _ _ f) by done. rewrite Hf. simpl. rewrite Hc. simpl.
  rewrite list_lookup_middle by done. simpl.
  rewrite (lookup_app_l _ _ s) by done. rewrite Hs. simpl.
  destruct (decide _); [|done]. intros [= <-] Hne.
  eapply unchanged_insert_app; [reflexivity|]. congruence.
Qed.

Lemma s_coerce_writes `{NumericReader} st st' l :
  s_coerce st = Ok (tt, st') -> Var.X_encoded (vars st) <> Some l -> unchanged st st' l.
Proof.
  intros Hrun Hne. unfold_ops in Hrun. revert Hrun.
  destruct (Var.X_encoded (vars st)) as [f|] eqn:Hv; simpl; [|done].
  destruct (heap st !! f) as [[| |cols]|] eqn:Hf; simpl; try done.
  destruct (find_col (LName "ca") cols) as [s|] eqn:Hc; simpl; [|done].
  destruct (heap st !! s) as [[x| |]|] eqn:Hs; simpl; try done.
  destruct (Column.to_numeric x) as [x'|]; simpl; [|done].
  rewrite Hv. simpl.
  assert (Hf' : (f < length (heap st))%nat) by (by eapply lookup_lt_Some).
  rewrite (lookup_app_l _ _ f) by done. rewrite Hf. simpl.
  rewrite list_lookup_middle by done. simpl.
  intros [= <-].
  eapply unchanged_insert_app; [simpl; by rewrite <- app_assoc|]. congruence.
Qed.

Lemma frame_at_block (h : list obj) (f a : nat) (cols : frame) :
  h !! f = Some (OFrame (zip cols.*1 (seq a (length cols)))) ->
  (forall i x, cols.*2 !! i = Some x -> h !! (a + i)%nat = Some (OSeries x)) ->
  frame_at h f = Some cols.
Proof.
  intros Hf Hs. unfold frame_at. rewrite Hf. by apply mapM_Some, resolve_block.
Qed.

(** ** The run on a file of fourteen columns *)

Section run.

Context `{NumericReader}.
Variables c0 c1 c2 c3 c4 c5 c6 c7 c8 c9 c10 c11 c12 c13 : csv_column.

Let file := [c0; c1; c2; c3; c4; c5; c6; c7; c8; c9; c10; c11; c12; c13].

Lemma run_loader : exec (data_loader file) initial = Ok (Run.st_loaded file).
Proof. reflexivity. Qed.

Lemma run_resolver :
  exec missing_value_resolver (Run.st_loaded file) = Ok (Run.st_filled file).
Proof.
  unfold missing_value_resolver.
  erewrite exec_cons; [|eapply s_fill_run; reflexivity].
  erewrite exec_cons; [|eapply s_fill_run; reflexivity].
  reflexivity.
Qed.

Lemma run_split : exec [s_X; s_y] (Run.st_filled file) = Ok (Run.st_split file).
Proof. reflexivity. Qed.

Lemma encoded_X1 : encoded (Run.X1 file) = Some (Run.E file).
Proof. reflexivity. Qed.

Lemma run_encode : s_encode (Run.st_split file) = Ok (tt, Run.st_encoded file).
Proof.
  unfold Run.st_split.
  erewrite s_encode_run; [reflexivity| reflexivity | | exact encoded_X1].
  reflexivity.
Qed.

Lemma h_encoded_length :
  length (Run.h_encoded file) = (34 + length (Run.E file))%nat.
Proof.
  unfold Run.h_encoded. rewrite !length_app, length_fmap, length_fmap.
  change (length (Run.h_split file)) with 33%nat. simpl. lia.
Qed.

Lemma run_mask :
  s_mask (Run.st_encoded file) =
    match gt_mask (cells (Run.y0 file)) 0 with
    | Some m => Ok (tt, Run.st_masked file m)
    | None => Raise TypeError
    end.
Proof.
  unfold Run.st_encoded.
  erewrite s_mask_run; [|reflexivity|reflexivity].
  destruct (gt_mask (cells (Run.y0 file)) 0); [|done].
  cbn [heap]. rewrite h_encoded_length. reflexivity.
Qed.

Lemma run_binarize m :
  gt_mask (cells (Run.y0 file)) 0 = Some m ->
  s_binarize (Run.st_masked file m) = Ok (tt, Run.st_binarized file m).
Proof.
  intros Hm.
  assert (Hk : Run.h_masked file m !! (34 + length (Run.E file))%nat = Some (OMask m)).
  { unfold Run.h_masked. apply list_lookup_middle. by rewrite h_encoded_length. }
  unfold Run.st_masked.
  rewrite (s_binarize_run _ 32%nat (Run.y0 file) (34 + length (Run.E file))%nat m);
    [reflexivity|reflexivity|reflexivity|reflexivity|exact Hk|by eapply gt_mask_length].
Qed.

(** The series of [X_encoded] stay where [get_dummies] put them. *)
Lemma h_encoded_series i x :
  (Run.E file).*2 !! i = Some x ->
  Run.h_encoded file !! (33 + i)%nat = Some (OSeries x).
Proof.
  intros Hx. unfold Run.h_encoded.
  rewrite lookup_app_r by (change (length (Run.h_split file)) with 33%nat; lia).
  change (length (Run.h_split file)) with 33%nat.
  replace (33 + i - 33)%nat with i by lia.
  rewrite lookup_app_l by (rewrite length_fmap; by eapply lookup_lt_Some).
  by rewrite list_lookup_fmap, Hx.
Qed.

Lemma h_encoded_frame :
  Run.h_encoded file !! (33 + length (Run.E file))%nat =
  Some (OFrame (zip (Run.E file).*1 (seq 33 (length (Run.E file))))).
Proof.
  unfold Run.h_encoded. rewrite app_assoc. apply list_lookup_middle.
  rewrite length_app, length_fmap, length_fmap. reflexivity.
Qed.

Lemma h_masked_length m :
  length (Run.h_masked file m) = (35 + length (Run.E file))%nat.
Proof. unfold Run.h_masked. rewrite length_app, h_encoded_length. simpl. lia. Qed.

Lemma h_binarized_length m :
  length (Run.h_binarized file m) = (35 + length (Run.E file))%nat.
Proof. unfold Run.h_binarized. by rewrite length_insert, h_masked_length. Qed.

Lemma h_masked_above m j :
  (j < 34 + length (Run.E file))%nat ->
  Run.h_masked file m !! j = Run.h_encoded file !! j.
Proof.
  intros Hj. unfold Run.h_masked. apply lookup_app_l.
  rewrite h_encoded_length. lia.
Qed.

Lemma h_binarized_above m j :
  (33 <= j < 34 + length (Run.E file))%nat ->
  Run.h_binarized file m !! j = Run.h_encoded file !! j.
Proof.
  intros Hj. unfold Run.h_binarized.
  rewrite list_lookup_insert_ne by lia.
  apply h_masked_above. lia.
Qed.

Lemma h_final_above m n j :
  (33 <= j < 33 + length (Run.E file))%nat ->
  Run.h_final file m n !! j = Run.h_encoded file !! j.
Proof.
  intros Hj. unfold Run.h_final.
  rewrite list_lookup_insert_ne by lia.
  rewrite lookup_app_l by (rewrite h_binarized_length; lia).
  apply h_binarized_above. lia.
Qed.

Lemma run_coerce m :
  s_coerce (Run.st_binarized file m) =
    match Column.to_numeric (Run.col "ca" (Run.df1 file)) with
    | Some n => Ok (tt, Run.st_final file m n)
    | None => Raise ValueError
    end.
Proof.
  unfold Run.st_binarized.
  rewrite (s_coerce_run _ (33 + length (Run.E file))%nat
             (zip (Run.E file).*1 (seq 33 (length (Run.E file)))) 41%nat
             (Run.col "ca" (Run.df1 file)));
    [|reflexivity| |reflexivity|reflexivity].
  - destruct (Column.to_numeric _); [|done].
    cbn [heap]. rewrite h_binarized_length. reflexivity.
  - cbn [heap]. rewrite h_binarized_above by lia. apply h_encoded_frame.
Qed.

(** The formatter, from the state the resolver leaves. *)
Lemma run_formatter :
  exec feature_formatter (Run.st_filled file) =
    match gt_mask (cells (Run.y0 file)) 0 with
    | Some m =>
        match Column.to_numeric (Run.col "ca" (Run.df1 file)) with
        | Some n => Ok (Run.st_final file m n)
        | None => Raise ValueError
        end
    | None => Raise TypeError
    end.
Proof.
  change feature_formatter with ([s_X; s_y] ++ [s_encode; s_mask; s_binarize; s_coerce]).
  rewrite exec_app, run_split.
  rewrite (exec_cons _ _ _ _ run_encode).
  cbn [exec]. rewrite run_mask.
  destruct (gt_mask (cells (Run.y0 file)) 0) as [m|] eqn:Hm; [|done].
  rewrite (run_binarize m Hm), run_coerce.
  by destruct (Column.to_numeric _).
Qed.

(** *** What the variables hold *)

Lemma see_encoded :
  let st := Run.st_encoded file in
  frame_of Var.df st = Some (Run.df1 file) /\ frame_of Var.X st = Some (Run.X1 file) /\
  series_of Var.y st = Some (Run.y0 file) /\
  frame_of Var.X_encoded st = Some (Run.E file).
Proof.
  repeat split; try reflexivity.
  change (frame_at (Run.h_encoded file) (33 + length (Run.E file)) = Some (Run.E file)).
  apply (frame_at_block _ _ 33).
  - apply h_encoded_frame.
  - apply h_encoded_series.
Qed.

Lemma see_masked m :
  let st := Run.st_masked file m in
  frame_of Var.df st = Some (Run.df1 file) /\ frame_of Var.X st = Some (Run.X1 file) /\
  series_of Var.y st = Some (Run.y0 file) /\
  frame_of Var.X_encoded st = Some (Run.E file).
Proof.
  repeat split; try reflexivity.
  change (frame_at (Run.h_masked file m) (33 + length (Run.E file)) = Some (Run.E file)).
  apply (frame_at_block _ _ 33).
  - rewrite h_masked_above by lia. apply h_encoded_frame.
  - intros i x Hx. rewrite h_masked_above.
    + by apply h_encoded_series.
    + apply lookup_lt_Some in Hx. rewrite length_fmap in Hx. lia.
Qed.

Lemma see_binarized m :
  let st := Run.st_binarized file m in
  frame_of Var.df st = Some (Run.df1 file) /\ frame_of Var.X st = Some (Run.X1 file) /\
  series_of Var.y st = Some (Run.y1 file m) /\
  frame_of Var.X_encoded st = Some (Run.E file).
Proof.
  repeat split; try reflexivity.
  change (frame_at (Run.h_binarized file m) (33 + length (Run.E file)) =
          Some (Run.E file)).
  apply (frame_at_block _ _ 33).
  - rewrite h_binarized_above by lia. apply h_encoded_frame.
  - intros i x Hx. rewrite h_binarized_above.
    + by apply h_encoded_series.
    + apply lookup_lt_Some in Hx. rewrite length_fmap in Hx. lia.
Qed.

Lemma E_split n :
  replace_col (LName "ca") n (Run.E file) =
  take 8 (Run.E file) ++ (LName "ca", n) :: skipn 9 (Run.E file).
Proof. reflexivity. Qed.

Lemma E_locs_split k :
  replace_col (LName "ca") k (zip (Run.E file).*1 (seq 33 (length (Run.E file)))) =
  zip (take 8 (Run.E file)).*1 (seq 33 (length (take 8 (Run.E file)))) ++
  (LName "ca", k) ::
  zip (skipn 9 (Run.E file)).*1 (seq 42 (length (skipn 9 (Run.E file)))).
Proof. reflexivity. Qed.

Lemma see_final m n :
  let st := Run.st_final file m n in
  frame_of Var.df st = Some (Run.df1 file) /\ frame_of Var.X st = Some (Run.X1 file) /\
  series_of Var.y st = Some (Run.y1 file m) /\
  frame_of Var.X_encoded st = Some (replace_col (LName "ca") n (Run.E file)).
Proof.
  repeat split; try reflexivity.
  change (frame_at (Run.h_final file m n) (33 + length (Run.E file)) =
          Some (replace_col (LName "ca") n (Run.E file))).
  unfold frame_at.
  assert (Hf : Run.h_final file m n !! (33 + length (Run.E file))%nat =
               Some (OFrame (replace_col (LName "ca") (36 + length (Run.E file))%nat
                               (zip (Run.E file).*1 (seq 33 (length (Run.E file))))))).
  { unfold Run.h_final. apply list_lookup_insert_eq.
    rewrite length_app, h_binarized_length. lia. }
  rewrite Hf. apply mapM_Some. rewrite E_split, E_locs_split.
  assert (Hs : forall i x, (Run.E file).*2 !! i = Some x ->
                 Run.h_final file m n !! (33 + i)%nat = Some (OSeries x)).
  { intros i x Hx. rewrite h_final_above.
    - by apply h_encoded_series.
    - apply lookup_lt_Some in Hx. rewrite length_fmap in Hx. lia. }
  apply Forall2_app; [|constructor].
  - apply resolve_block. intros i x Hx. apply Hs.
    rewrite <- Hx. rewrite !list_lookup_fmap. f_equal.
    symmetry. apply lookup_take_lt.
    apply lookup_lt_Some in Hx. rewrite length_fmap, length_take in Hx. lia.
  - cbn [fst snd]. unfold series_at, Run.h_final.
    rewrite list_lookup_insert_ne by lia.
    rewrite lookup_app_r by (rewrite h_binarized_length; lia).
    rewrite h_binarized_length.
    replace (36 + length (Run.E file) - (35 + length (Run.E file)))%nat with 1%nat by lia.
    reflexivity.
  - apply resolve_block. intros i x Hx.
    replace (42 + i)%nat with (33 + (9 + i))%nat by lia. apply Hs.
    rewrite <- Hx. rewrite !list_lookup_fmap. f_equal.
Qed.

End run.

(** ** The run on any file *)

Ltac fourteen file Hlen :=
  do 14 (destruct file as [|? file]; [discriminate Hlen|]);
  destruct file; [clear Hlen|discriminate Hlen].

Section any_file.

Context `{NumericReader}.

(** The loader needs exactly the fourteen columns it names. *)
Lemma loader_fourteen file st :
  exec (data_loader file) initial = Ok st -> length file = 14%nat.
Proof.
  unfold data_loader. cbn [exec]. unfold s_read, read_csv.
  unfold mbind at 1, M_bind. rewrite new_frame_run.
  unfold set_var. cbn [heap vars initial length app].
  unfold s_columns, set_columns, get_var, get_frame, read.
  unfold mbind, M_bind. cbn [vars Var.set_df Var.df heap].
  rewrite list_lookup_middle
    by (rewrite length_fmap, length_fmap, length_zip, length_fmap, length_seq,
          length_fmap; lia).
  cbn [mret M_ret].
  rewrite length_zip, !length_fmap, length_seq, length_zip, length_fmap, length_seq,
    length_fmap.
  destruct (decide _) as [Heq|Hne]; [|discriminate].
  intros _. cbn in Heq. lia.
Qed.

Lemma any_loader file :
  length file = 14%nat -> exec (data_loader file) initial = Ok (Run.st_loaded file).
Proof. intros Hlen. fourteen file Hlen. apply run_loader. Qed.

Lemma any_resolver file :
  length file = 14%nat ->
  exec missing_value_resolver (Run.st_loaded file) = Ok (Run.st_filled file).
Proof. intros Hlen. fourteen file Hlen. apply run_resolver. Qed.

Lemma any_split file :
  length file = 14%nat -> exec [s_X; s_y] (Run.st_filled file) = Ok (Run.st_split file).
Proof. intros Hlen. fourteen file Hlen. apply run_split. Qed.

Lemma any_encode file :
  length file = 14%nat -> s_encode (Run.st_split file) = Ok (tt, Run.st_encoded file).
Proof. intros Hlen. fourteen file Hlen. apply run_encode. Qed.

Lemma any_mask file :
  length file = 14%nat ->
  s_mask (Run.st_encoded file) =
    match gt_mask (cells (Run.y0 file)) 0 with
    | Some m => Ok (tt, Run.st_masked file m)
    | None => Raise TypeError
    end.
Proof. intros Hlen. fourteen file Hlen. apply run_mask. Qed.

Lemma any_binarize file m :
  length file = 14%nat ->
  gt_mask (cells (Run.y0 file)) 0 = Some m ->
  s_binarize (Run.st_masked file m) = Ok (tt, Run.st_binarized file m).
Proof. intros Hlen. fourteen file Hlen. apply run_binarize. Qed.

Lemma any_formatter file :
  length file = 14%nat ->
  exec feature_formatter (Run.st_filled file) =
    match gt_mask (cells (Run.y0 file)) 0 with
    | Some m =>
        match Column.to_numeric (Run.col "ca" (Run.df1 file)) with
        | Some n => Ok (Run.st_final file m n)
        | None => Raise ValueError
        end
    | None => Raise TypeError
    end.
Proof. intros Hlen. fourteen file Hlen. apply run_formatter. Qed.

Lemma any_see_loaded file :
  length file = 14%nat -> frame_of Var.df (Run.st_loaded file) = Some (Run.df0 file).
Proof. intros Hlen. fourteen file Hlen. reflexivity. Qed.

Lemma any_see_filled file :
  length file = 14%nat -> frame_of Var.df (Run.st_filled file) = Some (Run.df1 file).
Proof. intros Hlen. fourteen file Hlen. reflexivity. Qed.

Lemma any_see_encoded file :
  length file = 14%nat ->
  let st := Run.st_encoded file in
  frame_of Var.df st = Some (Run.df1 file) /\ frame_of Var.X st = Some (Run.X1 file) /\
  series_of Var.y st = Some (Run.y0 file) /\
  frame_of Var.X_encoded st = Some (Run.E file).
Proof. intros Hlen. fourteen file Hlen. apply see_encoded. Qed.

Lemma any_see_masked file m :
  length file = 14%nat ->
  let st := Run.st_masked file m in
  frame_of Var.df st = Some (Run.df1 file) /\ frame_of Var.X st = Some (Run.X1 file) /\
  series_of Var.y st = Some (Run.y0 file) /\
  frame_of Var.X_encoded st = Some (Run.E file).
Proof. intros Hlen. fourteen file Hlen. apply see_masked. Qed.

Lemma any_see_binarized file m :
  length file = 14%nat ->
  let st := Run.st_binarized file m in
  frame_of Var.df st = Some (Run.df1 file) /\ frame_of Var.X st = Some (Run.X1 file) /\
  series_of Var.y st = Some (Run.y1 file m) /\
  frame_of Var.X_encoded st = Some (Run.E file).
Proof. intros Hlen. fourteen file Hlen. apply see_binarized. Qed.

Lemma any_see_final file m n :
  length file = 14%nat ->
  let st := Run.st_final file m n in
  frame_of Var.df st = Some (Run.df1 file) /\ frame_of Var.X st = Some (Run.X1 file) /\
  series_of Var.y st = Some (Run.y1 file m) /\
  frame_of Var.X_encoded st = Some (replace_col (LName "ca") n (Run.E file)).
Proof. intros Hlen. fourteen file Hlen. apply see_final. Qed.

End any_file.

(** ** The groups of indicator columns *)

Lemma group_all c (t : frame) :
  Forall (fun p => in_group c p.1 = true) t -> group c t = t.
Proof.
  intros Hall. unfold group. induction Hall as [|p t Hp _ IH]; [done|].
  rewrite filter_cons, decide_True by done. by rewrite IH.
Qed.

Lemma group_none c (t : frame) :
  Forall (fun p => in_group c p.1 = false) t -> group c t = [].
Proof.
  intros Hall. unfold group. induction Hall as [|p t Hp _ IH]; [done|].
  rewrite filter_cons, decide_False; [done|]. by rewrite Hp.
Qed.

Lemma group_app c (t u : frame) : group c (t ++ u) = group c t ++ group c u.
Proof. unfold group. apply filter_app. Qed.

Lemma dummies_labels (P : label -> Prop) c l :
  (forall s, P (LName (c +:+ "_" +:+ s))) ->
  Forall (fun p => P p.1) (dummies c l).
Proof.
  intros HP. unfold dummies, get_dummies_1d.
  rewrite <- list_fmap_compose. apply Forall_fmap, Forall_true.
  intros lv. simpl. apply HP.
Qed.

Lemma prefix_sep (c s : string) :
  String.prefix (c +:+ "_") (c +:+ "_" +:+ s) = true.
Proof.
  induction c as [|x c IH]; simpl.
  - destruct (ascii_dec "_" "_"); [by destruct s|done].
  - destruct (ascii_dec x x); [exact IH|done].
Qed.

Lemma group_dummies c l : group c (dummies c l) = dummies c l.
Proof.
  apply group_all, (dummies_labels (fun lb => in_group c lb = true)).
  intros s. apply prefix_sep.
Qed.

Lemma group_other c c' l :
  (forall s, String.prefix (c +:+ "_") (c' +:+ "_" +:+ s) = false) ->
  group c (dummies c' l) = [].
Proof.
  intros Hne.
  apply group_none, (dummies_labels (fun lb => in_group c lb = false)), Hne.
Qed.

Lemma dummies_eq c l :
  dummies c l =
  (fun lv => (LName (c +:+ "_" +:+ str lv), mkSeries UInt8 (indicator lv l))) <$> levels l.
Proof. unfold dummies, get_dummies_1d. by rewrite <- list_fmap_compose. Qed.

Lemma dummies_sum c l i v :
  l !! i = Some v -> isna v = false ->
  foldr Z.add 0 ((fun p : label * Series => int_at i p.2) <$> dummies c l) = 1.
Proof.
  intros Hi Hna. unfold dummies. rewrite <- list_fmap_compose.
  rewrite <- (dummies_row_sum c l i v Hi Hna).
  reflexivity.
Qed.

Section groups.

Variables c0 c1 c2 c3 c4 c5 c6 c7 c8 c9 c10 c11 c12 c13 : csv_column.

Let file := [c0; c1; c2; c3; c4; c5; c6; c7; c8; c9; c10; c11; c12; c13].

Lemma E_eq :
  Run.E file =
  filter (fun p => p.1 ∉ LName <$> encoded_columns) (Run.X1 file) ++
  dummies "cp" (cells (series_of_csv c2)) ++
  dummies "restecg" (cells (series_of_csv c6)) ++
  dummies "slope" (cells (series_of_csv c10)) ++
  dummies "thal" (cells (fill_sentinel (series_of_csv c12))) ++ [].
Proof. reflexivity. Qed.

Lemma group_kept c :
  c ∈ encoded_columns ->
  group c (filter (fun p => p.1 ∉ LName <$> encoded_columns) (Run.X1 file)) = [].
Proof.
  intros Hc. unfold encoded_columns in Hc.
  repeat (apply elem_of_cons in Hc as [->|Hc]; [reflexivity|]).
  by apply elem_of_nil in Hc.
Qed.

Lemma group_cp : group "cp" (Run.E file) = dummies "cp" (cells (series_of_csv c2)).
Proof.
  rewrite E_eq, !group_app, group_kept, group_dummies by (unfold encoded_columns; repeat constructor).
  rewrite !group_other by (intros s; reflexivity).
  by rewrite app_nil_r.
Qed.

Lemma group_restecg :
  group "restecg" (Run.E file) = dummies "restecg" (cells (series_of_csv c6)).
Proof.
  rewrite E_eq, !group_app, group_kept, group_dummies by (unfold encoded_columns; repeat constructor).
  rewrite !group_other by (intros s; reflexivity).
  by rewrite app_nil_r.
Qed.

Lemma group_slope :
  group "slope" (Run.E file) = dummies "slope" (cells (series_of_csv c10)).
Proof.
  rewrite E_eq, !group_app, group_kept, group_dummies by (unfold encoded_columns; repeat constructor).
  rewrite !group_other by (intros s; reflexivity).
  by rewrite app_nil_r.
Qed.

Lemma group_thal :
  group "thal" (Run.E file) =
  dummies "thal" (cells (fill_sentinel (series_of_csv c12))).
Proof.
  rewrite E_eq, !group_app, group_kept, group_dummies by (unfold encoded_columns; repeat constructor).
  rewrite !group_other by (intros s; reflexivity).
  by rewrite app_nil_r.
Qed.

End groups.

(** ** The missing-value resolver (C1) *)

(** C1.  On every file of fourteen columns the loader and the resolver run
    to completion, and afterwards neither ['ca'] nor ['thal'] holds the
    marker ['?'] in any row: each of the two columns is the loaded column
    with every cell equal to ['?'] replaced by the integer 0 and every
    other cell kept. *)
Theorem sentinel_resolved file :
  length file = 14%nat ->
  exists st0 st t0 t,
    exec (data_loader file) initial = Ok st0 /\
    exec missing_value_resolver st0 = Ok st /\
    frame_of Var.df st0 = Some t0 /\
    frame_of Var.df st = Some t /\
    forall c, c = "ca"%string \/ c = "thal"%string ->
      exists before after,
        column c t0 = Some before /\ column c t = Some after /\
        Forall (fun v => v <> VStr "?") after /\
        after = (fun v => if decide (v = VStr "?") then VInt 0 else v) <$> before.
Proof.
  intros Hlen.
  exists (Run.st_loaded file), (Run.st_filled file), (Run.df0 file), (Run.df1 file).
  split; [by apply any_loader|]. split; [by apply any_resolver|].
  split; [by apply any_see_loaded|]. split; [by apply any_see_filled|].
  fourteen file Hlen. intros name [->| ->].
  - eexists _, _. split; [reflexivity|]. split; [reflexivity|].
    split; [apply fill_no_sentinel | apply fill_csv_cells].
  - eexists _, _. split; [reflexivity|]. split; [reflexivity|].
    split; [apply fill_no_sentinel | apply fill_csv_cells].
Qed.

Lemma sentinel_resolved_example :
  length Example.file = 14%nat /\
  exists st0 st t0 t,
    exec (data_loader Example.file) initial = Ok st0 /\
    exec missing_value_resolver st0 = Ok st /\
    frame_of Var.df st0 = Some t0 /\
    frame_of Var.df st = Some t /\
    forall c, c = "ca"%string \/ c = "thal"%string ->
      exists before after,
        column c t0 = Some before /\ column c t = Some after /\
        Forall (fun v => v <> VStr "?") after /\
        after = (fun v => if decide (v = VStr "?") then VInt 0 else v) <$> before.
Proof. split; [reflexivity|]. apply (sentinel_resolved Example.file). reflexivity. Defined.

Lemma run_to_encode file :
  length file = 14%nat ->
  exec (data_loader file ++ missing_value_resolver ++ [s_X; s_y; s_encode]) initial =
  Ok (Run.st_encoded file).
Proof.
  intros Hlen. rewrite exec_app, any_loader by done.
  rewrite exec_app, any_resolver by done.
  change [s_X; s_y; s_encode] with ([s_X; s_y] ++ [s_encode]).
  rewrite exec_app, any_split by done.
  by rewrite (exec_cons _ _ _ _ (any_encode file Hlen)).
Qed.

Lemma expanded_intro c l e :
  group c e = dummies c l -> expanded c l e.
Proof.
  intros Hg. split; [|split; [|split]].
  - by rewrite Hg, dummies_eq.
  - intros lv Hlv. by apply levels_observed.
  - intros v. apply levels_count.
  - intros i v Hi Hna. unfold row_sum. rewrite Hg. by eapply dummies_sum.
Qed.

(** ** One-hot expansion (C2, C10) *)



(** A text column after the fill holds the fill value, strings and [nan]. *)
Lemma filled_text_cells l v :
  v ∈ cells (fill_sentinel (series_of_csv (TextColumn l))) ->
  v = VInt 0 \/ (exists s, v = VStr s) \/ v = VFloat NaN.
Proof.
  rewrite fill_csv_cells. simpl. rewrite <- list_fmap_compose.
  intros Hv. apply list_elem_of_fmap in Hv as (x & -> & _). simpl.
  destruct (decide (text_cell x = VStr "?")); [by left|right].
  destruct x; simpl; eauto.
Qed.

Lemma zero_level l :
  VInt 0 ∈ cells (fill_sentinel (series_of_csv (TextColumn l))) ->
  VInt 0 ∈ levels (cells (fill_sentinel (series_of_csv (TextColumn l)))).
Proof.
  intros Hin. pose proof (levels_count _ _ Hin eq_refl) as Hcount.
  destruct (filter _ _) as [|lv rest] eqn:Hf; [discriminate|].
  assert (Hlv : lv ∈ filter (fun lv => py_eqb (VInt 0) lv = true)
                  (levels (cells (fill_sentinel (series_of_csv (TextColumn l))))))
    by (rewrite Hf; left).
  apply list_elem_of_filter in Hlv as [Heq Hlv].
  destruct (levels_observed _ _ Hlv) as [Hcell _].
  apply filled_text_cells in Hcell as [->|[[s ->]| ->]]; [done|discriminate..].
Qed.

(** C10.  The 0 the resolver writes into ['thal'] is a level of its own in
    the expansion: for every row [i] whose loaded ['thal'] cell is the
    marker, the cell of ['thal'] in [X] is the integer 0, [X_encoded] has a
    column labelled ['thal_0'] that is the indicator column of the value 0,
    that column holds 1 in row [i], and the indicator columns of the
    ['thal'] group sum to 1 in row [i]. *)
Theorem fill_value_is_a_level file :
  length file = 14%nat ->
  exists st0 st t0 x e,
    exec (data_loader file) initial = Ok st0 /\
    frame_of Var.df st0 = Some t0 /\
    exec (missing_value_resolver ++ [s_X; s_y; s_encode]) st0 = Ok st /\
    frame_of Var.X st = Some x /\
    frame_of Var.X_encoded st = Some e /\
    forall before i,
      column "thal" t0 = Some before ->
      before !! i = Some (VStr "?") ->
      exists after s,
        column "thal" x = Some after /\
        after !! i = Some (VInt 0) /\
        (LName "thal_0", s) ∈ e /\
        s = mkSeries UInt8 (indicator (VInt 0) after) /\
        cells s !! i = Some (VInt 1) /\
        row_sum "thal" i e = 1.
Proof.
  intros Hlen.
  exists (Run.st_loaded file), (Run.st_encoded file), (Run.df0 file), (Run.X1 file),
    (Run.E file).
  split; [by apply any_loader|]. split; [by apply any_see_loaded|].
  split.
  { rewrite exec_app, any_resolver by done.
    change [s_X; s_y; s_encode] with ([s_X; s_y] ++ [s_encode]).
    rewrite exec_app, any_split by done.
    by rewrite (exec_cons _ _ _ _ (any_encode file Hlen)). }
  destruct (any_see_encoded file Hlen) as (_ & HX & _ & HE).
  split; [exact HX|]. split; [exact HE|].
  fourteen file Hlen. intros before i Hb Hi.
  injection Hb as <-.
  match goal with
  | H : cells (series_of_csv ?c) !! i = _ |- _ => rename H into Hcell; set (thal := c) in *
  end.
  assert (Htext : exists l, thal = TextColumn l).
  { destruct thal as [l|l|l]; simpl in Hcell; [| |by eexists];
      rewrite list_lookup_fmap in Hcell; by destruct (l !! i). }
  destruct Htext as [l Hl].
  set (after := cells (fill_sentinel (series_of_csv thal))).
  assert (Hafter : after !! i = Some (VInt 0)).
  { unfold after. rewrite fill_csv_cells, list_lookup_fmap, Hcell. reflexivity. }
  exists after, (mkSeries UInt8 (indicator (VInt 0) after)).
  split; [reflexivity|]. split; [exact Hafter|]. split; [|split; [reflexivity|split]].
  - match goal with
    | |- _ ∈ Run.E ?f =>
        assert (Hg : (LName "thal_0", mkSeries UInt8 (indicator (VInt 0) after))
                       ∈ group "thal" (Run.E f))
    end.
    { rewrite group_thal. fold after. rewrite dummies_eq.
      apply list_elem_of_fmap. exists (VInt 0). split; [reflexivity|].
      unfold after. rewrite Hl. apply zero_level. rewrite <- Hl. fold after.
      by eapply list_elem_of_lookup_2. }
    unfold group in Hg. by apply list_elem_of_filter in Hg as [_ Hg].
  - cbn [cells]. by rewrite (indicator_lookup _ _ _ _ Hafter).
  - unfold row_sum. rewrite group_thal. fold after. by eapply dummies_sum.
Qed.

Lemma fill_value_is_a_level_example :
  length Example.file = 14%nat /\
  exists st0 st t0 x e before,
    exec (data_loader Example.file) initial = Ok st0 /\
    frame_of Var.df st0 = Some t0 /\
    exec (missing_value_resolver ++ [s_X; s_y; s_encode]) st0 = Ok st /\
    frame_of Var.X st = Some x /\
    frame_of Var.X_encoded st = Some e /\
    column "thal" t0 = Some before /\
    before !! 2%nat = Some (VStr "?") /\
    exists after s,
      column "thal" x = Some after /\
      after !! 2%nat = Some (VInt 0) /\
      (LName "thal_0", s) ∈ e /\
      s = mkSeries UInt8 (indicator (VInt 0) after) /\
      cells s !! 2%nat = Some (VInt 1) /\
      row_sum "thal" 2 e = 1.
Proof.
  split; [reflexivity|].
  destruct (fill_value_is_a_level Example.file eq_refl)
    as (st0 & st & t0 & x & e & Hload & Hdf & Hrun & HX & HE & Hrow).
  exists st0, st, t0, x, e, [VStr "6.0"; VStr "3.0"; VStr "?"].
  assert (Hbefore : column "thal" t0 = Some [VStr "6.0"; VStr "3.0"; VStr "?"]).
  { vm_compute in Hload. injection Hload as <-.
    vm_compute in Hdf. injection Hdf as <-. reflexivity. }
  split; [exact Hload|]. split; [exact Hdf|]. split; [exact Hrun|].
  split; [exact HX|]. split; [exact HE|]. split; [exact Hbefore|].
  split; [reflexivity|]. apply (Hrow _ 2%nat Hbefore). reflexivity.
Defined.

(** ** Target binarization (C3) *)

Lemma gt_mask_ints ns : gt_mask (VInt <$> ns) 0 = Some ((fun n => 0 <? n) <$> ns).
Proof.
  unfold gt_mask. induction ns as [|n ns IH]; [done|].
  rewrite !fmap_cons. cbn [mapM]. rewrite IH. simpl.
  unfold dec_ltb, pow10. simpl.
  change (10 ^ Z.of_nat 0) with 1. by rewrite !Z.mul_1_r.
Qed.

Lemma set_where_ints ns :
  set_where ((fun n => 0 <? n) <$> ns) (VInt 1) (VInt <$> ns) = VInt <$> (to_one <$> ns).
Proof.
  induction ns as [|n ns IH]; [done|].
  rewrite !fmap_cons. cbn [set_where]. rewrite IH. unfold to_one.
  by destruct (0 <? n).
Qed.

Lemma to_one_idem n : to_one (to_one n) = to_one n.
Proof. unfold to_one. destruct (0 <? n) eqn:Hn; [done|]. by rewrite Hn. Qed.

Lemma binarize_run st l ns :
  Var.y (vars st) = Some l ->
  heap st !! l = Some (OSeries (int_series ns)) ->
  exec [s_mask; s_binarize] st =
    Ok (mkState (<[l := OSeries (int_series (to_one <$> ns))]>
                   (heap st ++ [OMask ((fun n => 0 <? n) <$> ns)]))
                (Var.set_y_not_zero_index (length (heap st)) (vars st))).
Proof.
  intros Hv Hl.
  assert (Hl' : (l < length (heap st))%nat) by (by eapply lookup_lt_Some).
  cbn [exec]. rewrite (s_mask_run _ _ _ Hv Hl).
  cbn [cells int_series]. rewrite gt_mask_ints.
  erewrite s_binarize_run; cycle 1.
  - simpl. exact Hv.
  - reflexivity.
  - simpl. rewrite lookup_app_l by done. exact Hl.
  - simpl. by apply list_lookup_middle.
  - simpl. by rewrite !length_fmap.
  - simpl. by rewrite set_where_ints.
Qed.

(** C3.  From any state in which [y] is an [int64] series, the two
    statements of the binarization run to completion and leave in [y] the
    series in which every value greater than zero is 1 and every other
    value, zero included, is kept; running them a second time changes
    nothing; and when no value is negative every value of the result is 0
    or 1. *)
Theorem binarization st ns :
  series_of Var.y st = Some (int_series ns) ->
  exists st1 st2,
    exec [s_mask; s_binarize] st = Ok st1 /\
    series_of Var.y st1 = Some (int_series ((fun n => if 0 <? n then 1 else n) <$> ns)) /\
    exec [s_mask; s_binarize] st1 = Ok st2 /\
    series_of Var.y st2 = series_of Var.y st1 /\
    (Forall (fun n => 0 <= n) ns ->
     Forall (fun n => n = 0 \/ n = 1) ((fun n => if 0 <? n then 1 else n) <$> ns)).
Proof.
  unfold series_of, series_at. intros Hy.
  destruct (Var.y (vars st)) as [l|] eqn:Hv; [|done]. simpl in Hy.
  destruct (heap st !! l) as [[x| |]|] eqn:Hl; try done.
  injection Hy as ->.
  assert (Hl' : (l < length (heap st))%nat) by (by eapply lookup_lt_Some).
  eexists _, _. split; [by apply binarize_run|].
  assert (Hsee : forall h g,
            (l < length h)%nat -> Var.y g = Some l ->
            series_of Var.y (mkState (<[l := OSeries (int_series (to_one <$> ns))]> h) g)
            = Some (int_series (to_one <$> ns))).
  { intros h g Hh Hg. unfold series_of, series_at. simpl. rewrite Hg. simpl.
    by rewrite list_lookup_insert_eq. }
  split; [apply Hsee; [rewrite length_app; lia | by simpl]|].
  split.
  - apply binarize_run; simpl; [done|].
    apply list_lookup_insert_eq. rewrite length_app. lia.
  - split.
    + unfold series_of, series_at. simpl. rewrite Hv. simpl.
      rewrite !list_lookup_insert_eq; [|rewrite length_app; lia|
        rewrite length_app, length_insert, length_app; lia].
      assert (Hidem : to_one <$> (to_one <$> ns) = to_one <$> ns).
      { rewrite <- list_fmap_compose. apply list_fmap_ext. intros i n _. simpl.
        apply to_one_idem. }
      by rewrite Hidem.
    + intros Hpos. apply Forall_fmap. eapply Forall_impl; [exact Hpos|].
      intros n Hn. unfold compose.
      destruct (0 <? n) eqn:Hlt; [by right|left].
      apply Z.ltb_ge in Hlt. cbv beta in Hn. lia.
Qed.

Lemma binarization_example :
  series_of Var.y (Run.st_encoded Example.file) = Some (int_series [0; 2; 1]) /\
  Forall (fun n => 0 <= n) [0; 2; 1] /\
  exists st1 st2,
    exec [s_mask; s_binarize] (Run.st_encoded Example.file) = Ok st1 /\
    series_of Var.y st1 = Some (int_series [0; 1; 1]) /\
    exec [s_mask; s_binarize] st1 = Ok st2 /\
    series_of Var.y st2 = series_of Var.y st1 /\
    Forall (fun n => n = 0 \/ n = 1) [0; 1; 1].
Proof.
  split; [reflexivity|]. split; [repeat constructor; lia|].
  destruct (binarization (Run.st_encoded Example.file) [0; 2; 1] eq_refl)
    as (st1 & st2 & Hrun & Hy & Hagain & Hsame & Hbits).
  exists st1, st2. split; [exact Hrun|]. split; [exact Hy|].
  split; [exact Hagain|]. split; [exact Hsame|].
  apply Hbits. repeat constructor; lia.
Defined.

(** ** Rows (C4) *)

Lemma series_rows c : length (cells (series_of_csv c)) = csv_rows c.
Proof. destruct c; simpl; apply length_fmap. Qed.

Section keeps_rows.

Context `{NumericReader}.

Lemma keeps_rows_self src n (p : label * Series) :
  p ∈ src -> length (cells p.2) = n -> keeps_rows src n p.2.
Proof.
  intros Hin Hn. split; [done|]. exists p, id. split; [done|].
  split; [constructor|]. by rewrite list_fmap_id.
Qed.

Lemma keeps_rows_fmap src n s s' (g : value -> value) :
  cell_map g -> keeps_rows src n s -> cells s' = g <$> cells s -> keeps_rows src n s'.
Proof.
  intros Hg [Hn (c & f & Hc & Hcm & Hf)] Hs. split.
  - by rewrite Hs, length_fmap.
  - exists c, (g ∘ f). split; [done|]. split; [by constructor|].
    by rewrite Hs, Hf, <- list_fmap_compose.
Qed.

Lemma keeps_rows_fill src n c :
  keeps_rows src n (series_of_csv c) -> keeps_rows src n (fill_sentinel (series_of_csv c)).
Proof.
  intros Hc. eapply keeps_rows_fmap; [apply cm_fill|exact Hc|apply fill_csv_cells].
Qed.

Lemma keeps_rows_dummies src n c s :
  keeps_rows src n s -> Forall (fun p => keeps_rows src n p.2) (dummies c (cells s)).
Proof.
  intros Hs. rewrite dummies_eq. apply Forall_fmap, Forall_true. intros lv.
  eapply keeps_rows_fmap; [apply (cm_indicator lv)|exact Hs|reflexivity].
Qed.

Lemma mapM_pointwise {A} (f : A -> option A) (l k : list A) :
  mapM f l = Some k -> k = (fun x => default x (f x)) <$> l.
Proof.
  intros Hk. apply mapM_Some in Hk. induction Hk as [|x y l k Hxy _ IH]; [done|].
  simpl. rewrite Hxy. simpl. by rewrite IH.
Qed.

Lemma to_numeric_cells s s' :
  Column.to_numeric s = Some s' -> exists g, cell_map g /\ cells s' = g <$> cells s.
Proof.
  unfold Column.to_numeric. destruct (dtype_of s).
  1-3: intros [= <-]; exists id; split; [constructor|by rewrite list_fmap_id].
  destruct (mapM Column.to_number (cells s)) as [l|] eqn:Hl; [|done]. simpl.
  apply mapM_pointwise in Hl. intros [= <-].
  destruct (existsb is_float l); simpl.
  - eexists. split; [apply (cm_compose _ _ cm_float cm_number)|].
    by rewrite Hl, <- list_fmap_compose.
  - eexists. split; [apply cm_number|exact Hl].
Qed.

Lemma keeps_rows_numeric src n s s' :
  Column.to_numeric s = Some s' -> keeps_rows src n s -> keeps_rows src n s'.
Proof.
  intros Hnum Hs. destruct (to_numeric_cells _ _ Hnum) as (g & Hg & Hcells).
  by eapply keeps_rows_fmap.
Qed.

End keeps_rows.

Lemma set_where_gt_mask l m w :
  gt_mask l 0 = Some m ->
  set_where m w l = (fun c => if default false (py_gtb c 0) then w else c) <$> l.
Proof.
  unfold gt_mask. intros H. apply mapM_Some in H.
  induction H as [|c b l m Hcb _ IH]; [done|].
  simpl. rewrite Hcb, IH. reflexivity.
Qed.

Lemma Forall_replace_col {A} (P : label * A -> Prop) c a cols :
  Forall P cols -> P (c, a) -> Forall P (replace_col c a cols).
Proof.
  intros Hall Hp. induction Hall as [|[c' a'] cols Hx Hall IH]; simpl.
  - by constructor.
  - destruct (decide (c' = c)); by constructor.
Qed.

Ltac each_column tac :=
  repeat (apply Forall_cons; split; [tac|]); try (by apply Forall_nil).

Section rows.

Context `{NumericReader}.
Variables c0 c1 c2 c3 c4 c5 c6 c7 c8 c9 c10 c11 c12 c13 : csv_column.
Variable n : nat.

Let file := [c0; c1; c2; c3; c4; c5; c6; c7; c8; c9; c10; c11; c12; c13].

Hypothesis Hrows : Forall (fun c => csv_rows c = n) file.

Lemma rows_loaded : Forall (fun p => length (cells p.2) = n) (Run.df0 file).
Proof.
  unfold file in Hrows. repeat (apply Forall_cons in Hrows as [? Hrows]).
  repeat constructor; simpl; by rewrite series_rows.
Qed.

Lemma rows_source i p :
  Run.df0 file !! i = Some p -> keeps_rows (Run.df0 file) n p.2.
Proof.
  intros Hi. apply keeps_rows_self; [by eapply list_elem_of_lookup_2|].
  by eapply (Forall_lookup_1 _ _ _ _ rows_loaded).
Qed.

Lemma df0_eq :
  Run.df0 file =
  [(LName "age", series_of_csv c0); (LName "sex", series_of_csv c1);
   (LName "cp", series_of_csv c2); (LName "restbp", series_of_csv c3);
   (LName "chol", series_of_csv c4); (LName "fbs", series_of_csv c5);
   (LName "restecg", series_of_csv c6); (LName "thalach", series_of_csv c7);
   (LName "exang", series_of_csv c8); (LName "oldpeak", series_of_csv c9);
   (LName "slope", series_of_csv c10); (LName "ca", series_of_csv c11);
   (LName "thal", series_of_csv c12); (LName "hd", series_of_csv c13)].
Proof. reflexivity. Qed.

Lemma df1_eq :
  Run.df1 file =
  [(LName "age", series_of_csv c0); (LName "sex", series_of_csv c1);
   (LName "cp", series_of_csv c2); (LName "restbp", series_of_csv c3);
   (LName "chol", series_of_csv c4); (LName "fbs", series_of_csv c5);
   (LName "restecg", series_of_csv c6); (LName "thalach", series_of_csv c7);
   (LName "exang", series_of_csv c8); (LName "oldpeak", series_of_csv c9);
   (LName "slope", series_of_csv c10);
   (LName "ca", fill_sentinel (series_of_csv c11));
   (LName "thal", fill_sentinel (series_of_csv c12));
   (LName "hd", series_of_csv c13)].
Proof. reflexivity. Qed.

Lemma X1_eq :
  Run.X1 file =
  [(LName "age", series_of_csv c0); (LName "sex", series_of_csv c1);
   (LName "cp", series_of_csv c2); (LName "restbp", series_of_csv c3);
   (LName "chol", series_of_csv c4); (LName "fbs", series_of_csv c5);
   (LName "restecg", series_of_csv c6); (LName "thalach", series_of_csv c7);
   (LName "exang", series_of_csv c8); (LName "oldpeak", series_of_csv c9);
   (LName "slope", series_of_csv c10);
   (LName "ca", fill_sentinel (series_of_csv c11));
   (LName "thal", fill_sentinel (series_of_csv c12))].
Proof. reflexivity. Qed.

Lemma kept_eq :
  filter (fun p => p.1 ∉ LName <$> encoded_columns) (Run.X1 file) =
  [(LName "age", series_of_csv c0); (LName "sex", series_of_csv c1);
   (LName "restbp", series_of_csv c3); (LName "chol", series_of_csv c4);
   (LName "fbs", series_of_csv c5); (LName "thalach", series_of_csv c7);
   (LName "exang", series_of_csv c8); (LName "oldpeak", series_of_csv c9);
   (LName "ca", fill_sentinel (series_of_csv c11))].
Proof. reflexivity. Qed.

Ltac from_source :=
  first [ refine (rows_source 0%nat (_, _) eq_refl)
        | refine (rows_source 1%nat (_, _) eq_refl)
        | refine (rows_source 2%nat (_, _) eq_refl)
        | refine (rows_source 3%nat (_, _) eq_refl)
        | refine (rows_source 4%nat (_, _) eq_refl)
        | refine (rows_source 5%nat (_, _) eq_refl)
        | refine (rows_source 6%nat (_, _) eq_refl)
        | refine (rows_source 7%nat (_, _) eq_refl)
        | refine (rows_source 8%nat (_, _) eq_refl)
        | refine (rows_source 9%nat (_, _) eq_refl)
        | refine (rows_source 10%nat (_, _) eq_refl)
        | refine (rows_source 11%nat (_, _) eq_refl)
        | refine (rows_source 12%nat (_, _) eq_refl)
        | refine (rows_source 13%nat (_, _) eq_refl) ].

Lemma rows_filled : Forall (fun p => keeps_rows (Run.df0 file) n p.2) (Run.df1 file).
Proof.
  rewrite df1_eq.
  each_column ltac:(first [from_source | apply keeps_rows_fill; from_source]).
Qed.

Lemma rows_features : Forall (fun p => keeps_rows (Run.df0 file) n p.2) (Run.X1 file).
Proof.
  rewrite X1_eq.
  each_column ltac:(first [from_source | apply keeps_rows_fill; from_source]).
Qed.

Lemma rows_target : keeps_rows (Run.df0 file) n (Run.y0 file).
Proof. from_source. Qed.

Lemma rows_encoded : Forall (fun p => keeps_rows (Run.df0 file) n p.2) (Run.E file).
Proof.
  unfold file. rewrite E_eq. fold file. rewrite kept_eq.
  repeat apply Forall_app_2; try (by apply Forall_nil).
  - each_column ltac:(first [from_source | apply keeps_rows_fill; from_source]).
  - apply keeps_rows_dummies. from_source.
  - apply keeps_rows_dummies. from_source.
  - apply keeps_rows_dummies. from_source.
  - apply keeps_rows_dummies. apply keeps_rows_fill. from_source.
Qed.

Lemma rows_binarized m :
  gt_mask (cells (Run.y0 file)) 0 = Some m ->
  keeps_rows (Run.df0 file) n (Run.y1 file m).
Proof.
  intros Hm.
  eapply keeps_rows_fmap; [apply (cm_one (dtype_of (Run.y0 file)))|apply rows_target|].
  unfold Run.y1. cbn [cells]. by apply set_where_gt_mask.
Qed.

Lemma rows_final x :
  Column.to_numeric (Run.col "ca" (Run.df1 file)) = Some x ->
  Forall (fun p => keeps_rows (Run.df0 file) n p.2)
         (replace_col (LName "ca") x (Run.E file)).
Proof.
  intros Hx. apply Forall_replace_col; [apply rows_encoded|].
  eapply keeps_rows_numeric; [exact Hx|]. apply keeps_rows_fill. from_source.
Qed.

End rows.

(** C4.  On a file of fourteen columns of [n] rows each, every column of
    [df] has [n] cells after the loader and after the resolver, and when
    the formatter completes so does every column of [X] and of [X_encoded],
    and [y]; each of these columns is computed row by row from one column
    of the loaded table (cell [i] from cell [i] alone, by the fill, an
    indicator, the numeric reading, the binarization or nothing), so no
    row is dropped, added or moved by the fill, the expansion or the
    coercion. *)
Theorem rows_preserved `{NumericReader} file n :
  length file = 14%nat ->
  Forall (fun c => csv_rows c = n) file ->
  exists st0 st1 t0 t1,
    exec (data_loader file) initial = Ok st0 /\
    frame_of Var.df st0 = Some t0 /\
    exec missing_value_resolver st0 = Ok st1 /\
    frame_of Var.df st1 = Some t1 /\
    Forall (fun p => length (cells p.2) = n) t0 /\
    Forall (fun p => keeps_rows t0 n p.2) t1 /\
    forall st2,
      exec feature_formatter st1 = Ok st2 ->
      exists x y e,
        frame_of Var.X st2 = Some x /\
        series_of Var.y st2 = Some y /\
        frame_of Var.X_encoded st2 = Some e /\
        Forall (fun p => keeps_rows t0 n p.2) x /\
        keeps_rows t0 n y /\
        Forall (fun p => keeps_rows t0 n p.2) e.
Proof.
  intros Hlen Hrows.
  exists (Run.st_loaded file), (Run.st_filled file), (Run.df0 file), (Run.df1 file).
  split; [by apply any_loader|]. split; [by apply any_see_loaded|].
  split; [by apply any_resolver|]. split; [by apply any_see_filled|].
  pose proof (any_formatter file Hlen) as Hfmt.
  pose proof (any_see_final file) as Hsee.
  fourteen file Hlen.
  split; [by apply rows_loaded|]. split; [by apply rows_filled|].
  intros st2. rewrite Hfmt.
  destruct (gt_mask _ 0) as [m|] eqn:Hm; [|done].
  destruct (Column.to_numeric _) as [x|] eqn:Hx; [|done].
  intros [= <-]. destruct (Hsee m x eq_refl) as (_ & HX & Hy & HE).
  eexists _, _, _. split; [exact HX|]. split; [exact Hy|]. split; [exact HE|].
  split; [by apply rows_features|]. split; [by apply rows_binarized|].
  by apply rows_final.
Qed.

Lemma rows_preserved_example :
  (length Example.file = 14%nat /\
   Forall (fun c => csv_rows c = 3%nat) Example.file /\
   exists st, exec (pipeline Example.file) initial = Ok st) /\
  exists st0 st1 t0 t1,
    exec (data_loader Example.file) initial = Ok st0 /\
    frame_of Var.df st0 = Some t0 /\
    exec missing_value_resolver st0 = Ok st1 /\
    frame_of Var.df st1 = Some t1 /\
    Forall (fun p => length (cells p.2) = 3%nat) t0 /\
    Forall (fun p => keeps_rows t0 3 p.2) t1 /\
    forall st2,
      exec feature_formatter st1 = Ok st2 ->
      exists x y e,
        frame_of Var.X st2 = Some x /\
        series_of Var.y st2 = Some y /\
        frame_of Var.X_encoded st2 = Some e /\
        Forall (fun p => keeps_rows t0 3 p.2) x /\
        keeps_rows t0 3 y /\
        Forall (fun p => keeps_rows t0 3 p.2) e.
Proof.
  split.
  - split; [reflexivity|]. split; [by repeat constructor|].
    eexists. vm_compute. reflexivity.
  - apply (rows_preserved Example.file 3); [reflexivity|by repeat constructor].
Defined.

(** ** Dtypes of the feature matrix (C6) *)

Lemma to_numeric_dtype `{NumericReader} s s' :
  Column.to_numeric s = Some s' -> numeric_or_bool (dtype_of s') = true.
Proof.
  unfold Column.to_numeric. destruct (dtype_of s) eqn:Hd.
  1-3: intros [= <-]; by rewrite Hd.
  destruct (mapM Column.to_number (cells s)) as [l|]; [|done]. simpl.
  intros [= <-]. by destruct (existsb is_float l).
Qed.

Lemma dummies_forall (P : label * Series -> Prop) c l :
  (forall s x, P (LName (c +:+ "_" +:+ s), mkSeries UInt8 x)) ->
  Forall P (dummies c l).
Proof.
  intros HP. rewrite dummies_eq. apply Forall_fmap, Forall_true. intros lv. apply HP.
Qed.

Ltac not_in_list :=
  let Hin := fresh "Hin" in
  intros Hin; simpl in Hin;
  repeat (apply elem_of_cons in Hin as [Hin|Hin]; [discriminate Hin|]);
  by apply elem_of_nil in Hin.

Section dtypes.

Context `{NumericReader}.
Variables c0 c1 c2 c3 c4 c5 c6 c7 c8 c9 c10 c11 c12 c13 : csv_column.
Variable x : Series.

Let file := [c0; c1; c2; c3; c4; c5; c6; c7; c8; c9; c10; c11; c12; c13].

Lemma final_eq :
  replace_col (LName "ca") x (Run.E file) =
  [(LName "age", series_of_csv c0); (LName "sex", series_of_csv c1);
   (LName "restbp", series_of_csv c3); (LName "chol", series_of_csv c4);
   (LName "fbs", series_of_csv c5); (LName "thalach", series_of_csv c7);
   (LName "exang", series_of_csv c8); (LName "oldpeak", series_of_csv c9);
   (LName "ca", x)] ++
  dummies "cp" (cells (series_of_csv c2)) ++
  dummies "restecg" (cells (series_of_csv c6)) ++
  dummies "slope" (cells (series_of_csv c10)) ++
  dummies "thal" (cells (fill_sentinel (series_of_csv c12))) ++ [].
Proof. reflexivity. Qed.

Lemma final_labels :
  Forall (fun p => p.1 ∉ LName <$> encoded_columns)
         (replace_col (LName "ca") x (Run.E file)).
Proof.
  rewrite final_eq. repeat apply Forall_app_2; try (by apply Forall_nil).
  - each_column not_in_list.
  - apply dummies_forall. intros s y. not_in_list.
  - apply dummies_forall. intros s y. not_in_list.
  - apply dummies_forall. intros s y. not_in_list.
  - apply dummies_forall. intros s y. not_in_list.
Qed.

Hypothesis Hx : numeric_or_bool (dtype_of x) = true.

Lemma final_handled :
  Forall (fun p => p.1 ∉ LName <$> untouched_columns ->
                   numeric_or_bool (dtype_of p.2) = true)
         (replace_col (LName "ca") x (Run.E file)).
Proof.
  rewrite final_eq. repeat apply Forall_app_2; try (by apply Forall_nil).
  - each_column ltac:(first [ by intros _
                            | intros Hnot; destruct Hnot; simpl; repeat constructor ]).
  - apply dummies_forall. by intros s y _.
  - apply dummies_forall. by intros s y _.
  - apply dummies_forall. by intros s y _.
  - apply dummies_forall. by intros s y _.
Qed.

Hypothesis Hnum :
  Forall (fun c => forall s, find_col (LName c) (loaded file) = Some s ->
                             numeric_or_bool (dtype_of s) = true)
         untouched_columns.

Lemma final_numeric : all_numeric (replace_col (LName "ca") x (Run.E file)).
Proof.
  unfold untouched_columns in Hnum.
  repeat (apply Forall_cons in Hnum as [? Hnum]).
  unfold all_numeric.
  rewrite final_eq. repeat apply Forall_app_2; try (by apply Forall_nil).
  - each_column ltac:(first [ exact Hx | simpl; auto ]).
  - by apply dummies_forall.
  - by apply dummies_forall.
  - by apply dummies_forall.
  - by apply dummies_forall.
Qed.

End dtypes.

(** C6, amended.  When the pipeline completes, no column of [X_encoded]
    is labelled ['cp'], ['restecg'], ['slope'] or ['thal']; every column
    other than the eight the formatter leaves alone (['age'], ['sex'],
    ['restbp'], ['chol'], ['fbs'], ['thalach'], ['exang'], ['oldpeak']) has
    a numeric dtype, ['ca'] and the indicator columns included; and when
    these eight were read as numbers, every column is numeric. *)
Theorem formatted_dtypes `{NumericReader} file st :
  exec (pipeline file) initial = Ok st ->
  exists e,
    frame_of Var.X_encoded st = Some e /\
    Forall (fun p => p.1 ∉ LName <$> encoded_columns) e /\
    Forall (fun p => p.1 ∉ LName <$> untouched_columns ->
                     numeric_or_bool (dtype_of p.2) = true) e /\
    (Forall (fun c => forall s, find_col (LName c) (loaded file) = Some s ->
                                numeric_or_bool (dtype_of s) = true)
            untouched_columns ->
     all_numeric e).
Proof.
  unfold pipeline. rewrite exec_app.
  destruct (exec (data_loader file) initial) as [st0|] eqn:Hload; [|done].
  pose proof (loader_fourteen _ _ Hload) as Hlen.
  rewrite any_loader in Hload by done. injection Hload as <-.
  rewrite exec_app, any_resolver, any_formatter by done.
  destruct (gt_mask _ 0) as [m|] eqn:Hm; [|done].
  destruct (Column.to_numeric _) as [x|] eqn:Hx; [|done].
  intros [= <-]. destruct (any_see_final file m x Hlen) as (_ & _ & _ & HE).
  exists (replace_col (LName "ca") x (Run.E file)). split; [exact HE|].
  apply to_numeric_dtype in Hx. clear HE Hm.
  fourteen file Hlen.
  split; [apply final_labels|]. split; [by apply final_handled|].
  intros Hnum. by apply final_numeric.
Qed.

Lemma formatted_dtypes_example :
  exists st e,
    exec (pipeline Example.file) initial = Ok st /\
    frame_of Var.X_encoded st = Some e /\
    Forall (fun c => forall s, find_col (LName c) (loaded Example.file) = Some s ->
                               numeric_or_bool (dtype_of s) = true)
           untouched_columns /\
    Forall (fun p => p.1 ∉ LName <$> encoded_columns) e /\
    all_numeric e.
Proof.
  assert (Hrun : exists st, exec (pipeline Example.file) initial = Ok st)
    by (eexists; vm_compute; reflexivity).
  destruct Hrun as [st Hrun].
  destruct (formatted_dtypes Example.file st Hrun) as (e & He & Hlabels & _ & Hall).
  assert (Hnum : Forall (fun c => forall s,
                           find_col (LName c) (loaded Example.file) = Some s ->
                           numeric_or_bool (dtype_of s) = true)
                        untouched_columns).
  { repeat constructor; intros s Hs; vm_compute in Hs; by injection Hs as <-. }
  exists st, e. split; [exact Hrun|]. split; [exact He|]. split; [exact Hnum|].
  split; [exact Hlabels|]. by apply Hall.
Defined.

(** C6 as stated fails on a file with a marker in another column: the
    pipeline completes and ['age'] is still of dtype [object]. *)
Lemma unknown_age_stays_text :
  exists st e,
    exec (pipeline Example.file_unknown_age) initial = Ok st /\
    frame_of Var.X_encoded st = Some e /\
    ~ all_numeric e.
Proof.
  eexists _, _. split; [vm_compute; reflexivity|]. split; [vm_compute; reflexivity|].
  intros Hall. apply Forall_inv in Hall. discriminate Hall.
Qed.

(** ** In-place changes (C7) *)

Lemma untouched_series (lb : label) (s : Series) :
  lb ∉ [LName "ca"; LName "thal"] ->
  (lb, mkSeries (dtype_of s)
         ((fun v => if decide (lb ∈ [LName "ca"; LName "thal"] /\ v = VStr "?")
                    then VInt 0 else v) <$> cells s)) = (lb, s).
Proof.
  intros Hlb. f_equal. destruct s as [d l]. simpl. f_equal.
  rewrite <- (list_fmap_id l) at 2. apply list_fmap_ext. intros i v _.
  rewrite decide_False; [done|]. by intros [? _].
Qed.

Lemma filled_series (lb : label) c :
  lb ∈ [LName "ca"; LName "thal"] ->
  (lb, mkSeries (dtype_of (series_of_csv c))
         ((fun v => if decide (lb ∈ [LName "ca"; LName "thal"] /\ v = VStr "?")
                    then VInt 0 else v) <$> cells (series_of_csv c)))
  = (lb, fill_sentinel (series_of_csv c)).
Proof.
  intros Hlb. f_equal. unfold fill_sentinel. f_equal.
  change (set_where _ _ _) with (cells (fill_sentinel (series_of_csv c))).
  rewrite fill_csv_cells. apply list_fmap_ext. intros i v _. simpl.
  destruct (decide (v = VStr "?")).
  - by rewrite decide_True.
  - rewrite decide_False; [done|]. by intros [_ ?].
Qed.

Lemma resolved_loaded file :
  length file = 14%nat -> Run.df1 file = sentinels_to_zero (Run.df0 file).
Proof.
  intros Hlen. fourteen file Hlen. rewrite df1_eq, df0_eq.
  unfold sentinels_to_zero. cbn [fmap list_fmap fst snd].
  rewrite !untouched_series by not_in_list.
  rewrite !filled_series by repeat constructor.
  rewrite !untouched_series by not_in_list.
  reflexivity.
Qed.

Lemma run_to_mask `{NumericReader} file :
  length file = 14%nat ->
  exec (take 8 (pipeline file)) initial =
    match gt_mask (cells (Run.y0 file)) 0 with
    | Some m => Ok (Run.st_masked file m)
    | None => Raise TypeError
    end.
Proof.
  intros Hlen.
  change (take 8 (pipeline file)) with
    (data_loader file ++ missing_value_resolver ++ [s_X; s_y] ++ [s_encode; s_mask]).
  rewrite exec_app, any_loader, exec_app, any_resolver, exec_app, any_split by done.
  rewrite (exec_cons _ _ _ _ (any_encode file Hlen)). cbn [exec].
  rewrite any_mask by done. by destruct (gt_mask _ 0).
Qed.

Lemma pipeline_fourteen `{NumericReader} file k st :
  (2 <= k)%nat -> exec (take k (pipeline file)) initial = Ok st -> length file = 14%nat.
Proof.
  intros Hk Hrun.
  destruct k as [|[|k]]; [lia..|].
  change (take (S (S k)) (pipeline file)) with
    (data_loader file ++ take k (missing_value_resolver ++ feature_formatter)) in Hrun.
  rewrite exec_app in Hrun.
  destruct (exec (data_loader file) initial) as [st0|] eqn:Hload; [|done].
  by eapply loader_fourteen.
Qed.




(** ** C5: the grid search *)

Section search.

Import Search.

Lemma product_spec (items : dict (list value)) (c : dict value) :
  c ∈ product items <->
  Forall2 (fun (kv : string * value) (item : string * list value) =>
             kv.1 = item.1 /\ kv.2 ∈ item.2) c items.
Proof.
  revert c. induction items as [|[k vs] items IH]; intros c; simpl.
  - rewrite list_elem_of_singleton. split; [intros ->; constructor|by inversion 1].
  - rewrite list_elem_of_bind. split.
    + intros (v & Hc & Hv). apply list_elem_of_fmap in Hc as (c' & -> & Hc').
      constructor; [done|]. by apply IH.
    + intros Hall. inversion Hall as [|[k' v] item c' items' [Hk Hv] Hrest]; subst.
      simpl in *. subst k'. exists v. split; [|done].
      apply list_elem_of_fmap. exists c'. split; [done|]. by apply IH.
Qed.

Lemma product_NoDup (items : dict (list value)) :
  Forall (fun item => NoDup item.2) items -> NoDup (product items).
Proof.
  induction 1 as [|[k vs] items Hvs _ IH]; simpl.
  - apply NoDup_singleton.
  - apply NoDup_bind; [| |done].
    + intros v1 v2 c _ _ H1 H2.
      apply list_elem_of_fmap in H1 as (c1 & -> & _).
      apply list_elem_of_fmap in H2 as (c2 & [= -> _] & _). done.
    + intros v _. apply NoDup_fmap; [|done]. by intros c1 c2 [= ->].
Qed.

Lemma argmin_from_spec (l : list nat) (i bi b : nat) :
  (argmin_from i bi b l = bi /\ Forall (fun x => b <= x)%nat l) \/
  (exists k x, argmin_from i bi b l = (i + k)%nat /\ l !! k = Some x /\ (x < b)%nat /\
               Forall (fun y => x <= y)%nat l /\
               forall j y, (j < k)%nat -> l !! j = Some y -> (x < y)%nat).
Proof.
  revert i bi b. induction l as [|x l IH]; intros i bi b; simpl.
  - left. split; [done|constructor].
  - destruct (x <? b)%nat eqn:Hxb.
    + apply Nat.ltb_lt in Hxb. right.
      destruct (IH (S i) i x) as [[Hr Hall]|(k & x' & Hr & Hk & Hlt & Hall & Hfirst)].
      * exists O, x. rewrite Hr, Nat.add_0_r. repeat split; try done.
        -- by constructor.
        -- intros j y Hj. lia.
      * exists (S k), x'. rewrite Hr. repeat split; try done; try lia.
        -- constructor; [lia|done].
        -- intros [|j] y Hj; simpl; [intros [= <-]; lia|]. apply Hfirst. lia.
    + apply Nat.ltb_ge in Hxb.
      destruct (IH (S i) bi b) as [[Hr Hall]|(k & x' & Hr & Hk & Hlt & Hall & Hfirst)].
      * left. split; [done|]. by constructor.
      * right. exists (S k), x'. rewrite Hr. repeat split; try done; try lia.
        -- constructor; [lia|done].
        -- intros [|j] y Hj; simpl; [intros [= <-]; lia|]. apply Hfirst. lia.
Qed.

(** [argmin] returns the first position of the least element. *)
Lemma argmin_spec (l : list nat) :
  l <> [] ->
  exists m, l !! argmin l = Some m /\ Forall (fun y => m <= y)%nat l /\
            forall j y, (j < argmin l)%nat -> l !! j = Some y -> (m < y)%nat.
Proof.
  destruct l as [|x l]; [done|]. intros _. simpl.
  destruct (argmin_from_spec l 1 0 x)
    as [[Hr Hall]|(k & x' & Hr & Hk & Hlt & Hall & Hfirst)]; rewrite Hr.
  - exists x. repeat split; [by constructor|]. intros j y Hj. lia.
  - exists x'. repeat split; [done|constructor; [lia|done]|].
    intros [|j] y Hj; simpl; [intros [= <-]; lia|]. apply Hfirst. lia.
Qed.

Lemma rank_one (ms : list Q) (q : Q) :
  rank ms q = 1%nat <-> Forall (fun y => (y <= q)%Q) ms.
Proof.
  unfold rank. induction ms as [|y ms IH]; [by split; [constructor|]|].
  rewrite filter_cons. destruct (decide (Qle_bool y q = false)) as [Hf|Ht].
  - simpl. split; [lia|]. intros Hall. apply Forall_cons in Hall as [Hy _].
    apply Qle_bool_iff in Hy. congruence.
  - rewrite IH. split.
    + intros Hall. constructor; [|done]. apply Qle_bool_iff.
      by destruct (Qle_bool y q).
    + intros Hall. by apply Forall_cons in Hall as [_ ?].
Qed.

Lemma rank_more (ms : list Q) (q : Q) :
  (1 < rank ms q)%nat -> exists y, y ∈ ms /\ (q < y)%Q.
Proof.
  unfold rank. intros Hr.
  destruct (filter _ ms) as [|y rest] eqn:Hf; [simpl in Hr; lia|].
  assert (Hy : y ∈ filter (fun y => Qle_bool y q = false) ms) by (rewrite Hf; left).
  apply list_elem_of_filter in Hy as [Hle Hy]. exists y. split; [done|].
  apply Qnot_le_lt. intros Hq. apply Qle_bool_iff in Hq. congruence.
Qed.

Lemma greatest (ms : list Q) :
  ms <> [] -> exists q, q ∈ ms /\ Forall (fun y => (y <= q)%Q) ms.
Proof.
  induction ms as [|x ms IH]; [done|]. intros _.
  destruct ms as [|x' ms'].
  - exists x. split; [left|]. constructor; [apply Qle_refl|constructor].
  - destruct IH as (q & Hq & Hall); [done|].
    destruct (Qlt_le_dec q x) as [Hlt|Hle].
    + exists x. split; [left|]. constructor; [apply Qle_refl|].
      eapply Forall_impl; [exact Hall|]. intros y Hy. simpl in Hy.
      eapply Qle_trans; [exact Hy|]. by apply Qlt_le_weak.
    + exists q. split; [by right|]. by constructor.
Qed.

(** The position [rankdata] and [argmin] select: a greatest mean, and the
    first of them. *)
Lemma first_greatest (ms : list Q) :
  ms <> [] ->
  exists q, ms !! argmin (rank ms <$> ms) = Some q /\
            Forall (fun y => (y <= q)%Q) ms /\
            forall j y, (j < argmin (rank ms <$> ms))%nat -> ms !! j = Some y -> (y < q)%Q.
Proof.
  intros Hne.
  destruct (argmin_spec (rank ms <$> ms)) as (r & Hr & Hmin & Hfirst).
  { by destruct ms. }
  rewrite list_lookup_fmap in Hr.
  destruct (ms !! argmin (rank ms <$> ms)) as [q|] eqn:Hq; [|done].
  injection Hr as Hr. exists q. split; [done|].
  assert (Hone : r = 1%nat).
  { destruct (greatest ms Hne) as (g & Hg & Hall).
    apply rank_one in Hall.
    assert (r <= rank ms g)%nat.
    { eapply (proj1 (Forall_forall _ _) Hmin). apply list_elem_of_fmap. eauto. }
    assert (1 <= r)%nat by (rewrite <- Hr; unfold rank; lia). lia. }
  assert (Hall : Forall (fun y => (y <= q)%Q) ms) by (apply rank_one; congruence).
  split; [done|].
  intros j y Hj Hy.
  assert (Hrj : (r < rank ms y)%nat).
  { apply (Hfirst j); [done|]. by rewrite list_lookup_fmap, Hy. }
  destruct (rank_more ms y) as (z & Hz & Hlt); [lia|].
  eapply Qlt_le_trans; [exact Hlt|].
  by apply (proj1 (Forall_forall _ _) Hall).
Qed.

Variable fold_score : dict value -> nat -> Q.

Lemma sorted_grid :
  merge_sort key_le param_grid =
  [("gamma", [VInt 0; VFloat (Dec 25 2); VFloat (Dec 5 1); VFloat (Dec 10 1)]);
   ("learning_rate", [VFloat (Dec 1 1); VFloat (Dec 1 2); VFloat (Dec 5 2)]);
   ("max_depth", [VInt 3; VInt 4; VInt 5; VInt 6; VInt 7; VInt 8]);
   ("n_estimators", [VInt 50; VInt 100; VInt 150; VInt 200]);
   ("reg_lambda", [VInt 0; VFloat (Dec 10 1); VFloat (Dec 100 1); VFloat (Dec 1000 1)])]%string.
Proof. vm_compute. reflexivity. Qed.


End search.

(** ** C9: the learning rate of the optimized model *)

Import Model.

(** C9.  Both constructions of the optimized model pass 0.1 under the
    keyword [learn_rate], which is not a parameter of the constructor and
    ends up among the extra keywords; [learning_rate] is not passed, so
    the learning rate of the model is the library's default, whatever this
    is. *)
Theorem learn_rate_is_not_learning_rate (default : value) :
  Forall (fun keywords =>
            lookup_kw "learn_rate" keywords = Some (VFloat (Dec 1 1)) /\
            ("learn_rate"%string ∉ signature) /\
            lookup_kw "learning_rate" keywords = None /\
            lookup_kw "learn_rate" (kwargs (construct keywords)) = Some (VFloat (Dec 1 1)) /\
            lookup_kw "learning_rate" (params (construct keywords)) = None /\
            learning_rate default (construct keywords) = default)
         [optimized; single_tree].
Proof.
  repeat constructor; try reflexivity;
    apply (bool_decide_unpack _); by vm_compute.
Qed.

(** * Further properties of the script *)

Import Inspect Facts.

(** ** Tables on a growing heap *)

Lemma series_at_app h h' l x :
  series_at h l = Some x -> series_at (h ++ h') l = Some x.
Proof.
  unfold series_at. destruct (h !! l) as [o|] eqn:Hl; [|done].
  rewrite lookup_app_l by (by eapply lookup_lt_Some). by rewrite Hl.
Qed.

Lemma frame_at_app h h' f (t : frame) :
  frame_at h f = Some t -> frame_at (h ++ h') f = Some t.
Proof.
  unfold frame_at. destruct (h !! f) as [o|] eqn:Hf; [|done].
  rewrite lookup_app_l by (by eapply lookup_lt_Some). rewrite Hf.
  destruct o as [| |cols]; try done.
  intros H. apply mapM_Some in H. apply mapM_Some.
  eapply Forall2_impl; [exact H|]. intros [c l] y. simpl.
  destruct (series_at h l) as [x|] eqn:Hx; [|done].
  by rewrite (series_at_app _ h' _ _ Hx).
Qed.

Lemma frame_of_app x st st' h' (t : frame) :
  vars st' = vars st -> heap st' = heap st ++ h' ->
  frame_of x st = Some t -> frame_of x st' = Some t.
Proof.
  unfold frame_of. intros -> ->. destruct (x (vars st)) as [f|]; [|done]. simpl.
  apply frame_at_app.
Qed.

Lemma series_of_app x st st' h' s :
  vars st' = vars st -> heap st' = heap st ++ h' ->
  series_of x st = Some s -> series_of x st' = Some s.
Proof.
  unfold series_of. intros -> ->. destruct (x (vars st)) as [f|]; [|done]. simpl.
  apply series_at_app.
Qed.

(** ** Expressions that change nothing *)


Lemma read_only_ret {A} (a : A) : read_only (mret a).
Proof. intros st b st' [= _ <-]. split; [done|]. exists []. by rewrite app_nil_r. Qed.

Lemma read_only_raise {A} e : read_only (@raise A e).
Proof. by intros st b st'. Qed.

Lemma read_only_bind {A B} (m : M A) (k : A -> M B) :
  read_only m -> (forall a, read_only (k a)) -> read_only (m ≫= k).
Proof.
  intros Hm Hk st b st'. unfold mbind, M_bind.
  destruct (m st) as [[a st1]|e] eqn:Hrun; [|done]. intros Hrun'.
  destruct (Hm _ _ _ Hrun) as [Hv1 [t1 H1]].
  destruct (Hk _ _ _ _ Hrun') as [Hv2 [t2 H2]].
  split; [congruence|]. exists (t1 ++ t2). by rewrite H2, H1, app_assoc.
Qed.

Lemma read_only_read l : read_only (read l).
Proof.
  intros st o st'. unfold read. destruct (heap st !! l); [|done].
  intros [= _ <-]. split; [done|]. exists []. by rewrite app_nil_r.
Qed.

Lemma read_only_alloc o : read_only (alloc o).
Proof. intros st l st' [= _ <-]. split; [done|]. by eexists. Qed.

Lemma read_only_alloc_many os : read_only (alloc_many os).
Proof. intros st l st' [= _ <-]. split; [done|]. by eexists. Qed.

Lemma read_only_get_var x : read_only (get_var x).
Proof.
  intros st l st'. unfold get_var. destruct (x (vars st)); [|done].
  intros [= _ <-]. split; [done|]. exists []. by rewrite app_nil_r.
Qed.

Lemma read_only_mapM {A B} (f : A -> M B) (l : list A) :
  (forall x, read_only (f x)) -> read_only (mapM f l).
Proof.
  intros Hf. induction l as [|x l IH]; simpl.
  - apply read_only_ret.
  - apply read_only_bind; [apply Hf|]. intros b.
    apply read_only_bind; [apply IH|]. intros k. apply read_only_ret.
Qed.

Ltac read_only_tac :=
  repeat first
    [ apply read_only_ret | apply read_only_raise | apply read_only_read
    | apply read_only_alloc | apply read_only_alloc_many
    | apply read_only_get_var
    | apply read_only_mapM; intros ?
    | apply read_only_bind; [|intros ?]
    | match goal with |- read_only (match ?x with _ => _ end) => destruct x end
    | match goal with |- read_only (if ?x then _ else _) => destruct x end ].

Ltac unfold_inspect :=
  unfold shown, head_of, y_head, dtypes_of, y_dtypes, unique_of, y_unique,
    count_missing, missing_rows, len_df, cp_dummies_head,
    unique, dtypes, series_dtype, head_frame, head_series, series_or, loc_rows, len,
    get_dummies, getitem, series_eq, new_frame, read_frame, get_frame, get_series,
    get_mask.

Lemma expressions_read_only : Forall (fun e => read_only e) expressions.
Proof.
  unfold expressions. repeat apply Forall_cons_2; try apply Forall_nil_2;
    unfold_inspect; read_only_tac.
Qed.

(** ** From a table to the objects that hold it *)

Lemma frame_at_inv (h : list obj) f (t : frame) :
  frame_at h f = Some t ->
  exists cols,
    h !! f = Some (OFrame cols) /\
    Forall2 (fun (p : label * nat) (y : label * Series) =>
               y.1 = p.1 /\ h !! p.2 = Some (OSeries y.2)) cols t.
Proof.
  unfold frame_at. destruct (h !! f) as [[| |cols]|]; try done.
  intros H. exists cols. split; [done|]. apply mapM_Some in H.
  eapply Forall2_impl; [exact H|]. intros [c l] [c' x]. simpl.
  unfold series_at. destruct (h !! l) as [[x'| |]|]; simpl; try done.
  by intros [= -> ->].
Qed.

Lemma find_col_resolve (h : list obj) (cols : list (label * nat)) (t : frame) c :
  Forall2 (fun (p : label * nat) (y : label * Series) =>
             y.1 = p.1 /\ h !! p.2 = Some (OSeries y.2)) cols t ->
  match find_col c t with
  | Some x => exists l, find_col c cols = Some l /\ h !! l = Some (OSeries x)
  | None => find_col c cols = None
  end.
Proof.
  induction 1 as [|[c1 l] [c2 x] cols t [Hc Hl] _ IH]; simpl; [done|].
  simpl in Hc, Hl. subst c2. destruct (decide (c1 = c)); [|exact IH].
  by exists l.
Qed.

Lemma frame_at_new h (cols : frame) t :
  frame_at (h ++ (OSeries <$> cols.*2) ++
              OFrame (zip cols.*1 (seq (length h) (length cols))) :: t)
           (length h + length cols) = Some cols.
Proof.
  unfold frame_at.
  rewrite lookup_app_r by lia.
  rewrite lookup_app_r by (rewrite length_fmap, length_fmap; lia).
  rewrite !length_fmap.
  replace (length h + length cols - length h - length cols)%nat with O by lia.
  simpl. apply mapM_Some, resolve_block.
  intros i x Hx. rewrite lookup_app_r by lia.
  replace (length h + i - length h)%nat with i by lia.
  rewrite lookup_app_l by (rewrite length_fmap; by eapply lookup_lt_Some).
  by rewrite list_lookup_fmap, Hx.
Qed.

(** ** Running the displayed expressions *)

Lemma getitem_run st f cols c :
  heap st !! f = Some (OFrame cols) ->
  getitem f c st =
    match find_col c cols with
    | Some l => Ok (l, st)
    | None => Raise KeyError
    end.
Proof.
  intros Hf. unfold_ops. rewrite Hf. simpl. by destruct (find_col c cols).
Qed.

Lemma series_eq_run st s x v :
  heap st !! s = Some (OSeries x) ->
  series_eq s v st =
    Ok (length (heap st), mkState (heap st ++ [OMask (eq_mask (cells x) v)]) (vars st)).
Proof. intros Hs. unfold_ops. by rewrite Hs. Qed.

Lemma series_or_run st a b m n :
  heap st !! a = Some (OMask m) ->
  heap st !! b = Some (OMask n) ->
  series_or a b st =
    Ok (length (heap st), mkState (heap st ++ [OMask (or_masks m n)]) (vars st)).
Proof.
  intros Ha Hb. unfold series_or. unfold_ops. rewrite Ha. simpl. by rewrite Hb.
Qed.

Lemma loc_rows_run st f mask m (t : frame) :
  heap st !! mask = Some (OMask m) ->
  frame_at (heap st) f = Some t ->
  Forall (fun p : label * Series => length (cells p.2) = length m) t ->
  loc_rows f mask st =
    new_frame (prod_map id (fun s => mkSeries (dtype_of s) (rows_where m (cells s))) <$> t)
              st.
Proof.
  intros Hm Hf Hlen. unfold loc_rows, get_mask, read.
  unfold mbind at 1, M_bind. unfold mbind at 1, M_bind. rewrite Hm. simpl.
  unfold mbind at 1, M_bind. rewrite (read_frame_run _ _ _ Hf).
  by rewrite decide_True.
Qed.

Lemma len_run st f (t : frame) :
  frame_at (heap st) f = Some t ->
  len f st = Ok (match t with [] => O | p :: _ => length (cells p.2) end, st).
Proof.
  intros Hf. unfold len. unfold mbind, M_bind. by rewrite (read_frame_run _ _ _ Hf).
Qed.

(** ** Masks *)

Lemma or_masks_length m n : length m = length n -> length (or_masks m n) = length m.
Proof.
  revert n. induction m as [|a m IH]; intros [|b n]; simpl; try done.
  intros [= Hlen]. by rewrite IH.
Qed.


Lemma rows_where_count {A} (a b : list value) (l : list A) :
  length a = length l -> length b = length l ->
  length (rows_where (or_masks (eq_mask a (VStr "?")) (eq_mask b (VStr "?"))) l)
  = length (filter marked (zip a b)).
Proof.
  revert b l. induction a as [|x a IH]; intros [|y b] [|z l]; simpl; try done.
  intros [= Ha] [= Hb]. rewrite filter_cons.
  destruct (py_eqb x (VStr "?")) eqn:Hx; simpl.
  - apply is_sentinel in Hx. rewrite decide_True by (by left). simpl. f_equal. by apply IH.
  - destruct (py_eqb y (VStr "?")) eqn:Hy; simpl.
    + apply is_sentinel in Hy. rewrite decide_True by (by right). simpl. f_equal.
      by apply IH.
    + rewrite decide_False; [by apply IH|].
      intros [H|H]; simpl in H; apply is_sentinel in H; congruence.
Qed.

(** The count the script displays, from any state in which [df] is a table
    with the two columns. *)
Lemma count_missing_run st (t : frame) a b n :
  frame_of Var.df st = Some t ->
  find_col (LName "ca") t = Some a ->
  find_col (LName "thal") t = Some b ->
  Forall (fun p : label * Series => length (cells p.2) = n) t ->
  exists st',
    count_missing st =
      Ok (length (filter marked (zip (cells a) (cells b))), st').
Proof.
  unfold frame_of. intros Hdf Ha Hb Hn.
  destruct (Var.df (vars st)) as [f|] eqn:Hv; [|done]. simpl in Hdf.
  destruct (frame_at_inv _ _ _ Hdf) as (cols & Hf & Hcols).
  pose proof (find_col_resolve _ _ _ (LName "ca") Hcols) as Hca. rewrite Ha in Hca.
  destruct Hca as (la & Hla & Hxa).
  pose proof (find_col_resolve _ _ _ (LName "thal") Hcols) as Hth. rewrite Hb in Hth.
  destruct Hth as (lb & Hlb & Hxb).
  assert (Hf' : (f < length (heap st))%nat) by (by eapply lookup_lt_Some).
  assert (Hxb' : (lb < length (heap st))%nat) by (by eapply lookup_lt_Some).
  assert (Hna : length (cells a) = n).
  { clear -Ha Hn. induction Hn as [|[c x] t Hx _ IH]; simpl in *; [done|].
    destruct (decide _); [by injection Ha as <-|auto]. }
  assert (Hnb : length (cells b) = n).
  { clear -Hb Hn. induction Hn as [|[c x] t Hx _ IH]; simpl in *; [done|].
    destruct (decide _); [by injection Hb as <-|auto]. }
  set (ma := eq_mask (cells a) (VStr "?")).
  set (mb := eq_mask (cells b) (VStr "?")).
  set (h3 := heap st ++ [OMask ma; OMask mb; OMask (or_masks ma mb)]).
  set (sel := prod_map id (fun s => mkSeries (dtype_of s)
                                      (rows_where (or_masks ma mb) (cells s))) <$> t).
  assert (Hlen : length (or_masks ma mb) = n).
  { rewrite or_masks_length; unfold ma, mb; rewrite !eq_mask_length; congruence. }
  exists (mkState (h3 ++ (OSeries <$> sel.*2) ++
                     [OFrame (zip sel.*1 (seq (length h3) (length sel)))]) (vars st)).
  unfold count_missing, missing_rows, get_var.
  repeat (unfold mbind at 1, M_bind at 1).
  rewrite Hv. cbv beta iota. rewrite Hv. cbv beta iota.
  rewrite (getitem_run _ _ _ _ Hf), Hla. cbv beta iota.
  rewrite (series_eq_run _ _ _ _ Hxa). cbv beta iota. cbn [vars heap]. rewrite Hv.
  cbv beta iota.
  rewrite (getitem_run _ f cols) by (cbn [heap]; by rewrite lookup_app_l).
  rewrite Hlb. cbv beta iota.
  rewrite (series_eq_run _ _ b) by (cbn [heap]; by rewrite lookup_app_l).
  cbv beta iota. cbn [vars heap]. fold ma mb.
  rewrite (series_or_run _ _ _ ma mb); cbn [heap].
  2:{ rewrite <- app_assoc. cbn [app]. by rewrite list_lookup_middle. }
  2:{ rewrite length_app. simpl. rewrite Nat.add_1_r.
      rewrite lookup_app_r by (rewrite length_app; simpl; lia).
      rewrite length_app. simpl.
      by replace (S (length (heap st)) - (length (heap st) + 1))%nat with O by lia. }
  cbv beta iota.
  rewrite <- !app_assoc. cbn [app]. fold h3.
  rewrite (loc_rows_run _ _ _ (or_masks ma mb) t); cbn [heap].
  2:{ unfold h3. change [OMask ma; OMask mb; OMask (or_masks ma mb)]
        with ([OMask ma; OMask mb] ++ [OMask (or_masks ma mb)]).
      rewrite app_assoc. by rewrite list_lookup_middle. }
  2:{ by apply frame_at_app. }
  2:{ rewrite Hlen. exact Hn. }
  fold sel. rewrite new_frame_run. cbv beta iota. cbn [heap vars].
  rewrite (len_run _ _ sel) by (cbn [heap]; apply frame_at_new).
  f_equal. f_equal.
  destruct t as [|[c x] t]; [done|]. simpl.
  apply Forall_cons in Hn as [Hx _]. simpl in Hx.
  apply rows_where_count; congruence.
Qed.

Lemma len_df_run st (t : frame) :
  frame_of Var.df st = Some t ->
  len_df st = Ok (match t with [] => O | p :: _ => length (cells p.2) end, st).
Proof.
  unfold frame_of, len_df, get_var. intros Hdf. unfold mbind at 1, M_bind.
  destruct (Var.df (vars st)) as [f|]; [|done]. simpl in Hdf.
  by apply len_run.
Qed.


(** ** [unique] *)

Lemma isna_py_eqb a b : isna a = true -> py_eqb a b = false /\ py_eqb b a = false.
Proof.
  destruct a as [n|[|m e]|s]; try discriminate. intros _.
  by destruct b as [n|[|m e]|s].
Qed.

Lemma same_value_sym a b : same_value a b = same_value b a.
Proof. unfold same_value. by rewrite py_eqb_sym, (andb_comm (isna a)). Qed.

Lemma same_value_trans a b c :
  same_value a b = true -> same_value b c = true -> same_value a c = true.
Proof.
  unfold same_value. intros Hab Hbc.
  apply orb_true_iff in Hab as [Hab|Hab]; apply orb_true_iff in Hbc as [Hbc|Hbc];
    apply orb_true_iff.
  - left. by eapply py_eqb_trans.
  - apply andb_true_iff in Hbc as [Hb _].
    destruct (isna_py_eqb b a Hb) as [_ H]. congruence.
  - apply andb_true_iff in Hab as [_ Hb].
    destruct (isna_py_eqb b c Hb) as [H _]. congruence.
  - right. apply andb_true_iff in Hab as [Ha _]. apply andb_true_iff in Hbc as [_ Hc].
    by rewrite Ha, Hc.
Qed.

Lemma same_value_refl a : same_value a a = true.
Proof.
  unfold same_value. destruct (isna a) eqn:Ha; [by rewrite orb_true_r|].
  by rewrite py_eqb_refl.
Qed.

Lemma unique_values_subset l x : x ∈ unique_values l -> x ∈ l.
Proof.
  revert x. induction l as [|a l IH]; intros x; simpl; [done|].
  rewrite elem_of_cons. intros [->|Hx]; [left|right].
  apply list_elem_of_filter in Hx as [_ Hx]. by apply IH.
Qed.

Lemma unique_values_count v l :
  Exists (fun w => same_value v w = true) l ->
  length (filter (fun w => same_value v w = true) (unique_values l)) = 1%nat.
Proof.
  induction l as [|a l IH]; intros Hex; [by inversion Hex|]. simpl.
  rewrite filter_cons. destruct (decide (same_value v a = true)) as [Hva|Hva].
  - rewrite filter_filter_none; [done|].
    intros w Haw Hvw. rewrite same_value_sym in Hva.
    by rewrite (same_value_trans a v w Hva Hvw) in Haw.
  - rewrite filter_filter_keep.
    + apply IH. by inversion Hex.
    + intros w Hvw. destruct (same_value a w) eqn:Haw; [|done].
      destruct Hva. rewrite same_value_sym in Haw. by apply (same_value_trans v w a).
Qed.

Lemma unique_values_distinct l : distinct_values l (unique_values l).
Proof.
  split; [apply unique_values_subset|].
  intros v Hv. apply unique_values_count. apply Exists_exists.
  exists v. split; [done|apply same_value_refl].
Qed.

Lemma distinct_values_elem l u v :
  distinct_values l u -> v ∈ l -> exists w, w ∈ u /\ same_value v w = true.
Proof.
  intros [_ Hone] Hv. specialize (Hone v Hv).
  destruct (filter _ u) as [|w rest] eqn:Hf; [done|].
  assert (Hw : w ∈ filter (fun w => same_value v w = true) u) by (rewrite Hf; left).
  apply list_elem_of_filter in Hw as [? ?]. by exists w.
Qed.

Lemma same_value_sentinel w : same_value (VStr "?") w = true -> w = VStr "?".
Proof.
  unfold same_value. cbn [isna andb]. rewrite orb_false_r, py_eqb_sym.
  apply is_sentinel.
Qed.

Lemma unique_of_run x st (t : frame) c s :
  frame_of x st = Some t ->
  find_col (LName c) t = Some s ->
  unique_of x c st = Ok (unique_values (cells s), st).
Proof.
  unfold frame_of, unique_of, get_var. intros Hdf Hc. unfold mbind at 1, M_bind.
  destruct (x (vars st)) as [f|]; [|done]. simpl in Hdf.
  destruct (frame_at_inv _ _ _ Hdf) as (cols & Hf & Hcols).
  pose proof (find_col_resolve _ _ _ (LName c) Hcols) as Hl. rewrite Hc in Hl.
  destruct Hl as (l & Hl & Hs).
  unfold mbind at 1, M_bind. rewrite (getitem_run _ _ _ _ Hf), Hl.
  unfold unique. unfold_ops. by rewrite Hs.
Qed.

Lemma dtypes_of_run x st (t : frame) :
  frame_of x st = Some t ->
  dtypes_of x st = Ok (prod_map id dtype_of <$> t, st).
Proof.
  unfold frame_of, dtypes_of, dtypes, get_var. intros Hdf. unfold mbind at 1, M_bind.
  destruct (x (vars st)) as [f|]; [|done]. simpl in Hdf.
  unfold mbind, M_bind. by rewrite (read_frame_run _ _ _ Hdf).
Qed.

Lemma y_dtypes_run st s :
  series_of Var.y st = Some s -> y_dtypes st = Ok (dtype_of s, st).
Proof.
  unfold series_of, series_at, y_dtypes, series_dtype. intros Hy. unfold_ops.
  destruct (Var.y (vars st)) as [l|]; [|done]. simpl in *.
  by destruct (heap st !! l) as [[x| |]|]; simplify_eq.
Qed.

(** ** The loader on any file *)

Lemma s_read_run file :
  s_read file initial =
    Ok (tt, mkState ((OSeries <$> (series_of_csv <$> file)) ++
                       [OFrame (zip (LPos <$> seq 0 (length file))
                                    (seq 0 (length file)))])
                    (Var.set_df (length file) Var.none)).
Proof.
  unfold s_read, read_csv. unfold mbind at 1, M_bind. rewrite new_frame_run.
  unfold set_var. cbn [heap vars initial length app].
  assert (Hlen : length (zip (LPos <$> seq 0 (length file)) (series_of_csv <$> file))
                 = length file).
  { rewrite length_zip, !length_fmap, length_seq. lia. }
  rewrite Hlen.
  rewrite snd_zip by (rewrite !length_fmap, length_seq; lia).
  rewrite fst_zip by (rewrite !length_fmap, length_seq; lia).
  reflexivity.
Qed.

Lemma loader_short file :
  length file <> 14%nat -> exec (data_loader file) initial = Raise ValueError.
Proof.
  intros Hlen. unfold data_loader. cbn [exec]. rewrite s_read_run.
  unfold s_columns, set_columns, get_var, get_frame, read.
  unfold mbind, M_bind. cbn [vars Var.set_df Var.df heap].
  rewrite list_lookup_middle by (by rewrite !length_fmap).
  cbn [mret M_ret].
  rewrite length_zip, !length_fmap, length_seq.
  destruct (decide _) as [Heq|Hne]; [|done].
  cbn in Heq. lia.
Qed.

Lemma see_read file :
  frame_of Var.df
    (mkState ((OSeries <$> (series_of_csv <$> file)) ++
                [OFrame (zip (LPos <$> seq 0 (length file)) (seq 0 (length file)))])
             (Var.set_df (length file) Var.none))
  = Some (zip (LPos <$> seq 0 (length file)) (series_of_csv <$> file)).
Proof.
  unfold frame_of. cbn [vars heap Var.set_df Var.df mbind option_bind].
  set (cols := zip (LPos <$> seq 0 (length file)) (series_of_csv <$> file)).
  assert (Hlen : length cols = length file).
  { unfold cols. rewrite length_zip, !length_fmap, length_seq. lia. }
  pose proof (frame_at_new [] cols []) as Hnew.
  unfold cols in Hnew at 1 2.
  rewrite snd_zip in Hnew by (rewrite !length_fmap, length_seq; lia).
  rewrite fst_zip in Hnew by (rewrite !length_fmap, length_seq; lia).
  rewrite Hlen in Hnew. exact Hnew.
Qed.


(** ** How the pipeline ends *)

Lemma py_gtb_text v : py_gtb v 0 = None <-> is_text v.
Proof. destruct v as [n|[|m e]|s]; simpl; split; try done. Qed.

Lemma gt_mask_text l :
  gt_mask l 0 = if decide (Exists is_text l) then None else gt_mask l 0.
Proof.
  destruct (decide _) as [Hex|_]; [|done].
  unfold gt_mask. induction Hex as [v l Hv|v l _ IH]; simpl.
  - apply py_gtb_text in Hv. by rewrite Hv.
  - rewrite IH. by destruct (py_gtb v 0).
Qed.

Lemma gt_mask_numbers l :
  ~ Exists is_text l -> is_Some (gt_mask l 0).
Proof.
  unfold gt_mask. intros Hno. apply mapM_is_Some.
  apply Forall_forall. intros v Hv. simpl.
  destruct (py_gtb v 0) eqn:Hgt; [by eexists|].
  destruct Hno. apply Exists_exists. exists v. split; [done|]. by apply py_gtb_text.
Qed.

Section outcome.

Context `{NumericReader}.

Lemma to_number_filled v :
  to_number (if decide (v = VStr "?") then VInt 0 else v) = None <-> unreadable v.
Proof.
  unfold unreadable. destruct (decide (v = VStr "?")) as [->|Hv]; simpl.
  - split; [done|]. by intros [? _].
  - split; [done|]. by intros [_ ?].
Qed.

Lemma to_numeric_unreadable c :
  Exists unreadable (cells (series_of_csv c)) ->
  Column.to_numeric (fill_sentinel (series_of_csv c)) = None.
Proof.
  intros Hex. unfold Column.to_numeric.
  destruct c as [l|l|l].
  - apply Exists_exists in Hex as (v & Hv & _ & Hnone). simpl in Hv.
    apply list_elem_of_fmap in Hv as (n & -> & _). done.
  - apply Exists_exists in Hex as (v & Hv & _ & Hnone). simpl in Hv.
    apply list_elem_of_fmap in Hv as (n & -> & _). done.
  - change (dtype_of (fill_sentinel (series_of_csv (TextColumn l)))) with Object.
    cbv beta iota. rewrite fill_csv_cells.
    assert (Hnone : mapM Column.to_number
              ((fun v => if decide (v = VStr "?") then VInt 0 else v)
                 <$> cells (series_of_csv (TextColumn l))) = None).
    { apply eq_None_not_Some. rewrite mapM_is_Some. intros Hall.
      apply Exists_exists in Hex as (v & Hv & Hbad).
      rewrite Forall_fmap in Hall. rewrite Forall_forall in Hall.
      specialize (Hall v Hv). simpl in Hall.
      apply to_number_filled in Hbad. rewrite Hbad in Hall. by destruct Hall. }
    by rewrite Hnone.
Qed.

Lemma to_numeric_readable c :
  ~ Exists unreadable (cells (series_of_csv c)) ->
  is_Some (Column.to_numeric (fill_sentinel (series_of_csv c))).
Proof.
  intros Hno. unfold Column.to_numeric.
  destruct c as [l|l|l]; [by eexists..|].
  change (dtype_of (fill_sentinel (series_of_csv (TextColumn l)))) with Object.
  cbv beta iota. rewrite fill_csv_cells.
  assert (Hsome : is_Some (mapM Column.to_number
            ((fun v => if decide (v = VStr "?") then VInt 0 else v)
               <$> cells (series_of_csv (TextColumn l))))).
  { apply mapM_is_Some. rewrite Forall_fmap. apply Forall_forall. intros v Hv. simpl.
    destruct (Column.to_number _) eqn:Hn; [by eexists|].
    destruct Hno. apply Exists_exists. exists v. split; [done|].
    by apply to_number_filled. }
  destruct Hsome as [k ->]. by eexists.
Qed.

Lemma fields_fourteen (c0 c1 c2 c3 c4 c5 c6 c7 c8 c9 c10 c11 c12 c13 : csv_column) :
  let file := [c0; c1; c2; c3; c4; c5; c6; c7; c8; c9; c10; c11; c12; c13] in
  Run.y0 file = series_of_csv c13 /\
  Run.col "ca" (Run.df1 file) = fill_sentinel (series_of_csv c11) /\
  nth_column 13 file = cells (series_of_csv c13) /\
  nth_column 11 file = cells (series_of_csv c11).
Proof. done. Qed.


End outcome.

(** ** The displayed checks of the missing values *)

Lemma find_col_length (t : frame) c x n :
  Forall (fun p : label * Series => length (cells p.2) = n) t ->
  find_col c t = Some x -> length (cells x) = n.
Proof.
  intros Hn. induction Hn as [|[c' y] t Hy _ IH]; simpl; [done|].
  destruct (decide _); [by intros [= <-]|auto].
Qed.

Lemma no_marked a b :
  Forall (fun v => v <> VStr "?") a -> Forall (fun v => v <> VStr "?") b ->
  filter marked (zip a b) = [].
Proof.
  intros Ha. revert b. induction Ha as [|x a Hx _ IH]; intros b Hb; [done|].
  destruct Hb as [|y b Hy Hb]; [done|]. simpl. rewrite filter_cons.
  rewrite decide_False by (by intros [?|?]). by apply IH.
Qed.

Lemma rows_resolved (c0 c1 c2 c3 c4 c5 c6 c7 c8 c9 c10 c11 c12 c13 : csv_column) n :
  let file := [c0; c1; c2; c3; c4; c5; c6; c7; c8; c9; c10; c11; c12; c13] in
  Forall (fun c => csv_rows c = n) file ->
  Forall (fun p : label * Series => length (cells p.2) = n) (Run.df1 file).
Proof.
  intros file Hrows. unfold file in *. rewrite df1_eq.
  repeat (apply Forall_cons in Hrows as [? Hrows]).
  repeat constructor; cbn [snd];
    rewrite ?fill_csv_cells, ?length_fmap; by rewrite series_rows.
Qed.

(** X6.  On a file of fourteen columns of [n] rows,
    [len(df.loc[(df['ca'] == '?') | (df['thal'] == '?')])] evaluated after
    the loader is the number of rows that hold the marker in ['ca'] or in
    ['thal'], the same expression evaluated after the resolver is 0, and
    [len(df)] is [n] both times. *)
Theorem missing_rows_counted file n :
  length file = 14%nat ->
  Forall (fun c => csv_rows c = n) file ->
  exists st0 st1 t0 a b,
    exec (data_loader file) initial = Ok st0 /\
    exec missing_value_resolver st0 = Ok st1 /\
    frame_of Var.df st0 = Some t0 /\
    column "ca" t0 = Some a /\
    column "thal" t0 = Some b /\
    (exists st', count_missing st0 = Ok (length (filter marked (zip a b)), st')) /\
    (exists st', count_missing st1 = Ok (O, st')) /\
    len_df st0 = Ok (n, st0) /\
    len_df st1 = Ok (n, st1).
Proof.
  intros Hlen Hrows.
  pose proof (any_loader file Hlen) as Hload.
  pose proof (any_resolver file Hlen) as Hres.
  pose proof (any_see_loaded file Hlen) as H0.
  pose proof (any_see_filled file Hlen) as H1.
  exists (Run.st_loaded file), (Run.st_filled file), (Run.df0 file).
  fourteen file Hlen.
  match goal with
  | |- context [Run.df0 [?c0; ?c1; ?c2; ?c3; ?c4; ?c5; ?c6; ?c7; ?c8; ?c9; ?c10; ?c11; ?c12; ?c13]] =>
      pose proof (rows_loaded c0 c1 c2 c3 c4 c5 c6 c7 c8 c9 c10 c11 c12 c13 n Hrows) as Hn0;
      pose proof (rows_resolved c0 c1 c2 c3 c4 c5 c6 c7 c8 c9 c10 c11 c12 c13 n Hrows) as Hn1;
      exists (cells (series_of_csv c11)), (cells (series_of_csv c12))
  end.
  split; [exact Hload|]. split; [exact Hres|]. split; [exact H0|].
  split; [reflexivity|]. split; [reflexivity|].
  split; [|split; [|split]].
  - eapply (count_missing_run _ _ _ _ n H0); [reflexivity|reflexivity|exact Hn0].
  - destruct (count_missing_run _ _ _ _ n H1 eq_refl eq_refl Hn1) as [st' Hc].
    exists st'. rewrite Hc. by rewrite no_marked by apply fill_no_sentinel.
  - rewrite (len_df_run _ _ H0). apply Forall_cons in Hn0 as [Hn0 _]. simpl in Hn0.
    cbn [Run.df0 loaded zip zip_with fmap list_fmap column_names]. simpl.
    by rewrite Hn0.
  - rewrite (len_df_run _ _ H1). apply Forall_cons in Hn1 as [Hn1 _]. simpl in Hn1.
    by rewrite <- Hn1.
Qed.

Lemma missing_rows_counted_example :
  (length Example.file = 14%nat /\ Forall (fun c => csv_rows c = 3%nat) Example.file) /\
  exists st0 st1 st' st'',
    exec (data_loader Example.file) initial = Ok st0 /\
    exec missing_value_resolver st0 = Ok st1 /\
    count_missing st0 = Ok (2%nat, st') /\
    count_missing st1 = Ok (O, st'') /\
    len_df st0 = Ok (3%nat, st0) /\
    len_df st1 = Ok (3%nat, st1).
Proof.
  assert (Hrows : Forall (fun c => csv_rows c = 3%nat) Example.file)
    by (by repeat constructor).
  split; [by split|].
  destruct (missing_rows_counted Example.file 3 eq_refl Hrows)
    as (st0 & st1 & t0 & a & b & Hload & Hres & H0 & Ha & Hb &
        [st' Hc0] & [st'' Hc1] & Hl0 & Hl1).
  assert (Hcount : length (filter marked (zip a b)) = 2%nat).
  { clear -Hload H0 Ha Hb. vm_compute in Hload. injection Hload as <-.
    vm_compute in H0. injection H0 as <-.
    vm_compute in Ha. injection Ha as <-. vm_compute in Hb. injection Hb as <-.
    vm_compute. reflexivity. }
  rewrite Hcount in Hc0.
  exists st0, st1, st', st''.
  split; [exact Hload|]. split; [exact Hres|]. split; [exact Hc0|].
  split; [exact Hc1|]. split; [exact Hl0|exact Hl1].
Defined.

(** ** [unique] before and after the fill *)

Lemma marker_is_text c :
  VStr "?" ∈ cells (series_of_csv c) -> exists l, c = TextColumn l.
Proof.
  destruct c as [l|l|l]; simpl; [| |by eexists];
    intros Hin; apply list_elem_of_fmap in Hin as (x & Hx & _); discriminate.
Qed.

Lemma unique_filled c u :
  distinct_values (cells (fill_sentinel (series_of_csv c))) u ->
  (VStr "?" ∉ u) /\ (VStr "?" ∈ cells (series_of_csv c) -> VInt 0 ∈ u).
Proof.
  intros Hu. split.
  - intros Hin. apply Hu in Hin.
    by apply (proj1 (Forall_forall _ _) (fill_no_sentinel c)) in Hin.
  - intros Hin. destruct (marker_is_text _ Hin) as [l ->].
    assert (H0 : VInt 0 ∈ cells (fill_sentinel (series_of_csv (TextColumn l)))).
    { rewrite fill_csv_cells. apply list_elem_of_fmap. exists (VStr "?").
      split; [|done]. by rewrite decide_True. }
    destruct (distinct_values_elem _ _ _ Hu H0) as (w & Hw & Hsame).
    destruct Hu as [Hsub _]. pose proof (Hsub _ Hw) as Hcell.
    apply filled_text_cells in Hcell as [->|[[s ->]| ->]]; [done|discriminate..].
Qed.

(** X5.  For [c] one of ['ca'] and ['thal'], [df[c].unique()] returns the
    distinct values of the column, before and after the resolver, without
    changing the state; after the resolver the marker is not among them,
    and when the loaded column held the marker, the marker is among the
    values before and the integer 0 among the values after. *)
Theorem unique_after_fill file c :
  length file = 14%nat ->
  c = "ca"%string \/ c = "thal"%string ->
  exists st0 st1 t0 t1 before after u0 u1,
    exec (data_loader file) initial = Ok st0 /\
    exec missing_value_resolver st0 = Ok st1 /\
    frame_of Var.df st0 = Some t0 /\ column c t0 = Some before /\
    frame_of Var.df st1 = Some t1 /\ column c t1 = Some after /\
    unique_of Var.df c st0 = Ok (u0, st0) /\
    unique_of Var.df c st1 = Ok (u1, st1) /\
    distinct_values before u0 /\
    distinct_values after u1 /\
    (VStr "?" ∉ u1) /\
    (VStr "?" ∈ before -> VStr "?" ∈ u0 /\ VInt 0 ∈ u1).
Proof.
  intros Hlen Hc.
  pose proof (any_loader file Hlen) as Hload.
  pose proof (any_resolver file Hlen) as Hres.
  pose proof (any_see_loaded file Hlen) as H0.
  pose proof (any_see_filled file Hlen) as H1.
  exists (Run.st_loaded file), (Run.st_filled file), (Run.df0 file), (Run.df1 file).
  assert (Hgen : forall x,
            find_col (LName c) (Run.df0 file) = Some (series_of_csv x) ->
            find_col (LName c) (Run.df1 file) = Some (fill_sentinel (series_of_csv x)) ->
            exists before after u0 u1,
              column c (Run.df0 file) = Some before /\
              column c (Run.df1 file) = Some after /\
              unique_of Var.df c (Run.st_loaded file) = Ok (u0, Run.st_loaded file) /\
              unique_of Var.df c (Run.st_filled file) = Ok (u1, Run.st_filled file) /\
              distinct_values before u0 /\ distinct_values after u1 /\
              (VStr "?" ∉ u1) /\ (VStr "?" ∈ before -> VStr "?" ∈ u0 /\ VInt 0 ∈ u1)).
  { intros x Hx0 Hx1.
    exists (cells (series_of_csv x)), (cells (fill_sentinel (series_of_csv x))),
      (unique_values (cells (series_of_csv x))),
      (unique_values (cells (fill_sentinel (series_of_csv x)))).
    unfold column. rewrite Hx0, Hx1.
    split; [done|]. split; [done|].
    split; [by apply (unique_of_run _ _ _ _ _ H0)|].
    split; [by apply (unique_of_run _ _ _ _ _ H1)|].
    split; [apply unique_values_distinct|]. split; [apply unique_values_distinct|].
    destruct (unique_filled x _ (unique_values_distinct _)) as [Hno Hzero].
    split; [exact Hno|]. intros Hin. split; [|by apply Hzero].
    destruct (distinct_values_elem _ _ _ (unique_values_distinct _) Hin) as (w & Hw & Hs).
    apply same_value_sentinel in Hs. by subst. }
  assert (Hx : exists x,
            find_col (LName c) (Run.df0 file) = Some (series_of_csv x) /\
            find_col (LName c) (Run.df1 file) = Some (fill_sentinel (series_of_csv x))).
  { clear Hgen Hload Hres H0 H1. fourteen file Hlen.
    destruct Hc as [-> | ->]; by eexists. }
  destruct Hx as (x & Hx0 & Hx1).
  destruct (Hgen x Hx0 Hx1) as (b & a & u0 & u1 & Hb & Ha & Hu0 & Hu1 & Hrest).
  exists b, a, u0, u1.
  split; [exact Hload|]. split; [exact Hres|]. split; [exact H0|]. split; [exact Hb|].
  split; [exact H1|]. split; [exact Ha|]. split; [exact Hu0|]. split; [exact Hu1|].
  exact Hrest.
Qed.

Lemma unique_after_fill_example :
  (length Example.file = 14%nat /\
   ("thal"%string = "ca"%string \/ "thal"%string = "thal"%string)) /\
  exists st0 st1 u0 u1,
    exec (data_loader Example.file) initial = Ok st0 /\
    exec missing_value_resolver st0 = Ok st1 /\
    unique_of Var.df "thal" st0 = Ok (u0, st0) /\
    unique_of Var.df "thal" st1 = Ok (u1, st1) /\
    VStr "?" ∈ u0 /\
    (VStr "?" ∉ u1) /\
    VInt 0 ∈ u1.
Proof.
  split; [split; [reflexivity|by right]|].
  destruct (unique_after_fill Example.file "thal" eq_refl (or_intror eq_refl))
    as (st0 & st1 & t0 & t1 & before & after & u0 & u1 & Hload & Hres & H0 & Hb &
        H1 & Ha & Hu0 & Hu1 & _ & _ & Hno & Hin).
  assert (Hmarker : VStr "?" ∈ before).
  { clear -Hload H0 Hb. vm_compute in Hload. injection Hload as <-.
    vm_compute in H0. injection H0 as <-. vm_compute in Hb. injection Hb as <-.
    right. right. left. }
  destruct (Hin Hmarker) as [Hq Hz].
  exists st0, st1, u0, u1.
  split; [exact Hload|]. split; [exact Hres|]. split; [exact Hu0|].
  split; [exact Hu1|]. split; [exact Hq|]. split; [exact Hno|exact Hz].
Defined.

(** ** Dtypes *)

Lemma dtypes_resolved (t : frame) :
  prod_map id dtype_of <$> resolved t = prod_map id dtype_of <$> t.
Proof.
  unfold resolved, fill_column. rewrite <- !list_fmap_compose.
  apply list_fmap_ext. intros i [c s] _. simpl.
  destruct (decide (c = LName "ca")); simpl; by destruct (decide _).
Qed.

Lemma dtypes_loaded file :
  length file = 14%nat ->
  prod_map id dtype_of <$> loaded file = read_dtypes file.
Proof. intros Hlen. by fourteen file Hlen. Qed.

Lemma dtypes_features file :
  length file = 14%nat ->
  prod_map id dtype_of <$> Run.X1 file
  = filter (fun p => p.1 <> LName "hd") (read_dtypes file).
Proof. intros Hlen. by fourteen file Hlen. Qed.

Lemma dtype_target file :
  length file = 14%nat ->
  find_col (LName "hd") (read_dtypes file) = Some (dtype_of (Run.y0 file)).
Proof. intros Hlen. by fourteen file Hlen. Qed.

(** X4.  The resolver and the formatter change no dtype of [df]: on a file
    of fourteen columns [df.dtypes] is what [read_csv] inferred, after the
    loader, after the resolver (a text column that now holds the integer 0
    is still [object]) and after the formatter; [X.dtypes] is that without
    ['hd'], and [y.dtypes], after the binarization, is the dtype ['hd'] was
    read with. *)
Theorem dtypes_kept `{NumericReader} file :
  length file = 14%nat ->
  exists st0 st1,
    exec (data_loader file) initial = Ok st0 /\
    exec missing_value_resolver st0 = Ok st1 /\
    dtypes_of Var.df st0 = Ok (read_dtypes file, st0) /\
    dtypes_of Var.df st1 = Ok (read_dtypes file, st1) /\
    forall st2,
      exec feature_formatter st1 = Ok st2 ->
      dtypes_of Var.df st2 = Ok (read_dtypes file, st2) /\
      dtypes_of Var.X st2
        = Ok (filter (fun p => p.1 <> LName "hd") (read_dtypes file), st2) /\
      exists d,
        find_col (LName "hd") (read_dtypes file) = Some d /\
        y_dtypes st2 = Ok (d, st2).
Proof.
  intros Hlen.
  exists (Run.st_loaded file), (Run.st_filled file).
  split; [by apply any_loader|]. split; [by apply any_resolver|].
  split.
  { rewrite (dtypes_of_run _ _ _ (any_see_loaded file Hlen)).
    unfold Run.df0. by rewrite dtypes_loaded. }
  split.
  { rewrite (dtypes_of_run _ _ _ (any_see_filled file Hlen)).
    unfold Run.df1, Run.df0. by rewrite dtypes_resolved, dtypes_loaded. }
  intros st2. rewrite any_formatter by done.
  destruct (gt_mask _ 0) as [m|]; [|done].
  destruct (Column.to_numeric _) as [x|]; [|done].
  intros [= <-]. destruct (any_see_final file m x Hlen) as (Hdf & HX & Hy & _).
  split; [|split].
  - rewrite (dtypes_of_run _ _ _ Hdf).
    unfold Run.df1, Run.df0. by rewrite dtypes_resolved, dtypes_loaded.
  - rewrite (dtypes_of_run _ _ _ HX). by rewrite dtypes_features.
  - exists (dtype_of (Run.y0 file)). split; [by apply dtype_target|].
    by rewrite (y_dtypes_run _ _ Hy).
Qed.

Lemma dtypes_kept_example :
  length Example.file = 14%nat /\
  exists st0 st1 st2,
    exec (data_loader Example.file) initial = Ok st0 /\
    exec missing_value_resolver st0 = Ok st1 /\
    exec feature_formatter st1 = Ok st2 /\
    dtypes_of Var.df st0 = Ok (read_dtypes Example.file, st0) /\
    dtypes_of Var.df st1 = Ok (read_dtypes Example.file, st1) /\
    dtypes_of Var.df st2 = Ok (read_dtypes Example.file, st2) /\
    dtypes_of Var.X st2
      = Ok (filter (fun p => p.1 <> LName "hd") (read_dtypes Example.file), st2) /\
    y_dtypes st2 = Ok (Int64, st2) /\
    find_col (LName "ca") (read_dtypes Example.file) = Some Object.
Proof.
  split; [reflexivity|].
  destruct (dtypes_kept Example.file eq_refl) as (st0 & st1 & Hload & Hres & H0 & H1 & Hfmt).
  assert (Hrun : exists st2, exec feature_formatter st1 = Ok st2).
  { vm_compute in Hload. injection Hload as <-.
    vm_compute in Hres. injection Hres as <-.
    eexists. vm_compute. reflexivity. }
  destruct Hrun as [st2 Hrun].
  destruct (Hfmt st2 Hrun) as (H2 & HX & d & Hd & Hy).
  exists st0, st1, st2. repeat (split; [assumption|]).
  split; [|reflexivity].
  vm_compute in Hd. injection Hd as <-. exact Hy.
Defined.

(** X3.  An expression statement of the data preparation ([head],
    [dtypes], [unique], [len], [df.loc[...]],
    [pd.get_dummies(X, columns=['cp']).head()]), run from any state, binds
    no variable and changes no object: every table and every series a
    variable is bound to is the same after. *)
Theorem displayed_expressions_change_nothing e st st' :
  e ∈ expressions ->
  e st = Ok (tt, st') ->
  vars st' = vars st /\
  (forall l, unchanged st st' l) /\
  (forall x t, frame_of x st = Some t -> frame_of x st' = Some t) /\
  (forall x s, series_of x st = Some s -> series_of x st' = Some s).
Proof.
  intros He Hrun.
  pose proof (proj1 (Forall_forall _ _) expressions_read_only e He) as Hro.
  destruct (Hro _ _ _ Hrun) as [Hv [t Ht]].
  split; [exact Hv|]. split; [|split].
  - intros l. by eapply unchanged_app.
  - intros x t0. by eapply frame_of_app.
  - intros x s. by eapply series_of_app.
Qed.

Lemma displayed_expressions_change_nothing_example :
  exists st st',
    exec (data_loader Example.file) initial = Ok st /\
    shown count_missing ∈ expressions /\
    shown count_missing st = Ok (tt, st') /\
    (length (heap st) < length (heap st'))%nat /\
    vars st' = vars st /\
    (forall l, unchanged st st' l) /\
    (forall x t, frame_of x st = Some t -> frame_of x st' = Some t) /\
    (forall x s, series_of x st = Some s -> series_of x st' = Some s).
Proof.
  eexists _, _. split; [vm_compute; reflexivity|].
  assert (Hin : shown count_missing ∈ expressions)
    by exact (list_elem_of_lookup_2 expressions 5 _ eq_refl).
  split; [exact Hin|].
  split; [vm_compute; reflexivity|].
  split; [vm_compute; lia|].
  apply (displayed_expressions_change_nothing (shown count_missing) _ _ Hin).
  vm_compute. reflexivity.
Defined.

(** ** Expanding the columns one at a time *)

Lemma find_col_app {A} c (t u : list (label * A)) :
  find_col c (t ++ u) =
    match find_col c t with
    | Some x => Some x
    | None => find_col c u
    end.
Proof.
  induction t as [|[c' x] t IH]; simpl; [done|]. by destruct (decide _).
Qed.

Lemma find_col_filter {A} c (L : list label) (t : list (label * A)) :
  c ∉ L -> find_col c (filter (fun p => p.1 ∉ L) t) = find_col c t.
Proof.
  intros Hc. induction t as [|[c' x] t IH]; simpl; [done|].
  rewrite filter_cons. simpl. destruct (decide (c' ∉ L)) as [Hin|Hin]; simpl.
  - destruct (decide (c' = c)); [done|exact IH].
  - rewrite decide_False; [exact IH|]. by intros ->.
Qed.

Lemma find_col_none {A} c (t : list (label * A)) :
  Forall (fun p => p.1 <> c) t -> find_col c t = None.
Proof.
  induction 1 as [|[c' x] t Hx _ IH]; simpl; [done|]. by rewrite decide_False.
Qed.

Lemma mapM_ext_in {A B} (f g : A -> option B) (l : list A) :
  Forall (fun x => f x = g x) l -> mapM f l = mapM g l.
Proof.
  induction 1 as [|x l Hx _ IH]; simpl; [done|]. by rewrite Hx, IH.
Qed.

Lemma filter_all {A} (P : A -> Prop) `{!forall x, Decision (P x)} (l : list A) :
  Forall P l -> filter P l = l.
Proof.
  induction 1 as [|x l Hx _ IH]; [done|]. by rewrite filter_cons, decide_True, IH.
Qed.

(** X9.  Expanding a column [a] and then the columns [cs] gives the same
    table as expanding [a :: cs] in one call of [get_dummies], columns in
    the same order, whenever [a] is not among [cs] and no name of [cs]
    starts with [a] and an underscore; also when a column is missing, in
    which case both ways fail. *)
Theorem encode_one_by_one (cols : frame) (a : string) (cs : list string) :
  a ∉ cs ->
  Forall (fun c => in_group a (LName c) = false) cs ->
  encode cols (a :: cs) = cols1 ← encode cols [a]; encode cols1 cs.
Proof.
  intros Ha Hcs. unfold encode. cbn [mapM].
  destruct (dummies_of cols a) as [Da|] eqn:HDa; [|done].
  cbn [mbind option_bind mret option_ret concat]. rewrite app_nil_r.
  assert (Hlab : Forall (fun p : label * Series => in_group a p.1 = true) Da).
  { unfold dummies_of in HDa. destruct (find_col (LName a) cols) as [x|]; [|done].
    injection HDa as <-. apply (dummies_labels (fun lb => in_group a lb = true)).
    intros s. apply prefix_sep. }
  assert (Hext : Forall (fun c =>
             dummies_of (filter (fun p => p.1 ∉ LName <$> [a]) cols ++ Da) c
             = dummies_of cols c) cs).
  { apply Forall_forall. intros c Hc. unfold dummies_of.
    rewrite find_col_app, find_col_filter.
    - destruct (find_col (LName c) cols); [done|].
      rewrite find_col_none; [done|].
      eapply Forall_impl; [exact Hlab|]. intros [lb s] Hin. cbn [fst] in *.
      intros ->.
      pose proof (proj1 (Forall_forall _ _) Hcs c Hc) as Hno. cbv beta in Hno. congruence.
    - intros Hin. apply list_elem_of_singleton in Hin as [= ->]. done. }
  rewrite (mapM_ext_in _ _ _ Hext).
  destruct (mapM (dummies_of cols) cs) as [gs|]; [|done].
  cbn [mbind option_bind mret option_ret concat].
  f_equal. rewrite filter_app, list_filter_filter, <- app_assoc. f_equal.
  - apply list_filter_iff. intros [lb s]. simpl.
    change (list_fmap string label LName cs) with (LName <$> cs).
    rewrite not_elem_of_cons, list_elem_of_singleton. tauto.
  - f_equal. symmetry. apply filter_all.
    eapply Forall_impl; [exact Hlab|]. intros [lb s] Hin Hmem. cbn [fst] in Hin, Hmem.
    apply list_elem_of_fmap in Hmem as (c & -> & Hc).
    pose proof (proj1 (Forall_forall _ _) Hcs c Hc) as Hno. cbv beta in Hno. congruence.
Qed.

Lemma encode_one_by_one_example :
  (("cp"%string ∉ ["restecg"; "slope"; "thal"]%string) /\
   Forall (fun c => in_group "cp" (LName c) = false) ["restecg"; "slope"; "thal"]%string) /\
  encode (Run.X1 Example.file) encoded_columns
  = cols1 ← encode (Run.X1 Example.file) ["cp"%string];
    encode cols1 ["restecg"; "slope"; "thal"]%string.
Proof.
  assert (Hne : "cp"%string ∉ ["restecg"; "slope"; "thal"]%string).
  { intros Hin. repeat (apply elem_of_cons in Hin as [Hin|Hin]; [discriminate|]).
    by apply elem_of_nil in Hin. }
  assert (Hpre : Forall (fun c => in_group "cp" (LName c) = false)
                        ["restecg"; "slope"; "thal"]%string)
    by (by repeat constructor).
  split; [by split|].
  exact (encode_one_by_one (Run.X1 Example.file) "cp" ["restecg"; "slope"; "thal"]%string
           Hne Hpre).
Defined.

(** ** A column that is not there *)

Lemma encode_missing (t : frame) cs c :
  c ∈ cs -> find_col (LName c) t = None -> encode t cs = None.
Proof.
  intros Hc Hnone. unfold encode.
  assert (Hm : mapM (dummies_of t) cs = None).
  { apply eq_None_not_Some. rewrite mapM_is_Some. intros Hall.
    rewrite Forall_forall in Hall. specialize (Hall c Hc).
    simpl in Hall. unfold dummies_of in Hall. rewrite Hnone in Hall.
    by destruct Hall. }
  by rewrite Hm.
Qed.



(** ** The order of the indicator columns *)

Lemma level_le_total : Total level_le.
Proof.
  intros a b. unfold level_le.
  destruct a as [n|[|m e]|s], b as [n'|[|m' e']|s']; simpl; auto;
    try apply String.leb_total;
    unfold dec_ltb; simpl;
    match goal with
    | |- negb (?x <? ?y) = true \/ negb (?y <? ?x) = true =>
        destruct (Z.ltb_spec x y), (Z.ltb_spec y x); simpl; auto; lia
    end.
Qed.

Lemma levels_sorted l : Sorted level_le (levels l).
Proof. apply Sorted_merge_sort, level_le_total. Qed.

Lemma sorted_after_text s l :
  Sorted level_le (VStr s :: l) -> Forall is_text l.
Proof.
  revert s. induction l as [|v l IH]; intros s Hs; [constructor|].
  apply Sorted_inv in Hs as [Hs Hhd]. apply HdRel_inv in Hhd.
  destruct v as [n|x|t]; try discriminate Hhd.
  constructor; [done|]. by eapply IH.
Qed.

Lemma filled_levels l lv :
  lv ∈ levels (cells (fill_sentinel (series_of_csv (TextColumn l)))) ->
  lv = VInt 0 \/ is_text lv.
Proof.
  intros Hlv. apply levels_observed in Hlv as [Hcell Hna].
  apply filled_text_cells in Hcell as [->|[[s ->]| ->]]; [by left|by right|done].
Qed.

Lemma zero_level_first l :
  VStr "?" ∈ cells (series_of_csv (TextColumn l)) ->
  exists rest,
    levels (cells (fill_sentinel (series_of_csv (TextColumn l)))) = VInt 0 :: rest /\
    Forall is_text rest.
Proof.
  intros Hin.
  set (L := cells (fill_sentinel (series_of_csv (TextColumn l)))).
  assert (H0 : VInt 0 ∈ L).
  { unfold L. rewrite fill_csv_cells. apply list_elem_of_fmap. exists (VStr "?").
    split; [|done]. by rewrite decide_True. }
  pose proof (zero_level l H0) as Hlv. fold L in Hlv.
  pose proof (levels_sorted L) as Hsorted.
  pose proof (levels_count L (VInt 0) H0 eq_refl) as Hone.
  assert (Hall : Forall (fun lv => lv = VInt 0 \/ is_text lv) (levels L)).
  { apply Forall_forall. intros lv. apply filled_levels. }
  destruct (levels L) as [|lv0 rest]; [by apply elem_of_nil in Hlv|].
  apply Forall_cons in Hall as [[->|Htext] Hrest].
  - exists rest. split; [done|].
    rewrite filter_cons in Hone. simpl in Hone.
    apply Forall_forall. intros lv Hin'.
    destruct (proj1 (Forall_forall _ _) Hrest lv Hin') as [->|?]; [|done].
    assert (Hf : VInt 0 ∈ filter (fun lv => py_eqb (VInt 0) lv = true) rest)
      by (by apply list_elem_of_filter).
    destruct (filter _ rest); [by apply elem_of_nil in Hf|discriminate Hone].
  - destruct lv0 as [| |s]; try done.
    apply sorted_after_text in Hsorted.
    apply elem_of_cons in Hlv as [Hlv|Hlv]; [discriminate|].
    by apply (proj1 (Forall_forall _ _) Hsorted) in Hlv.
Qed.

(** X11.  When the loaded ['thal'] column holds the marker in some row,
    the first indicator column of the ['thal'] group of [X_encoded] is
    ['thal_0'], the indicator of the integer 0 the resolver wrote, and every
    other column of the group is the indicator of a text value: numbers
    sort before strings among the levels. *)
Theorem fill_level_first file i :
  length file = 14%nat ->
  nth_column 12 file !! i = Some (VStr "?") ->
  exists st x e after rest,
    exec (data_loader file ++ missing_value_resolver ++ [s_X; s_y; s_encode]) initial
      = Ok st /\
    frame_of Var.X st = Some x /\
    frame_of Var.X_encoded st = Some e /\
    column "thal" x = Some after /\
    group "thal" e
      = (LName "thal_0", mkSeries UInt8 (indicator (VInt 0) after)) :: rest /\
    Forall (fun p => exists s,
              p = (LName ("thal_" +:+ s), mkSeries UInt8 (indicator (VStr s) after)))
           rest.
Proof.
  intros Hlen Hi.
  exists (Run.st_encoded file), (Run.X1 file), (Run.E file).
  pose proof (run_to_encode file Hlen) as Hrun.
  destruct (any_see_encoded file Hlen) as (_ & HX & _ & HE).
  fourteen file Hlen.
  match goal with
  | |- context [Run.E [?c0; ?c1; ?c2; ?c3; ?c4; ?c5; ?c6; ?c7; ?c8; ?c9; ?c10; ?c11; ?c12; ?c13]] =>
      pose proof (group_thal c0 c1 c2 c3 c4 c5 c6 c7 c8 c9 c10 c11 c12 c13) as Hg;
      set (thal := c12) in *
  end.
  change (nth_column 12 _) with (cells (series_of_csv thal)) in Hi.
  apply list_elem_of_lookup_2 in Hi.
  destruct (marker_is_text _ Hi) as [l Hl].
  destruct (zero_level_first l) as (strs & Hlv & Hstrs); [by rewrite <- Hl|].
  rewrite <- Hl in Hlv.
  exists (cells (fill_sentinel (series_of_csv thal))).
  exists ((fun lv => (LName ("thal" +:+ "_" +:+ str lv),
                      mkSeries UInt8
                        (indicator lv (cells (fill_sentinel (series_of_csv thal))))))
            <$> strs).
  split; [exact Hrun|]. split; [exact HX|]. split; [exact HE|].
  split; [reflexivity|]. split.
  - rewrite Hg, dummies_eq, Hlv. reflexivity.
  - apply Forall_fmap. eapply Forall_impl; [exact Hstrs|].
    intros [| |s] Htext; try done. by exists s.
Qed.

Lemma fill_level_first_example :
  (length Example.file = 14%nat /\
   nth_column 12 Example.file !! 2%nat = Some (VStr "?")) /\
  exists st x e after rest,
    exec (data_loader Example.file ++ missing_value_resolver ++ [s_X; s_y; s_encode])
         initial = Ok st /\
    frame_of Var.X st = Some x /\
    frame_of Var.X_encoded st = Some e /\
    column "thal" x = Some after /\
    group "thal" e
      = (LName "thal_0", mkSeries UInt8 (indicator (VInt 0) after)) :: rest /\
    Forall (fun p => exists s,
              p = (LName ("thal_" +:+ s), mkSeries UInt8 (indicator (VStr s) after)))
           rest.
Proof.
  split; [by split|]. by apply (fill_level_first Example.file 2).
Defined.

(** ** Two columns under one name *)

Lemma text_level l s :
  VStr s ∈ l -> VStr s ∈ levels l.
Proof.
  intros Hin. pose proof (levels_count l (VStr s) Hin eq_refl) as Hone.
  destruct (filter _ (levels l)) as [|lv rest] eqn:Hf; [discriminate|].
  assert (Hlv : lv ∈ filter (fun lv => py_eqb (VStr s) lv = true) (levels l))
    by (rewrite Hf; left).
  apply list_elem_of_filter in Hlv as [Heq Hlv].
  destruct lv as [| |t]; try discriminate Heq.
  simpl in Heq. apply String.eqb_eq in Heq. by subst.
Qed.

(** X12.  When the loaded ['thal'] column holds the text ['0'] in one row
    and the marker in another, [X_encoded] has two columns labelled
    ['thal_0']: the indicator of the integer 0 (1 in the row of the marker)
    and the indicator of the text ['0'] (0 in that row). *)
Theorem two_columns_one_name file i j :
  length file = 14%nat ->
  nth_column 12 file !! i = Some (VStr "?") ->
  nth_column 12 file !! j = Some (VStr "0") ->
  exists st e s1 s2,
    exec (data_loader file ++ missing_value_resolver ++ [s_X; s_y; s_encode]) initial
      = Ok st /\
    frame_of Var.X_encoded st = Some e /\
    (LName "thal_0", s1) ∈ e /\
    (LName "thal_0", s2) ∈ e /\
    cells s1 !! i = Some (VInt 1) /\
    cells s2 !! i = Some (VInt 0).
Proof.
  intros Hlen Hi Hj.
  exists (Run.st_encoded file), (Run.E file).
  pose proof (run_to_encode file Hlen) as Hrun.
  destruct (any_see_encoded file Hlen) as (_ & _ & _ & HE).
  fourteen file Hlen.
  match goal with
  | |- context [Run.E [?c0; ?c1; ?c2; ?c3; ?c4; ?c5; ?c6; ?c7; ?c8; ?c9; ?c10; ?c11; ?c12; ?c13]] =>
      pose proof (group_thal c0 c1 c2 c3 c4 c5 c6 c7 c8 c9 c10 c11 c12 c13) as Hg;
      change (nth_column 12 _) with (cells (series_of_csv c12)) in Hi, Hj;
      set (thal := c12) in *;
      set (e := Run.E [c0; c1; c2; c3; c4; c5; c6; c7; c8; c9; c10; c11; thal; c13]) in *
  end.
  set (after := cells (fill_sentinel (series_of_csv thal))) in *.
  assert (Hai : after !! i = Some (VInt 0)).
  { unfold after. by rewrite fill_csv_cells, list_lookup_fmap, Hi. }
  assert (Haj : after !! j = Some (VStr "0")).
  { unfold after. by rewrite fill_csv_cells, list_lookup_fmap, Hj. }
  assert (Hin : forall lv, lv ∈ levels after ->
            (LName ("thal_" +:+ str lv), mkSeries UInt8 (indicator lv after)) ∈ e).
  { intros lv Hlv.
    assert (Hgr : (LName ("thal_" +:+ str lv), mkSeries UInt8 (indicator lv after))
                    ∈ group "thal" e).
    { rewrite Hg, dummies_eq. apply list_elem_of_fmap. by exists lv. }
    unfold group in Hgr. by apply list_elem_of_filter in Hgr as [_ ?]. }
  exists (mkSeries UInt8 (indicator (VInt 0) after)),
    (mkSeries UInt8 (indicator (VStr "0") after)).
  split; [exact Hrun|]. split; [exact HE|].
  split; [|split; [|split]].
  - apply (Hin (VInt 0)).
    apply list_elem_of_lookup_2 in Hi. destruct (marker_is_text _ Hi) as [l Hl].
    unfold after. rewrite Hl. apply zero_level. rewrite <- Hl.
    by eapply list_elem_of_lookup_2.
  - apply (Hin (VStr "0")). apply text_level. by eapply list_elem_of_lookup_2.
  - cbn [cells]. by rewrite (indicator_lookup _ _ _ _ Hai).
  - cbn [cells]. by rewrite (indicator_lookup _ _ _ _ Hai).
Qed.


Lemma two_columns_one_name_example :
  (length Samples.file_text_zero = 14%nat /\
   nth_column 12 Samples.file_text_zero !! 2%nat = Some (VStr "?") /\
   nth_column 12 Samples.file_text_zero !! 0%nat = Some (VStr "0")) /\
  exists st e s1 s2,
    exec (data_loader Samples.file_text_zero ++ missing_value_resolver ++ [s_X; s_y; s_encode])
         initial = Ok st /\
    frame_of Var.X_encoded st = Some e /\
    (LName "thal_0", s1) ∈ e /\
    (LName "thal_0", s2) ∈ e /\
    cells s1 !! 2%nat = Some (VInt 1) /\
    cells s2 !! 2%nat = Some (VInt 0).
Proof.
  split; [by repeat split|]. by apply (two_columns_one_name Samples.file_text_zero 2 0).
Defined.

(** ** The keywords of a construction *)


Lemma lookup_kw_params k (l : list (string * value)) :
  lookup_kw k (filter (fun p => p.1 ∈ signature) l)
  = if decide (k ∈ signature) then lookup_kw k l else None.
Proof.
  induction l as [|[k' v] l IH]; simpl; [by destruct (decide _)|].
  rewrite filter_cons. cbn [fst].
  destruct (String.eqb_spec k' k) as [->|Hne].
  - destruct (decide (k ∈ signature)); simpl; [by rewrite String.eqb_refl|exact IH].
  - destruct (decide (k' ∈ signature)); simpl; [|exact IH].
    destruct (String.eqb_spec k' k); [done|exact IH].
Qed.

Lemma lookup_kw_kwargs k (l : list (string * value)) :
  lookup_kw k (filter (fun p => p.1 ∉ signature) l)
  = if decide (k ∈ signature) then None else lookup_kw k l.
Proof.
  induction l as [|[k' v] l IH]; simpl; [by destruct (decide _)|].
  rewrite filter_cons. cbn [fst].
  destruct (String.eqb_spec k' k) as [->|Hne].
  - destruct (decide (k ∉ signature)) as [Hout|Hout].
    + rewrite decide_False by done. simpl. by rewrite String.eqb_refl.
    + rewrite IH. destruct (decide (k ∈ signature)); [done|]. by destruct Hout.
  - destruct (decide (k' ∉ signature)); simpl; [|exact IH].
    destruct (String.eqb_spec k' k); [done|exact IH].
Qed.


(** ** The size of a grid *)

Import Search.


Lemma bind_length {A B} (f : A -> list B) (l : list A) n :
  (forall x, length (f x) = n) -> length (l ≫= f) = (length l * n)%nat.
Proof.
  intros Hf. induction l as [|x l IH]; [done|].
  by rewrite bind_cons, length_app, Hf, IH.
Qed.

Lemma product_length items : length (product items) = grid_size items.
Proof.
  induction items as [|[k vs] items IH]; simpl; [done|].
  rewrite (bind_length _ _ (length (product items))); [by rewrite IH|].
  intros v. by rewrite length_fmap.
Qed.

Lemma grid_size_perm l l' : l ≡ₚ l' -> grid_size l = grid_size l'.
Proof.
  induction 1 as [|x l l' _ IH|x y l|l l' l'' _ IH1 _ IH2]; simpl; try congruence.
  lia.
Qed.

Lemma product_keys items c : c ∈ product items -> c.*1 = items.*1.
Proof.
  intros Hc. apply product_spec in Hc.
  induction Hc as [|[k v] [k' vs] c items [Hk _] _ IH]; [done|].
  simpl in Hk. subst k'. rewrite !fmap_cons. by rewrite IH.
Qed.


(** ** Running a correction a second time *)

Lemma fill_twice s : fill_sentinel (fill_sentinel s) = fill_sentinel s.
Proof.
  unfold fill_sentinel at 1.
  change (dtype_of (fill_sentinel s)) with (dtype_of s).
  unfold fill_sentinel at 3. f_equal.
  rewrite set_where_eq_mask.
  change (set_where _ _ (cells s)) with (cells (fill_sentinel s)).
  rewrite <- (list_fmap_id (cells (fill_sentinel s))) at 2.
  apply Forall_fmap_ext. rewrite fill_sentinel_cells. apply Forall_fmap, Forall_true.
  intros v. simpl. destruct (py_eqb v (VStr "?")) eqn:Hv.
  - by destruct (dtype_of s).
  - by rewrite Hv.
Qed.

Lemma resolved_twice (t : frame) : resolved (resolved t) = resolved t.
Proof.
  unfold resolved, fill_column. rewrite <- !list_fmap_compose.
  apply list_fmap_ext. intros i [c s] _. simpl.
  repeat (case_decide; simpl in *; simplify_eq); by rewrite ?fill_twice.
Qed.

Section again.

Variables c0 c1 c2 c3 c4 c5 c6 c7 c8 c9 c10 c11 c12 c13 : csv_column.

Let file := [c0; c1; c2; c3; c4; c5; c6; c7; c8; c9; c10; c11; c12; c13].

Lemma run_resolver_again :
  exists st,
    exec missing_value_resolver (Run.st_filled file) = Ok st /\
    frame_of Var.df st = Some (Run.df1 file).
Proof.
  unfold missing_value_resolver. eexists.
  erewrite exec_cons; [|eapply s_fill_run; reflexivity].
  erewrite exec_cons; [|eapply s_fill_run; reflexivity].
  split; [reflexivity|].
  transitivity (Some (resolved (Run.df1 file))); [reflexivity|].
  unfold Run.df1. by rewrite resolved_twice.
Qed.

End again.

(** X7.  Running the two fill statements a second time, as when the
    notebook cell is run again, completes and leaves [df] as it was after
    the first run. *)
Theorem resolver_twice file :
  length file = 14%nat ->
  exists st1 st2 t,
    exec (data_loader file ++ missing_value_resolver) initial = Ok st1 /\
    exec missing_value_resolver st1 = Ok st2 /\
    frame_of Var.df st1 = Some t /\
    frame_of Var.df st2 = Some t.
Proof.
  intros Hlen.
  assert (Hagain : exists st,
            exec missing_value_resolver (Run.st_filled file) = Ok st /\
            frame_of Var.df st = Some (Run.df1 file)).
  { clear -Hlen. fourteen file Hlen. apply run_resolver_again. }
  destruct Hagain as (st2 & Hrun & Hdf).
  exists (Run.st_filled file), st2, (Run.df1 file).
  split; [by rewrite exec_app, any_loader, any_resolver|].
  split; [exact Hrun|]. split; [by apply any_see_filled|exact Hdf].
Qed.

Lemma resolver_twice_example :
  length Example.file = 14%nat /\
  exists st1 st2 t,
    exec (data_loader Example.file ++ missing_value_resolver) initial = Ok st1 /\
    exec missing_value_resolver st1 = Ok st2 /\
    frame_of Var.df st1 = Some t /\
    frame_of Var.df st2 = Some t.
Proof. split; [reflexivity|]. by apply (resolver_twice Example.file). Defined.

Lemma frame_at_intro (h : list obj) f cols (t : frame) :
  h !! f = Some (OFrame cols) ->
  Forall2 (fun (p : label * nat) (y : label * Series) =>
             y.1 = p.1 /\ h !! p.2 = Some (OSeries y.2)) cols t ->
  frame_at h f = Some t.
Proof.
  intros Hf Hcols. unfold frame_at. rewrite Hf. apply mapM_Some.
  eapply Forall2_impl; [exact Hcols|]. intros [c l] [c' x] [Hc Hl]. simpl in *.
  unfold series_at. rewrite Hl. simpl. by subst.
Qed.

Lemma replace_col_resolve (h h' : list obj) cols (e : frame) c l n :
  Forall2 (fun (p : label * nat) (y : label * Series) =>
             y.1 = p.1 /\ h !! p.2 = Some (OSeries y.2)) cols e ->
  (forall j x, h !! j = Some (OSeries x) -> h' !! j = Some (OSeries x)) ->
  h' !! l = Some (OSeries n) ->
  Forall2 (fun (p : label * nat) (y : label * Series) =>
             y.1 = p.1 /\ h' !! p.2 = Some (OSeries y.2))
          (replace_col c l cols) (replace_col c n e).
Proof.
  intros Hcols Hkeep Hl.
  induction Hcols as [|[c1 l1] [c2 x] cols e [Hc Hx] Hrest IH]; simpl.
  - by repeat constructor.
  - simpl in Hc, Hx. subst c2. destruct (decide (c1 = c)).
    + constructor; [done|]. eapply Forall2_impl; [exact Hrest|].
      intros p y [? ?]. split; [done|]. by apply Hkeep.
    + constructor; [|exact IH]. split; [done|]. by apply Hkeep.
Qed.

Lemma find_col_replace {A} c (a : A) cols : find_col c (replace_col c a cols) = Some a.
Proof.
  induction cols as [|[c' a'] cols IH]; simpl; [by rewrite decide_True|].
  destruct (decide (c' = c)); simpl; [by rewrite decide_True|by rewrite decide_False].
Qed.

Lemma replace_col_twice {A} c (a : A) cols :
  replace_col c a (replace_col c a cols) = replace_col c a cols.
Proof.
  induction cols as [|[c' a'] cols IH]; simpl; [by rewrite decide_True|].
  destruct (decide (c' = c)); simpl; [by rewrite decide_True|].
  by rewrite decide_False, IH.
Qed.

Section coercion.

Context `{NumericReader}.

Lemma to_numeric_twice s s' :
  Column.to_numeric s = Some s' -> Column.to_numeric s' = Some s'.
Proof.
  intros Hs. pose proof (to_numeric_dtype _ _ Hs) as Hd.
  unfold Column.to_numeric. by destruct (dtype_of s').
Qed.

Lemma s_coerce_table st (e : frame) x n :
  frame_of Var.X_encoded st = Some e ->
  find_col (LName "ca") e = Some x ->
  Column.to_numeric x = Some n ->
  exists st',
    s_coerce st = Ok (tt, st') /\
    frame_of Var.X_encoded st' = Some (replace_col (LName "ca") n e).
Proof.
  unfold frame_of. intros He Hx Hn.
  destruct (Var.X_encoded (vars st)) as [f|] eqn:Hv; [|done]. simpl in He.
  destruct (frame_at_inv _ _ _ He) as (cols & Hf & Hcols).
  pose proof (find_col_resolve _ _ _ (LName "ca") Hcols) as Hl. rewrite Hx in Hl.
  destruct Hl as (l & Hl & Hs).
  assert (Hf' : (f < length (heap st))%nat) by (by eapply lookup_lt_Some).
  eexists. split.
  { rewrite (s_coerce_run _ _ _ _ _ Hv Hf Hl Hs), Hn. reflexivity. }
  cbn [vars heap]. rewrite Hv. simpl.
  eapply frame_at_intro.
  - apply list_lookup_insert_eq. rewrite length_app. lia.
  - eapply replace_col_resolve; [exact Hcols| |].
    + intros j y Hj.
      assert (j < length (heap st))%nat by (by eapply lookup_lt_Some).
      rewrite list_lookup_insert_ne by congruence.
      by rewrite lookup_app_l.
    + rewrite list_lookup_insert_ne by lia.
      rewrite lookup_app_r by lia.
      by replace (S (length (heap st)) - length (heap st))%nat with 1%nat by lia.
Qed.

(** X14.  From any state in which [X_encoded] is a table whose ['ca']
    column [pd.to_numeric] can read: the coercion completes and replaces
    that column by the numeric one, every other column kept; and running
    the coercion again completes and leaves [X_encoded] as it is. *)
Theorem coercion_twice st (e : frame) x n :
  frame_of Var.X_encoded st = Some e ->
  find_col (LName "ca") e = Some x ->
  Column.to_numeric x = Some n ->
  exists st1 st2,
    s_coerce st = Ok (tt, st1) /\
    frame_of Var.X_encoded st1 = Some (replace_col (LName "ca") n e) /\
    s_coerce st1 = Ok (tt, st2) /\
    frame_of Var.X_encoded st2 = Some (replace_col (LName "ca") n e).
Proof.
  intros He Hx Hn.
  destruct (s_coerce_table st e x n He Hx Hn) as (st1 & Hrun1 & He1).
  destruct (s_coerce_table st1 _ n n He1 (find_col_replace _ _ _)
              (to_numeric_twice _ _ Hn)) as (st2 & Hrun2 & He2).
  exists st1, st2. rewrite replace_col_twice in He2. done.
Qed.

End coercion.

Lemma coercion_twice_example :
  exists st e x n st1 st2,
    exec (data_loader Example.file ++ missing_value_resolver ++ [s_X; s_y; s_encode])
         initial = Ok st /\
    frame_of Var.X_encoded st = Some e /\
    find_col (LName "ca") e = Some x /\
    x = mkSeries Object [VStr "0.0"; VInt 0; VStr "3.0"] /\
    Column.to_numeric x = Some n /\
    n = mkSeries Float64 [VFloat (Dec 0 1); VFloat (Dec 0 0); VFloat (Dec 30 1)] /\
    s_coerce st = Ok (tt, st1) /\
    frame_of Var.X_encoded st1 = Some (replace_col (LName "ca") n e) /\
    s_coerce st1 = Ok (tt, st2) /\
    frame_of Var.X_encoded st2 = Some (replace_col (LName "ca") n e).
Proof.
  exists (Run.st_encoded Example.file), (Run.E Example.file).
  eexists _, _.
  assert (He : frame_of Var.X_encoded (Run.st_encoded Example.file)
               = Some (Run.E Example.file)) by (vm_compute; reflexivity).
  assert (Hx : find_col (LName "ca") (Run.E Example.file)
               = Some (mkSeries Object [VStr "0.0"; VInt 0; VStr "3.0"]))
    by (vm_compute; reflexivity).
  assert (Hn : Column.to_numeric (mkSeries Object [VStr "0.0"; VInt 0; VStr "3.0"])
               = Some (mkSeries Float64
                         [VFloat (Dec 0 1); VFloat (Dec 0 0); VFloat (Dec 30 1)]))
    by (vm_compute; reflexivity).
  destruct (coercion_twice _ _ _ _ He Hx Hn) as (st1 & st2 & H1 & H2 & H3 & H4).
  exists st1, st2.
  split; [vm_compute; reflexivity|]. split; [exact He|]. split; [exact Hx|].
  split; [reflexivity|]. split; [exact Hn|]. split; [reflexivity|].
  split; [exact H1|]. split; [exact H2|]. split; [exact H3|exact H4].
Defined.


(** ** What the tables share *)

Section sharing.

Context `{NumericReader}.
Variables c0 c1 c2 c3 c4 c5 c6 c7 c8 c9 c10 c11 c12 c13 : csv_column.

Local Abbreviation cs := [c0; c1; c2; c3; c4; c5; c6; c7; c8; c9; c10; c11; c12; c13].

Lemma h_final_low m n j :
  (j < 32)%nat -> Run.h_final cs m n !! j = Run.h_split cs !! j.
Proof.
  intros Hj. unfold Run.h_final.
  rewrite list_lookup_insert_ne by lia.
  rewrite lookup_app_l by (rewrite h_binarized_length; lia).
  unfold Run.h_binarized. rewrite list_lookup_insert_ne by lia.
  rewrite h_masked_above by lia. unfold Run.h_encoded.
  apply lookup_app_l. change (length (Run.h_split cs)) with 33%nat. lia.
Qed.

Lemma E_length : length (Run.E cs) = (9 + length (skipn 9 (Run.E cs)))%nat.
Proof. reflexivity. Qed.

Lemma final_locs m n :
  column_locs Var.df (Run.st_final cs m n) = seq 0 14 /\
  column_locs Var.X (Run.st_final cs m n) = seq 18 13 /\
  column_locs Var.X_encoded (Run.st_final cs m n)
    = seq 33 8 ++ (36 + length (Run.E cs))%nat
        :: seq 42 (length (skipn 9 (Run.E cs))) /\
  Var.y (vars (Run.st_final cs m n)) = Some 32%nat.
Proof.
  unfold column_locs, Run.st_final. cbn [vars heap].
  change (Var.df (Run.g_masked cs)) with (Some 14%nat).
  change (Var.X (Run.g_masked cs)) with (Some 31%nat).
  change (Var.X_encoded (Run.g_masked cs)) with (Some (33 + length (Run.E cs))%nat).
  cbv beta iota.
  rewrite !h_final_low by lia.
  split; [reflexivity|]. split; [reflexivity|]. split; [|reflexivity].
  assert (Hf : Run.h_final cs m n !! (33 + length (Run.E cs))%nat =
               Some (OFrame (replace_col (LName "ca") (36 + length (Run.E cs))%nat
                               (zip (Run.E cs).*1 (seq 33 (length (Run.E cs))))))).
  { unfold Run.h_final. apply list_lookup_insert_eq.
    rewrite length_app, h_binarized_length. lia. }
  rewrite Hf, E_locs_split. rewrite fmap_app, fmap_cons.
  rewrite !snd_zip by (by rewrite length_fmap, length_seq).
  reflexivity.
Qed.

Lemma final_share_nothing m n :
  NoDup (column_locs Var.df (Run.st_final cs m n) ++
         column_locs Var.X (Run.st_final cs m n) ++
         column_locs Var.X_encoded (Run.st_final cs m n) ++ [32%nat]).
Proof.
  destruct (final_locs m n) as (-> & -> & -> & _).
  pose proof E_length as Hlen.
  repeat (apply NoDup_app; split;
    [ first [apply NoDup_seq | apply NoDup_singleton]
    | split;
      [ intros x;
        rewrite ?elem_of_app, ?elem_of_cons, ?elem_of_seq, ?elem_of_nil; lia
      | ] ]).
  apply NoDup_app. split; [|split; [|apply NoDup_singleton]].
  - apply NoDup_app. split; [apply NoDup_seq|]. split.
    + intros x. rewrite elem_of_cons, !elem_of_seq. lia.
    + apply NoDup_cons. split; [rewrite elem_of_seq; lia|apply NoDup_seq].
  - intros x. rewrite elem_of_app, elem_of_cons, !elem_of_seq, list_elem_of_singleton.
    lia.
Qed.

End sharing.

(** X8.  When the data preparation completes, the fourteen columns of
    [df], the thirteen of [X], the columns of [X_encoded] and [y] are
    stored at pairwise different locations: none of the four shares cells
    with another, so a later write into one cannot show in another. *)
Theorem tables_share_nothing `{NumericReader} file st :
  exec (pipeline file) initial = Ok st ->
  exists ly,
    Var.y (vars st) = Some ly /\
    NoDup (column_locs Var.df st ++ column_locs Var.X st ++
           column_locs Var.X_encoded st ++ [ly]) /\
    length (column_locs Var.df st) = 14%nat /\
    length (column_locs Var.X st) = 13%nat /\
    (9 <= length (column_locs Var.X_encoded st))%nat.
Proof.
  unfold pipeline. rewrite exec_app.
  destruct (exec (data_loader file) initial) as [st0|] eqn:Hload; [|done].
  pose proof (loader_fourteen _ _ Hload) as Hlen.
  rewrite any_loader in Hload by done. injection Hload as <-.
  rewrite exec_app, any_resolver, any_formatter by done.
  destruct (gt_mask _ 0) as [m|] eqn:Hm; [|done].
  destruct (Column.to_numeric _) as [x|] eqn:Hx; [|done].
  intros [= <-]. clear Hm Hx. fourteen file Hlen.
  exists 32%nat. split; [reflexivity|]. split; [apply final_share_nothing|].
  match goal with
  | |- context [Run.st_final [?c0; ?c1; ?c2; ?c3; ?c4; ?c5; ?c6; ?c7; ?c8; ?c9; ?c10; ?c11; ?c12; ?c13]] =>
      destruct (final_locs c0 c1 c2 c3 c4 c5 c6 c7 c8 c9 c10 c11 c12 c13 m x)
        as (-> & -> & -> & _)
  end.
  split; [reflexivity|]. split; [reflexivity|].
  rewrite length_app, length_seq. cbn [length]. lia.
Qed.

Lemma tables_share_nothing_example :
  exists st ly,
    exec (pipeline Example.file) initial = Ok st /\
    Var.y (vars st) = Some ly /\
    NoDup (column_locs Var.df st ++ column_locs Var.X st ++
           column_locs Var.X_encoded st ++ [ly]) /\
    length (column_locs Var.df st) = 14%nat /\
    length (column_locs Var.X st) = 13%nat /\
    (9 <= length (column_locs Var.X_encoded st))%nat.
Proof.
  assert (Hrun : exists st, exec (pipeline Example.file) initial = Ok st)
    by (eexists; vm_compute; reflexivity).
  destruct Hrun as [st Hrun].
  destruct (tables_share_nothing Example.file st Hrun) as (ly & H).
  exists st, ly. by split.
Defined.

(** ** The split into training and testing sets *)

Import Split.

Lemma cells_at_some idx l :
  Forall (fun i => (i < length l)%nat) idx ->
  exists l', cells_at idx l = Some l' /\
             length l' = length idx /\
             forall j i, idx !! j = Some i -> l' !! j = l !! i.
Proof.
  intros Hidx.
  assert (Hsome : is_Some (cells_at idx l)).
  { apply mapM_is_Some. eapply Forall_impl; [exact Hidx|].
    intros i Hi. by apply lookup_lt_is_Some. }
  destruct Hsome as [l' Hl']. exists l'. split; [done|].
  unfold cells_at in Hl'. split; [symmetry; by eapply length_mapM|].
  apply mapM_Some in Hl'. intros j i Hj.
  destruct (Forall2_lookup_l _ _ _ _ _ Hl' Hj) as (v & Hv & Hi). congruence.
Qed.

Lemma series_at_rows_some idx s :
  Forall (fun i => (i < length (cells s))%nat) idx ->
  exists s', series_at_rows idx s = Some s' /\
             dtype_of s' = dtype_of s /\
             length (cells s') = length idx /\
             forall j i, idx !! j = Some i -> cells s' !! j = cells s !! i.
Proof.
  intros Hidx. destruct (cells_at_some idx (cells s) Hidx) as (l' & Hl' & Hlen & Hat).
  exists (mkSeries (dtype_of s) l'). unfold series_at_rows. rewrite Hl'. done.
Qed.

Lemma frame_at_rows_some idx (t : frame) n :
  Forall (fun p : label * Series => length (cells p.2) = n) t ->
  Forall (fun i => (i < n)%nat) idx ->
  exists t', frame_at_rows idx t = Some t' /\
             Forall2 (fun (p p' : label * Series) =>
                        p'.1 = p.1 /\ dtype_of p'.2 = dtype_of p.2 /\
                        length (cells p'.2) = length idx /\
                        forall j i, idx !! j = Some i ->
                                    cells p'.2 !! j = cells p.2 !! i) t t'.
Proof.
  intros Ht Hidx. induction Ht as [|[c s] t Hs _ IH].
  - by exists [].
  - destruct IH as (t' & Ht' & Hall). simpl in Hs.
    destruct (series_at_rows_some idx s) as (s' & Hs' & Hd & Hlen & Hat).
    { by rewrite Hs. }
    exists ((c, s') :: t'). unfold frame_at_rows in *. cbn [mapM]. cbn [snd fst].
    rewrite Hs'. cbn [mbind option_bind]. rewrite Ht'. split; [done|].
    by constructor.
Qed.

Lemma rows_at idx (t t' : frame) (y y' : Series) :
  Forall2 (fun (p p' : label * Series) =>
             p'.1 = p.1 /\ dtype_of p'.2 = dtype_of p.2 /\
             length (cells p'.2) = length idx /\
             forall j i, idx !! j = Some i -> cells p'.2 !! j = cells p.2 !! i) t t' ->
  length (cells y') = length idx ->
  (forall j i, idx !! j = Some i -> cells y' !! j = cells y !! i) ->
  rows t' y' = row t y <$> idx.
Proof.
  intros Ht Hlen Hy. unfold rows. rewrite Hlen.
  apply list_eq. intros j. rewrite !list_lookup_fmap.
  destruct (idx !! j) as [i|] eqn:Hj.
  - rewrite lookup_seq_lt by (by eapply lookup_lt_Some). simpl.
    unfold row. rewrite (Hy _ _ Hj). f_equal. f_equal.
    clear -Ht Hj. induction Ht as [|p p' t t' (_ & _ & _ & Hat) _ IH]; [done|].
    rewrite !fmap_cons. by rewrite IH, (Hat _ _ Hj).
  - rewrite lookup_seq_ge by (by apply lookup_ge_None). done.
Qed.

Section shuffle.

Variable permutation : nat -> list nat.

(** X15.  [train_test_split] on features and a target of [n] rows each,
    for any permutation the generator draws: with fewer than two rows it
    raises a [ValueError] (the training set would be empty); otherwise the
    test set has [ceil(n / 4)] rows and the training set the others, both
    keep the column labels, and the rows of the two parts together are the
    rows of the input, each once, features and target of a row kept side
    by side. *)
Theorem split_partition (x : frame) (y : Series) (n : nat) :
  permutation n ≡ₚ seq 0 n ->
  n_rows x = n ->
  Forall (fun p : label * Series => length (cells p.2) = n) x ->
  length (cells y) = n ->
  if decide (2 <= n)%nat
  then exists s,
         train_test_split permutation x y = Ok s /\
         length (cells (y_test s)) = n_test n /\
         length (cells (y_train s)) = (n - n_test n)%nat /\
         (X_train s).*1 = x.*1 /\ (X_test s).*1 = x.*1 /\
         rows (X_train s) (y_train s) ++ rows (X_test s) (y_test s) ≡ₚ rows x y
  else train_test_split permutation x y = Raise ValueError.
Proof.
  intros Hperm Hn Hx Hy. unfold train_test_split. cbv zeta. rewrite Hn.
  destruct (decide (length (cells y) = n)) as [_|]; [|done].
  assert (Hnt : (n_test n <= n)%nat).
  { clear. unfold n_test. destruct n as [|n']; [exact (le_n 0)|].
    apply Nat.Div0.div_le_upper_bound. lia. }
  destruct (decide (2 <= n)%nat) as [H2|H2].
  - assert (Hlt : (n - n_test n)%nat <> O).
    { unfold n_test. assert ((n + 3) / 4 < n)%nat; [|lia].
      apply Nat.Div0.div_lt_upper_bound. lia. }
    rewrite decide_False by done.
    set (test := take (n_test n) (permutation n)).
    set (train := take (n - n_test n) (skipn (n_test n) (permutation n))).
    assert (Hplen : length (permutation n) = n).
    { by rewrite Hperm, length_seq. }
    assert (Htrain : train = skipn (n_test n) (permutation n)).
    { unfold train. apply take_ge. rewrite length_drop. lia. }
    assert (Hsplit : train ++ test ≡ₚ seq 0 n).
    { rewrite Htrain, (Permutation_app_comm _ test). unfold test.
      by rewrite take_drop. }
    assert (Hrange : Forall (fun i => (i < n)%nat) (train ++ test)).
    { rewrite Hsplit. apply Forall_forall. intros i Hi.
      apply elem_of_seq in Hi. lia. }
    apply Forall_app in Hrange as [Hrtrain Hrtest].
    destruct (frame_at_rows_some train x n Hx Hrtrain) as (a & -> & Ha).
    destruct (frame_at_rows_some test x n Hx Hrtest) as (b & -> & Hb).
    destruct (series_at_rows_some train y) as (c & -> & _ & Hclen & Hc);
      [by rewrite Hy|].
    destruct (series_at_rows_some test y) as (d & -> & _ & Hdlen & Hd);
      [by rewrite Hy|].
    eexists. split; [reflexivity|]. cbn [X_train X_test y_train y_test].
    split; [rewrite Hdlen; unfold test; rewrite length_take; lia|].
    split; [rewrite Hclen, Htrain, length_drop; lia|].
    split; [|split].
    + clear -Ha. induction Ha as [|p p' t t' (Hl & _) _ IH]; [done|].
      rewrite !fmap_cons. by rewrite IH, Hl.
    + clear -Hb. induction Hb as [|p p' t t' (Hl & _) _ IH]; [done|].
      rewrite !fmap_cons. by rewrite IH, Hl.
    + rewrite (rows_at train x a y c Ha Hclen Hc).
      rewrite (rows_at test x b y d Hb Hdlen Hd).
      rewrite <- fmap_app. unfold rows. rewrite Hy. by rewrite Hsplit.
  - assert (Hz : (n - n_test n)%nat = O).
    { clear -H2. unfold n_test. destruct n as [|[|n']]; [reflexivity|reflexivity|lia]. }
    by rewrite decide_True.
Qed.

End shuffle.


Lemma split_partition_example :
  (Samples.backwards 5 ≡ₚ seq 0 5 /\ n_rows Samples.features = 5%nat /\
   Forall (fun p : label * Series => length (cells p.2) = 5%nat) Samples.features /\
   length (cells Samples.targets) = 5%nat) /\
  exists s,
    train_test_split Samples.backwards Samples.features Samples.targets = Ok s /\
    length (cells (y_test s)) = 2%nat /\
    length (cells (y_train s)) = 3%nat /\
    (X_train s).*1 = Samples.features.*1 /\
    (X_test s).*1 = Samples.features.*1 /\
    rows (X_train s) (y_train s) ++ rows (X_test s) (y_test s)
      ≡ₚ rows Samples.features Samples.targets.
Proof.
  assert (Hperm : Samples.backwards 5 ≡ₚ seq 0 5) by apply Permutation_rev.
  assert (Hx : Forall (fun p : label * Series => length (cells p.2) = 5%nat)
                      Samples.features)
    by (by repeat constructor).
  split; [by repeat split|].
  exact (split_partition Samples.backwards Samples.features Samples.targets 5
           Hperm eq_refl Hx eq_refl).
Defined.

(** ** [y.unique()] after the binarization *)

Lemma unique_values_NoDup l : NoDup (unique_values l).
Proof.
  induction l as [|v l IH]; simpl; [constructor|].
  apply NoDup_cons. split; [|by apply NoDup_filter].
  intros Hin. apply list_elem_of_filter in Hin as [Hne _].
  by rewrite same_value_refl in Hne.
Qed.

Lemma y_unique_run st s :
  series_of Var.y st = Some s -> y_unique st = Ok (unique_values (cells s), st).
Proof.
  unfold series_of, series_at, y_unique, unique. intros Hy. unfold_ops.
  destruct (Var.y (vars st)) as [l|]; [|done]. simpl in *.
  by destruct (heap st !! l) as [[x| |]|]; simplify_eq.
Qed.

Lemma target_fourteen (c0 c1 c2 c3 c4 c5 c6 c7 c8 c9 c10 c11 c12 c13 : csv_column) :
  [c0; c1; c2; c3; c4; c5; c6; c7; c8; c9; c10; c11; c12; c13] !! 13%nat = Some c13 /\
  Run.y0 [c0; c1; c2; c3; c4; c5; c6; c7; c8; c9; c10; c11; c12; c13] = series_of_csv c13.
Proof. done. Qed.

(** X13.  When ['hd'] was read as integers, none negative, and the data
    preparation completes, [y.unique()] returns without changing the state
    a list without duplicates of at most two entries, each 0 or 1, that
    holds 0 exactly when some target was 0 and 1 exactly when some target
    was greater than 0. *)
Theorem target_values `{NumericReader} file ns st :
  file !! 13%nat = Some (IntColumn ns) ->
  Forall (fun n => 0 <= n) ns ->
  exec (pipeline file) initial = Ok st ->
  exists u,
    y_unique st = Ok (u, st) /\
    NoDup u /\
    Forall (fun v => v = VInt 0 \/ v = VInt 1) u /\
    (length u <= 2)%nat /\
    (VInt 0 ∈ u <-> 0 ∈ ns) /\
    (VInt 1 ∈ u <-> Exists (fun n => 0 < n) ns).
Proof.
  intros Hhd Hpos. unfold pipeline. rewrite exec_app.
  destruct (exec (data_loader file) initial) as [st0|] eqn:Hload; [|done].
  pose proof (loader_fourteen _ _ Hload) as Hlen.
  rewrite any_loader in Hload by done. injection Hload as <-.
  rewrite exec_app, any_resolver, any_formatter by done.
  destruct (gt_mask _ 0) as [m|] eqn:Hm; [|done].
  destruct (Column.to_numeric _) as [x|] eqn:Hx; [|done].
  intros [= <-]. destruct (any_see_final file m x Hlen) as (_ & _ & Hy & _).
  assert (Hy0 : Run.y0 file = int_series ns).
  { clear -Hlen Hhd. fourteen file Hlen.
    match goal with
    | H : [?c0; ?c1; ?c2; ?c3; ?c4; ?c5; ?c6; ?c7; ?c8; ?c9; ?c10; ?c11; ?c12; ?c13] !! _ = _ |- _ =>
        destruct (target_fourteen c0 c1 c2 c3 c4 c5 c6 c7 c8 c9 c10 c11 c12 c13)
          as [Hl ->]; rewrite Hl in H; by injection H as ->
    end. }
  assert (Hcells : cells (Run.y1 file m) = VInt <$> (to_one <$> ns)).
  { unfold Run.y1. rewrite Hy0 in *. cbn [cells dtype_of int_series cast] in *.
    rewrite gt_mask_ints in Hm. injection Hm as <-. apply set_where_ints. }
  exists (unique_values (cells (Run.y1 file m))).
  split; [by apply y_unique_run|]. rewrite Hcells.
  set (l := VInt <$> (to_one <$> ns)).
  assert (Hl : forall v, v ∈ l <-> exists n, n ∈ ns /\ v = VInt (to_one n)).
  { intros v. unfold l. rewrite <- list_fmap_compose, list_elem_of_fmap.
    split; intros (n & ? & ?); by exists n. }
  assert (Hbits : Forall (fun v => v = VInt 0 \/ v = VInt 1) (unique_values l)).
  { apply Forall_forall. intros v Hv. apply unique_values_subset in Hv.
    apply Hl in Hv as (n & Hn & ->).
    pose proof (proj1 (Forall_forall _ _) Hpos n Hn) as H0. cbv beta in H0.
    unfold to_one. destruct (Z.ltb_spec 0 n); [by right|left]. f_equal. lia. }
  pose proof (unique_values_distinct l) as Hdist.
  split; [apply unique_values_NoDup|]. split; [exact Hbits|]. split; [|split].
  - change 2%nat with (length [VInt 0; VInt 1]).
    apply submseteq_length, NoDup_submseteq; [apply unique_values_NoDup|].
    intros v Hv. apply (proj1 (Forall_forall _ _) Hbits) in Hv as [-> | ->].
    + left.
    + right. left.
  - split.
    + intros Hin. apply unique_values_subset, Hl in Hin as (n & Hn & Heq).
      unfold to_one in Heq. destruct (0 <? n); [discriminate|]. by injection Heq as <-.
    + intros Hin.
      assert (Hc : VInt 0 ∈ l) by (apply Hl; by exists 0).
      destruct (distinct_values_elem _ _ _ Hdist Hc) as (w & Hw & Hs).
      destruct (proj1 (Forall_forall _ _) Hbits w Hw) as [-> | ->]; [done|discriminate].
  - split.
    + intros Hin. apply unique_values_subset, Hl in Hin as (n & Hn & Heq).
      apply Exists_exists. exists n. split; [done|].
      unfold to_one in Heq. destruct (Z.ltb_spec 0 n); [done|].
      injection Heq as <-. lia.
    + intros Hex. apply Exists_exists in Hex as (n & Hn & Hpos').
      assert (Hc : VInt 1 ∈ l).
      { apply Hl. exists n. split; [done|]. unfold to_one.
        by destruct (Z.ltb_spec 0 n); [|lia]. }
      destruct (distinct_values_elem _ _ _ Hdist Hc) as (w & Hw & Hs).
      destruct (proj1 (Forall_forall _ _) Hbits w Hw) as [-> | ->]; [discriminate|done].
Qed.

Lemma target_values_example :
  (Example.file !! 13%nat = Some (IntColumn [0; 2; 1]) /\
   Forall (fun n => 0 <= n) [0; 2; 1]) /\
  exists st u,
    exec (pipeline Example.file) initial = Ok st /\
    y_unique st = Ok (u, st) /\
    NoDup u /\
    Forall (fun v => v = VInt 0 \/ v = VInt 1) u /\
    (length u <= 2)%nat /\
    (VInt 0 ∈ u <-> 0 ∈ [0; 2; 1]) /\
    (VInt 1 ∈ u <-> Exists (fun n => 0 < n) [0; 2; 1]).
Proof.
  assert (Hpos : Forall (fun n => 0 <= n) [0; 2; 1]) by (repeat constructor; lia).
  split; [by split|].
  assert (Hrun : exists st, exec (pipeline Example.file) initial = Ok st)
    by (eexists; vm_compute; reflexivity).
  destruct Hrun as [st Hrun].
  destruct (target_values Example.file [0; 2; 1] st eq_refl Hpos Hrun) as (u & Hu).
  exists st, u. by split.
Defined.
